(** * Journey analysis dashboard ([newjourney1.py]): model and properties

    The program reads raw GPS text, builds a pandas table of samples, derives
    per-segment distance, cumulative distance, speed and elapsed minutes
    ([load_and_process_data]) and computes a few summaries in [main].

    The development has three layers.
    - The Python runtime the program leans on: exceptions, [str.strip],
      [str.split], [datetime.strptime], [float], binary64 arithmetic, and the
      pandas/numpy column operations it calls.
    - The program itself, first as a function from the text to the finished
      table, then as the imperative code it is: a list object grown by
      [append] and a frame object whose columns are assigned in place, both
      living in a heap of Python objects.
    - The properties, stated on these definitions.

    Python floats are IEEE-754 binary64 numbers, which is what the kernel's
    primitive floats are, so a Python [float] is a [PrimFloat.float] here. *)

From Stdlib Require Import ZArith Floats Ascii String List Lia Bool.
From stdpp Require Import base option list gmap strings.
Import ListNotations.

Set Warnings "-inexact-float".
Local Open Scope Z_scope.

(** ** Python exceptions and results *)

Module Py.

(** The exceptions the modelled code can raise. *)
Inductive exn : Type :=
| IndexError      (* list index out of range *)
| ValueError      (* strptime, float(), the datetime constructor, geopy's Point *)
| OverflowError   (* a timedelta that does not fit 64 bits of nanoseconds *)
| KeyError        (* a column that the frame does not have *)
| TypeError.      (* an object of the wrong kind, or an operation it does not have *)

(** A computation either returns a value or raises. *)
Inductive result (A : Type) : Type :=
| Ok (a : A)
| Raise (e : exn).
Arguments Ok {A} a.
Arguments Raise {A} e.

Definition bind {A B} (m : result A) (k : A -> result B) : result B :=
  match m with
  | Ok a => k a
  | Raise e => Raise e
  end.

Definition map {A B} (f : A -> B) (m : result A) : result B :=
  match m with
  | Ok a => Ok (f a)
  | Raise e => Raise e
  end.

Definition is_ok {A} (m : result A) : bool :=
  match m with Ok _ => true | Raise _ => false end.

(** [of_option e o]: a partial library function that raises [e] where it is
    undefined. *)
Definition of_option {A} (e : exn) (o : option A) : result A :=
  match o with Some a => Ok a | None => Raise e end.

(** [xs[i]] on a Python list: IndexError out of range (the program only uses
    non-negative literal indices on lists). *)
Definition index {A} (xs : list A) (i : nat) : result A :=
  of_option IndexError (xs !! i).

(** A [for] loop whose body computes one value per element and may raise:
    the first exception ends the loop. *)
Fixpoint for_each {A B} (body : A -> result B) (xs : list A) : result (list B) :=
  match xs with
  | [] => Ok []
  | x :: rest =>
      bind (body x) (fun y =>
      bind (for_each body rest) (fun ys => Ok (y :: ys)))
  end.

(** *** Strings

    A [str] is modelled as a [string] of 8-bit characters, that is, text in
    the Latin-1 range. *)

Definition TAB : ascii := "009"%char.
Definition LF : ascii := "010"%char.

(** [str.isspace] for one character, on the Latin-1 range: tab, LF, VT, FF,
    CR, the separators 0x1c-0x1f, space, NEL (0x85) and NBSP (0xa0). *)
Definition isspace (c : ascii) : bool :=
  let n := nat_of_ascii c in
  ((9 <=? n)%nat && (n <=? 13)%nat) || ((28 <=? n)%nat && (n <=? 32)%nat)
  || (n =? 133)%nat || (n =? 160)%nat.

Fixpoint lstrip (s : string) : string :=
  match s with
  | EmptyString => EmptyString
  | String c rest => if isspace c then lstrip rest else s
  end.

(** [rstrip] by structural recursion: a character stays when it is not a
    space or something remains after it. *)
Fixpoint rstrip (s : string) : string :=
  match s with
  | EmptyString => EmptyString
  | String c rest =>
      match rstrip rest with
      | EmptyString => if isspace c then EmptyString else String c EmptyString
      | r => String c r
      end
  end.

(** [s.strip()] *)
Definition strip (s : string) : string := rstrip (lstrip s).

(** [s.split(sep)] for a one-character separator: every occurrence of [sep]
    ends a field; the result is never empty ([''.split(sep) == ['']]). *)
Fixpoint split (sep : ascii) (s : string) : list string :=
  match s with
  | EmptyString => [EmptyString]
  | String c rest =>
      if Ascii.eqb c sep then EmptyString :: split sep rest
      else match split sep rest with
           | [] => [String c EmptyString]
           | field :: fields => String c field :: fields
           end
  end.

End Py.

#[global] Instance result_ret : MRet Py.result := @Py.Ok.
#[global] Instance result_bind : MBind Py.result := fun A B k m => Py.bind m k.


(** ** Binary64 helpers: what numpy does beyond the four operations *)

Module F64.

(** Conversion of an integer (an int64 of numpy, a Python int) to the nearest
    binary64 number. *)
Definition of_Z (z : Z) : float := SF2Prim (binary_normalize prec emax z 0 false).

(** C's [rint] in the default rounding mode: the nearest integer, ties to
    even; NaN, infinities and numbers without a fractional part are returned
    as they are, and the sign is kept ([rint(-0.3) = -0.0]). *)
Definition rint (x : float) : float :=
  match Prim2SF x with
  | S754_finite s m e =>
      if (0 <=? e)%Z then x
      else
        let '(mrs, _) := shr (shr_record_of_loc (Zpos m) loc_Exact) e (- e) in
        let k := round_nearest_even (shr_m mrs) (loc_of_shr_record mrs) in
        SF2Prim (binary_normalize prec emax (cond_Zopp s k) 0 s)
  | _ => x
  end.

(** [np.round(x, 2)] on a float64: numpy multiplies by [10**2], applies
    [rint] and divides by [10**2]. *)
Definition round2 (x : float) : float := (rint (x * 100) / 100)%float.

(** The correctly rounded quotient of two positive integers, with a sign:
    the value of a decimal literal [n / 10^k]. *)
Definition of_ratio (neg : bool) (n d : positive) : float :=
  let '(q, e, l) := SFdiv_core_binary prec emax (Zpos n) 0 (Zpos d) 0 in
  SF2Prim (binary_round_aux prec emax neg q e l).

End F64.

(** ** Rounding to binary64, on integers

    The binary64 operations round an exact result to 53 bits. To compare
    two rounded results the rounding is described here on integers: a
    non-negative value is counted in units of [2^-1074], the smallest
    positive binary64 number, so that every finite non-negative float is an
    integer. The definitions follow [SpecFloat]'s: a mantissa with a round
    and a sticky bit, shifted right to the canonical exponent and rounded to
    nearest, ties to even. *)

Module Rnd.

(** Number of binary digits. *)
Definition dg (m : Z) : Z := Zdigits2 m.

(** A mantissa [m] with its round bit [r] and sticky bit [s] is the integer
    [4m + 2r + s]. One right shift halves the mantissa, moves its last bit
    into the round bit and accumulates the old round and sticky bits. *)
Definition sticky (t : Z) : Z := 2 * (t / 4) + (if t mod 4 =? 0 then 0 else 1).

Definition sh (n : nat) (t : Z) : Z := Nat.iter n sticky t.

(** The quotient [N / D] in that encoding: its floor, then where the
    remainder lies: 0 for none, 1 below half of [D], 2 at half, 3 above. *)
Definition rcode (r D : Z) : Z :=
  if r =? 0 then 0 else match 2 * r ?= D with Lt => 1 | Eq => 2 | Gt => 3 end.

Definition T (N D : Z) : Z := 4 * (N / D) + rcode (N mod D) D.

(** Round to nearest, ties to even, of an encoded mantissa. *)
Definition rne (t : Z) : Z :=
  t / 4 + (if (t mod 4 =? 3) || ((t mod 4 =? 2) && Z.odd (t / 4)) then 1 else 0).

(** The canonical exponent of a mantissa [m] at exponent [e]: 53 digits are
    kept, and no exponent is below -1074. *)
Definition cexp (m e : Z) : Z := Z.max (dg m + e - 53) (-1074).

(** The input is at least as fine as its canonical exponent. *)
Definition ready (t e : Z) : Prop := 0 <= t /\ e <= cexp (t / 4) e.

(** The rounded mantissa, and the rounded value in units of [2^-1074], with
    no upper bound on the exponent. *)
Definition m1 (t e : Z) : Z := rne (sh (Z.to_nat (cexp (t / 4) e - e)) t).

Definition uval (t e : Z) : Z := m1 t e * 2 ^ (cexp (t / 4) e + 1074).

(** The rounding of the rational [N / D], given in units of [2^-1074]. *)
Definition RQ (N D : Z) : Z := uval (T N D) (-1074).

(** [SpecFloat]'s locations and shift records in the encoding. *)
Definition lcode (l : location) : Z :=
  match l with
  | loc_Exact => 0
  | loc_Inexact Lt => 1
  | loc_Inexact Eq => 2
  | loc_Inexact Gt => 3
  end.

Definition enc (mrs : shr_record) : Z :=
  4 * shr_m mrs + (if shr_r mrs then 2 else 0) + (if shr_s mrs then 1 else 0).

(** [Rep x v]: [x] is the non-negative float of value [v], or it is plus
    infinity and [v] is beyond the largest float. *)
Inductive Rep : spec_float -> Z -> Prop :=
| Rep_zero (s : bool) : Rep (S754_zero s) 0
| Rep_finite (m : positive) (e : Z) :
    bounded prec emax m e = true -> Rep (S754_finite false m e) (Zpos m * 2 ^ (e + 1074))
| Rep_inf (v : Z) : 2 ^ 2098 <= v -> Rep (S754_infinity false) v.

(** The value of a finite non-negative float. *)
Definition val (x : spec_float) : Z :=
  match x with
  | S754_finite false m e => Zpos m * 2 ^ (e + 1074)
  | _ => 0
  end.

(** A float that is not NaN and not negative: a zero, a positive finite
    number or plus infinity. *)
Definition nonneg (x : spec_float) : Prop :=
  match x with
  | S754_zero _ | S754_finite false _ _ | S754_infinity false => True
  | _ => False
  end.

Definition good (x : spec_float) : Prop := valid_binary x = true /\ nonneg x.

(** [F64.rint] on the specification floats, and on values. *)
Definition rintSF (x : spec_float) : spec_float :=
  match x with
  | S754_finite s m e =>
      if 0 <=? e then x
      else
        let '(mrs, _) := shr (shr_record_of_loc (Zpos m) loc_Exact) e (- e) in
        let k := round_nearest_even (shr_m mrs) (loc_of_shr_record mrs) in
        binary_normalize prec emax (cond_Zopp s k) 0 s
  | _ => x
  end.

Definition rintZ (v : Z) : Z := rne (T v (2 ^ 1074)).

(** A function on floats that keeps non-negative numbers non-negative and
    in order. *)
Definition monotone (f : float -> float) : Prop :=
  forall x y : float, (0 <=? x)%float = true -> (x <=? y)%float = true ->
    (0 <=? f x)%float = true /\ (f x <=? f y)%float = true.

End Rnd.

(** A float with a clear sign bit that is not NaN: [+0.0], a positive number
    or plus infinity. *)
Definition plusSF (x : spec_float) : bool :=
  match x with
  | S754_zero false | S754_finite false _ _ | S754_infinity false => true
  | _ => false
  end.

Definition is_plus (x : float) : bool := plusSF (Prim2SF x).

(** The value of a float of either sign, in units of [2^-1074]; the
    infinities stand beyond every finite value, and NaN counts as 0. *)
Definition top : Z := 2 ^ 2098.

Definition sval (x : spec_float) : Z :=
  match x with
  | S754_zero _ | S754_nan => 0
  | S754_finite s m e => cond_Zopp s (Zpos m * 2 ^ (e + 1074))
  | S754_infinity s => cond_Zopp s top
  end.

(** The float [x] is the non-negative integer [z], exactly. *)
Definition is_int (x : float) (z : Z) : Prop :=
  is_plus x = true /\ Rnd.Rep (Prim2SF x) (z * 2 ^ 1074).

(** The value [binary_normalize] gives to the integer [z] at exponent [e]. *)
Definition nval (z e : Z) : Z :=
  match z with
  | Z0 => 0
  | Zpos p => Z.min (Rnd.RQ (Zpos p * 2 ^ (e + 1074)) 1) top
  | Zneg p => - Z.min (Rnd.RQ (Zpos p * 2 ^ (e + 1074)) 1) top
  end.

(** ** [datetime] *)

Module Datetime.

(** A naive [datetime.datetime]. *)
Record datetime : Type := mk {
  year : Z; month : Z; day : Z;
  hour : Z; minute : Z; second : Z; microsecond : Z
}.

Definition is_leap (y : Z) : bool :=
  ((y mod 4 =? 0) && negb (y mod 100 =? 0)) || (y mod 400 =? 0).

Definition days_in_month (y m : Z) : Z :=
  if m =? 2 then (if is_leap y then 29 else 28)
  else if (m =? 4) || (m =? 6) || (m =? 9) || (m =? 11) then 30
  else 31.

(** Days in the year before the first day of month [m]. *)
Definition days_before_month (y m : Z) : Z :=
  fold_left Z.add (map (days_in_month y) (map Z.of_nat (seq 1 (Z.to_nat (m - 1))))) 0.

(** Days before January 1st of year [y] (proleptic Gregorian calendar). *)
Definition days_before_year (y : Z) : Z :=
  let p := y - 1 in p * 365 + p / 4 - p / 100 + p / 400.

(** [date.toordinal()]: January 1st of year 1 is day 1. *)
Definition toordinal (t : datetime) : Z :=
  days_before_year (year t) + days_before_month (year t) (month t) + day t.

(** Microseconds since the start of day 0. *)
Definition to_micros (t : datetime) : Z :=
  (((toordinal t * 24 + hour t) * 60 + minute t) * 60 + second t) * 1000000
  + microsecond t.

(** What the [datetime] constructor accepts. *)
Definition valid (t : datetime) : bool :=
  (1 <=? year t) && (year t <=? 9999)
  && (1 <=? month t) && (month t <=? 12)
  && (1 <=? day t) && (day t <=? days_in_month (year t) (month t))
  && (0 <=? hour t) && (hour t <=? 23)
  && (0 <=? minute t) && (minute t <=? 59)
  && (0 <=? second t) && (second t <=? 59)
  && (0 <=? microsecond t) && (microsecond t <=? 999999).

(** *** [strptime] with the format ['%Y-%m-%d %H:%M:%S.%f']

    CPython turns the format into a regular expression and matches it at the
    start of the string:
    [(\d\d\d\d)-(1[0-2]|0[1-9]|[1-9])-(3[0-1]|[1-2]\d|0[1-9]|[1-9]| [1-9])\s+]
    [(2[0-3]|[0-1]\d|\d):([0-5]\d|\d):(6[0-1]|[0-5]\d|\d)\.([0-9]{1,6})].
    A matcher lists its ways to match a prefix in the order a backtracking
    engine tries them, each with the value read and the rest of the string. *)

Definition matcher (A : Type) : Type := string -> list (A * string).

Definition is_digit (c : ascii) : bool :=
  let n := nat_of_ascii c in (48 <=? n)%nat && (n <=? 57)%nat.

Definition digit_val (c : ascii) : Z := Z.of_nat (nat_of_ascii c) - 48.

(** One digit in [[lo-hi]]. *)
Definition digit (lo hi : Z) : matcher Z := fun s =>
  match s with
  | String c rest =>
      if is_digit c && (lo <=? digit_val c) && (digit_val c <=? hi)
      then [(digit_val c, rest)] else []
  | EmptyString => []
  end.

(** One given character. *)
Definition lit (c : ascii) : matcher Z := fun s =>
  match s with
  | String c' rest => if Ascii.eqb c c' then [(0, rest)] else []
  | EmptyString => []
  end.

(** [p] then [q], the values combined by [f]. *)
Definition then_ {A B C} (f : A -> B -> C) (p : matcher A) (q : matcher B) : matcher C :=
  fun s => flat_map (fun '(a, r) => map (fun '(b, r') => (f a b, r')) (q r)) (p s).

(** Alternatives [p1|p2|...], tried in this order. *)
Definition alt {A} (ps : list (matcher A)) : matcher A :=
  fun s => flat_map (fun p => p s) ps.

(** Two digits [[a-b][c-d]] read as a number. *)
Definition two_digits (a b c d : Z) : matcher Z :=
  then_ (fun x y => 10 * x + y) (digit a b) (digit c d).

(** [\s+]: one or more spaces, the longest run first. *)
Fixpoint spaces (s : string) : list (Z * string) :=
  match s with
  | String c rest => if Py.isspace c then spaces rest ++ [(0, rest)] else []
  | EmptyString => []
  end.

(** [[0-9]{1,n}]: the digits read, longest first, as (digits, how many). *)
Fixpoint digits_upto (n : nat) (acc : Z) (len : nat) (s : string) : list ((Z * nat) * string) :=
  match n, s with
  | S n', String c rest =>
      if is_digit c
      then digits_upto n' (10 * acc + digit_val c) (S len) rest
           ++ [((10 * acc + digit_val c, S len), rest)]
      else []
  | _, _ => []
  end.

Definition re_Y : matcher Z :=
  then_ (fun a b => 100 * a + b) (two_digits 0 9 0 9) (two_digits 0 9 0 9).
Definition re_m : matcher Z :=
  alt [then_ (fun _ y => 10 + y) (lit "1") (digit 0 2);
       then_ (fun _ y => y) (lit "0") (digit 1 9);
       digit 1 9].
Definition re_d : matcher Z :=
  alt [then_ (fun _ y => 30 + y) (lit "3") (digit 0 1);
       two_digits 1 2 0 9;
       then_ (fun _ y => y) (lit "0") (digit 1 9);
       digit 1 9;
       then_ (fun _ y => y) (lit " ") (digit 1 9)].
Definition re_H : matcher Z :=
  alt [then_ (fun _ y => 20 + y) (lit "2") (digit 0 3);
       two_digits 0 1 0 9;
       digit 0 9].
Definition re_M : matcher Z :=
  alt [two_digits 0 5 0 9; digit 0 9].
Definition re_S : matcher Z :=
  alt [then_ (fun _ y => 60 + y) (lit "6") (digit 0 1);
       two_digits 0 5 0 9;
       digit 0 9].
(** [%f]: up to six digits, padded with zeros on the right to microseconds. *)
Definition re_f : matcher Z := fun s =>
  map (fun '((v, len), r) => (v * 10 ^ Z.of_nat (6 - len), r)) (digits_upto 6 0 0 s).

Definition skip {A} (p : matcher Z) (q : matcher A) : matcher A := then_ (fun _ x => x) p q.

(** The whole expression, the fields collected into a record. *)
Definition re_format : matcher datetime :=
  then_ (fun Y k => k Y) re_Y
 (skip (lit "-") (then_ (fun m k Y => k Y m) re_m
 (skip (lit "-") (then_ (fun d k Y m => k Y m d) re_d
 (skip spaces (then_ (fun H k Y m d => k Y m d H) re_H
 (skip (lit ":") (then_ (fun M k Y m d H => k Y m d H M) re_M
 (skip (lit ":") (then_ (fun S f Y m d H M => mk Y m d H M S f) re_S
 (skip (lit ".") re_f))))))))))).

(** [datetime.strptime(s, '%Y-%m-%d %H:%M:%S.%f')]: the first match of the
    expression must use up the string, and the fields must make a date that
    exists; every failure is a ValueError, here [None]. *)
Definition strptime (s : string) : option datetime :=
  match re_format s with
  | (t, EmptyString) :: _ => if valid t then Some t else None
  | _ => None
  end.

Definition two (n : Z) : string :=
  String (ascii_of_nat (48 + Z.to_nat (n / 10)))
    (String (ascii_of_nat (48 + Z.to_nat (n mod 10))) EmptyString).

(** [t.strftime('%H:%M:%S')] *)
Definition strftime_HMS (t : datetime) : string :=
  (two (hour t) ++ ":" ++ two (minute t) ++ ":" ++ two (second t))%string.

(** [t.date()] *)
Definition date (t : datetime) : Z * Z * Z := (year t, month t, day t).

End Datetime.


(** ** [float(str)] *)

Module PyFloat.

Definition lower (c : ascii) : ascii :=
  let n := nat_of_ascii c in
  if (65 <=? n)%nat && (n <=? 90)%nat then ascii_of_nat (n + 32) else c.

Fixpoint lowercase (s : string) : string :=
  match s with
  | EmptyString => EmptyString
  | String c rest => String (lower c) (lowercase rest)
  end.

(** Digits after the first one of a run; an underscore is read only between
    two digits. The accumulator holds the number and the count of digits. *)
Fixpoint more_digits (acc : Z) (n : Z) (s : string) : Z * Z * string :=
  match s with
  | String c rest =>
      if Datetime.is_digit c
      then more_digits (10 * acc + Datetime.digit_val c) (n + 1) rest
      else if Ascii.eqb c "_" then
        match rest with
        | String c' rest' =>
            if Datetime.is_digit c'
            then more_digits (10 * acc + Datetime.digit_val c') (n + 1) rest'
            else (acc, n, s)
        | EmptyString => (acc, n, s)
        end
      else (acc, n, s)
  | EmptyString => (acc, n, s)
  end.

(** A run of digits continuing the number [acc]: the number, how many digits
    were read, and the rest; [None] when [s] does not start with a digit. *)
Definition digitpart (acc : Z) (s : string) : option (Z * Z * string) :=
  match s with
  | String c rest =>
      if Datetime.is_digit c
      then Some (more_digits (10 * acc + Datetime.digit_val c) 1 rest)
      else None
  | EmptyString => None
  end.

Definition sign (s : string) : bool * string :=
  match s with
  | String c rest =>
      if Ascii.eqb c "-" then (true, rest)
      else if Ascii.eqb c "+" then (false, rest)
      else (false, s)
  | EmptyString => (false, s)
  end.

(** The digits of a decimal literal: the integer they spell, the power of
    ten that the fraction contributes, and the rest. *)
Definition mantissa (s : string) : option (Z * Z * string) :=
  match digitpart 0 s with
  | Some (n, _, String "." r1) =>
      match digitpart n r1 with
      | Some (n', k, r2) => Some (n', - k, r2)
      | None => Some (n, 0, r1)
      end
  | Some (n, _, r) => Some (n, 0, r)
  | None =>
      match s with
      | String "." r1 =>
          match digitpart 0 r1 with
          | Some (n', k, r2) => Some (n', - k, r2)
          | None => None
          end
      | _ => None
      end
  end.

(** An optional exponent [e[+-]digits]; an [e] that no digits follow is not
    part of the number. *)
Definition exponent (s : string) : Z * string :=
  match s with
  | String c r =>
      if Ascii.eqb (lower c) "e" then
        let '(neg, r1) := sign r in
        match digitpart 0 r1 with
        | Some (e, _, r2) => ((if neg then - e else e), r2)
        | None => (0, s)
        end
      else (0, s)
  | EmptyString => (0, s)
  end.

(** The binary64 number nearest to [n * 10^e10], [n >= 0]. *)
Definition decimal_value (neg : bool) (n e10 : Z) : float :=
  match n with
  | Zpos p =>
      if 0 <=? e10
      then SF2Prim (binary_normalize prec emax (cond_Zopp neg (n * 10 ^ e10)) 0 neg)
      else F64.of_ratio neg p (Z.to_pos (10 ^ (- e10)))
  | _ => if neg then PrimFloat.neg_zero else PrimFloat.zero
  end.

(** [float(s)]: surrounding whitespace is dropped; then a sign and either
    [inf], [infinity], [nan] (in any case) or a decimal literal with an
    optional exponent. Anything else is a ValueError, here [None]. *)
Definition parse (s : string) : option float :=
  let '(neg, body) := sign (Py.strip s) in
  let word := lowercase body in
  if String.eqb word "inf" || String.eqb word "infinity"
  then Some (if neg then PrimFloat.neg_infinity else PrimFloat.infinity)
  else if String.eqb word "nan" then Some PrimFloat.nan
  else
    match mantissa body with
    | Some (n, k, r) =>
        match exponent r with
        | (e, EmptyString) => Some (decimal_value neg n (k + e))
        | _ => None
        end
    | None => None
    end.

End PyFloat.


(** ** The libraries behind the program

    [geopy.distance.geodesic] (Karney's algorithm on the WGS-84 ellipsoid)
    and numpy's summation (whose order of additions depends on the array
    length and the build) are not part of the repository and are not
    modelled: the program is read over any implementation of them. The two
    parsers are taken the same way, and [Datetime.strptime] and
    [PyFloat.parse] above are the instance that follows CPython. *)

Abbreviation coords := (float * float)%type.

Class Libraries : Type := {
  (** [datetime.strptime(s, '%Y-%m-%d %H:%M:%S.%f')]; [None] is ValueError *)
  strptime : string -> option Datetime.datetime;
  (** [float(s)]; [None] is ValueError *)
  py_float : string -> option float;
  (** [geodesic(p, q).kilometers]; geopy raises ValueError on a latitude
      outside [-90, 90] and on coordinates that are not finite *)
  geodesic_km : coords -> coords -> Py.result float;
  (** [ndarray.sum()] of a float64 array without NaN *)
  np_sum : list float -> float
}.

(** ** pandas: the column operations the program calls *)

Module Pd.

Definition notna (x : float) : bool := negb (PrimFloat.is_nan x).

(** NaN entries replaced by [v], as pandas' nan-aware reductions do before
    they call numpy. *)
Definition fillna (v : float) (xs : list float) : list float :=
  map (fun x => if PrimFloat.is_nan x then v else x) xs.

(** Number of entries that are not NaN, as a float. *)
Definition count (xs : list float) : float :=
  F64.of_Z (Z.of_nat (length (List.filter notna xs))).

(** [Series.cumsum()] with the default [skipna=True]: numpy's running sum
    (first entry copied, then one addition per entry, left to right) over the
    column with NaN replaced by 0, and NaN put back where it was. *)
Fixpoint cumsum_from (acc : float) (xs : list float) : list float :=
  match xs with
  | [] => []
  | x :: rest =>
      let acc' := (acc + (if PrimFloat.is_nan x then 0 else x))%float in
      (if PrimFloat.is_nan x then PrimFloat.nan else acc') :: cumsum_from acc' rest
  end.

Definition cumsum (xs : list float) : list float :=
  match xs with
  | [] => []
  | x :: rest =>
      x :: cumsum_from (if PrimFloat.is_nan x then 0%float else x) rest
  end.

Definition fmax (a b : float) : float := if (a <? b)%float then b else a.

(** [Series.max()]: the largest entry that is not NaN; NaN when there is
    none. *)
Definition max (xs : list float) : float :=
  match List.filter notna xs with
  | [] => PrimFloat.nan
  | x :: rest => fold_left fmax rest x
  end.

Section Reductions.
Context {L : Libraries}.

(** [Series.mean()]: the sum of the entries that are not NaN over their
    number; NaN when there is none. *)
Definition mean (xs : list float) : float :=
  if (0 <? count xs)%float then (np_sum (fillna 0 xs) / count xs)%float
  else PrimFloat.nan.

(** [Series.var(ddof)] as pandas' [nanops.nanvar] computes it: the divisor
    is [count - ddof], and both the count and the divisor become NaN when
    [count <= ddof]. *)
Definition var (ddof : Z) (xs : list float) : float :=
  let n := count xs in
  let degenerate := (n <=? F64.of_Z ddof)%float in
  let cnt := if degenerate then PrimFloat.nan else n in
  let d := if degenerate then PrimFloat.nan else (n - F64.of_Z ddof)%float in
  let avg := (np_sum (fillna 0 xs) / cnt)%float in
  let sqr := map (fun x => if PrimFloat.is_nan x then 0%float
                           else ((avg - x) * (avg - x))%float) xs in
  (np_sum sqr / d)%float.

(** [Series.std()]: pandas' default is [ddof=1]. *)
Definition std (xs : list float) : float := PrimFloat.sqrt (var 1 xs).

End Reductions.

(** [s > c] and [s < c] for a column and a scalar: a boolean column. *)
Definition gt (xs : list float) (c : float) : list bool := map (fun x => (c <? x)%float) xs.
Definition lt (xs : list float) (c : float) : list bool := map (fun x => (x <? c)%float) xs.

(** Rows of a column kept by a boolean mask. *)
Fixpoint select {A} (mask : list bool) (xs : list A) : list A :=
  match mask, xs with
  | b :: mask', x :: xs' => if b then x :: select mask' xs' else select mask' xs'
  | _, _ => []
  end.

(** Largest and smallest nanosecond count of a [Timedelta] or of a
    [Timestamp] relative to 1970. *)
Definition ns_max : Z := 2 ^ 63 - 1.
Definition in_ns_bounds (ns : Z) : bool := (- ns_max <=? ns) && (ns <=? ns_max).

(** Nanoseconds since 1970-01-01 of a naive datetime. *)
Definition epoch_micros : Z :=
  Eval vm_compute in Datetime.to_micros (Datetime.mk 1970 1 1 0 0 0 0).
Definition to_ns (t : Datetime.datetime) : Z :=
  (Datetime.to_micros t - epoch_micros) * 1000.

(** [Timedelta.total_seconds()]: the nanoseconds, as a float, over 1e9. *)
Definition total_seconds (ns : Z) : float := (F64.of_Z ns / 1e9)%float.

End Pd.

(** ** The program's data *)

(** One dict of [cleaned_data]. *)
Module Rec.
Record t : Type := mk {
  timestamp : Datetime.datetime;
  latitude : float;
  longitude : float;
  date : Z * Z * Z;
  time : string;
  hour : Z;
  minute : Z
}.
End Rec.

(** The table [load_and_process_data] returns: the row labels and its
    eleven columns. *)
Module Df.
Record t : Type := mk {
  index : list nat;
  timestamp : list Datetime.datetime;
  latitude : list float;
  longitude : list float;
  date : list (Z * Z * Z);
  time : list string;
  hour : list Z;
  minute : list Z;
  duration_minutes : list float;
  distance_km : list float;
  cumulative_distance : list float;
  speed_kmh : list float
}.

(** [len(df)] *)
Definition len (df : t) : nat := length (index df).

(** [df[mask]]: the rows where the mask holds, in every column. *)
Definition filter (mask : list bool) (df : t) : t :=
  mk (Pd.select mask (index df)) (Pd.select mask (timestamp df))
     (Pd.select mask (latitude df)) (Pd.select mask (longitude df))
     (Pd.select mask (date df)) (Pd.select mask (time df))
     (Pd.select mask (hour df)) (Pd.select mask (minute df))
     (Pd.select mask (duration_minutes df)) (Pd.select mask (distance_km df))
     (Pd.select mask (cumulative_distance df)) (Pd.select mask (speed_kmh df)).
End Df.

(** ** folium: the map objects [create_map] builds

    A map is a folium object with children, kept in the order they were
    added. [folium.Map] makes the map and puts its own children on it (the
    default tile layer) before the program adds any. Folium checks the
    arguments of each constructor and may refuse them; what it refuses, and
    what a new map carries, is its own business, so the constructors are
    parameters. *)

Module Folium.

Inductive layer : Type :=
| TileLayer (tiles : string)
| PolyLine (locations : list coords) (weight : Z) (color : string) (opacity : float)
| Marker (location : coords) (popup : string) (icon_color : string).

Record Map : Type := mkMap {
  location : coords;
  zoom_start : Z;
  children : list layer
}.

(** [layer.add_to(m)]: the layer becomes the last child of the map. *)
Definition add_to (l : layer) (m : Map) : Map :=
  mkMap (location m) (zoom_start m) (children m ++ [l]).

Class Library : Type := {
  (** [folium.Map(location=..., zoom_start=...)]: the new map, with the
      children folium itself gives it *)
  new_Map : coords -> Z -> Py.result Map;
  (** [folium.PolyLine(locations, weight=..., color=..., opacity=...)] *)
  check_PolyLine : list coords -> Z -> string -> float -> Py.result unit;
  (** [folium.Marker(location, popup=..., icon=folium.Icon(color=...))] *)
  check_Marker : coords -> string -> string -> Py.result unit
}.

End Folium.

(** ** The program *)

Section Journey.
Context {L : Libraries} {F : Folium.Library}.

(** The body of the parsing loop (lines 17-31): one dict per line. The
    subscripts and conversions are evaluated in the order of the source, so
    the first one that fails decides the exception. *)
Definition parse_line (line : string) : Py.result Rec.t :=
  let parts := Py.split Py.TAB line in
  p1 ← Py.index parts 1;
  timestamp ← Py.of_option Py.ValueError (strptime p1);
  p2 ← Py.index parts 2;
  latitude ← Py.of_option Py.ValueError (py_float p2);
  p3 ← Py.index parts 3;
  longitude ← Py.of_option Py.ValueError (py_float p3);
  mret (Rec.mk timestamp latitude longitude
          (Datetime.date timestamp) (Datetime.strftime_HMS timestamp)
          (Datetime.hour timestamp) (Datetime.minute timestamp)).

(** Lines 13-31: [cleaned_data]. *)
Definition parse_lines (data_text : string) : Py.result (list Rec.t) :=
  let lines := Py.split Py.LF (Py.strip data_text) in
  Py.for_each parse_line lines.

(** Line 36: [((ts - ts.iloc[0]).dt.total_seconds() / 60).round(2)], as
    pandas 2 computes it. pandas 2 stores the stamps as 64-bit nanoseconds.
    A column with a stamp outside that range stays a column of Python
    objects, from which the first stamp cannot be subtracted (TypeError),
    and a difference outside the range is an OverflowError. (pandas 3 keeps
    microseconds and has no such limit.) *)
Definition duration_of (t0 t : Datetime.datetime) : Py.result float :=
  let delta := Pd.to_ns t - Pd.to_ns t0 in
  if Pd.in_ns_bounds delta
  then Py.Ok (F64.round2 (Pd.total_seconds delta / 60))%float
  else Py.Raise Py.OverflowError.

Definition duration_column (ts : list Datetime.datetime) : Py.result (list float) :=
  t0 ← Py.index ts 0;
  if forallb (fun t => Pd.in_ns_bounds (Pd.to_ns t)) ts
  then Py.for_each (duration_of t0) ts
  else Py.Raise Py.TypeError.

(** Lines 40-43: the distance from each row to the next one, in row order. *)
Fixpoint segments (prev : coords) (rest : list coords) : Py.result (list float) :=
  match rest with
  | [] => Py.Ok []
  | c :: rest' =>
      d ← geodesic_km prev c;
      ds ← segments c rest';
      mret (d :: ds)
  end.

(** Lines 39-43: the column starts as all 0.0 and rows 1.. are assigned. *)
Definition distance_column (cs : list coords) : Py.result (list float) :=
  match cs with
  | [] => Py.Ok []
  | c0 :: rest => ds ← segments c0 rest; mret (0%float :: ds)
  end.

(** Line 46 *)
Definition speed_column (distance_km : list float) : list float :=
  map (fun d => d / (10 / 60))%float distance_km.

Definition load_and_process_data (data_text : string) : Py.result Df.t :=
  cleaned_data ← parse_lines data_text;
  let timestamp := map Rec.timestamp cleaned_data in
  let latitude := map Rec.latitude cleaned_data in
  let longitude := map Rec.longitude cleaned_data in
  duration_minutes ← duration_column timestamp;
  distance_km ← distance_column (combine latitude longitude);
  let cumulative_distance := Pd.cumsum distance_km in
  let speed_kmh := speed_column distance_km in
  mret (Df.mk (seq 0 (length cleaned_data)) timestamp latitude longitude
          (map Rec.date cleaned_data) (map Rec.time cleaned_data)
          (map Rec.hour cleaned_data) (map Rec.minute cleaned_data)
          duration_minutes distance_km cumulative_distance speed_kmh).

(** *** [create_map] *)

(** [s.iloc[-1]] *)
Definition iloc_last {A} (xs : list A) : Py.result A :=
  Py.of_option Py.IndexError (last xs).

(** Lines 50-72. [iterrows] yields the rows in order, so the list
    comprehension pairs the two columns entry by entry. Each layer is
    constructed, which folium may refuse, and then added to the map. *)
Definition create_map (df : Df.t) : Py.result Folium.Map :=
  let center_lat := Pd.mean (Df.latitude df) in
  let center_lon := Pd.mean (Df.longitude df) in
  m ← Folium.new_Map (center_lat, center_lon) 6;
  let coordinates := combine (Df.latitude df) (Df.longitude df) in
  _ ← Folium.check_PolyLine coordinates 2 "blue" 0.8;
  let m := Folium.add_to (Folium.PolyLine coordinates 2 "blue" 0.8) m in
  lat0 ← Py.index (Df.latitude df) 0;
  lon0 ← Py.index (Df.longitude df) 0;
  _ ← Folium.check_Marker (lat0, lon0) "Start" "green";
  let m := Folium.add_to (Folium.Marker (lat0, lon0) "Start" "green") m in
  lat1 ← iloc_last (Df.latitude df);
  lon1 ← iloc_last (Df.longitude df);
  _ ← Folium.check_Marker (lat1, lon1) "End" "red";
  let m := Folium.add_to (Folium.Marker (lat1, lon1) "End" "red") m in
  mret m.

(** *** [main]: the figures the dashboard shows *)

(** Section 1 (lines 87-92): total duration in hours, total distance,
    average speed. *)
Definition journey_overview (df : Df.t) : float * float * float :=
  ((Pd.max (Df.duration_minutes df) / 60)%float,
   Pd.max (Df.cumulative_distance df),
   Pd.mean (Df.speed_kmh df)).

(** Lines 106-108 *)
Definition speed_std (df : Df.t) : float := Pd.std (Df.speed_kmh df).

Definition high_speed_segments (df : Df.t) : Df.t :=
  Df.filter (Pd.gt (Df.speed_kmh df) (Pd.mean (Df.speed_kmh df) + speed_std df)%float) df.

Definition low_speed_segments (df : Df.t) : Df.t :=
  Df.filter (Pd.lt (Df.speed_kmh df) (Pd.mean (Df.speed_kmh df) - speed_std df)%float) df.

(** Lines 110-114: the standard deviation and the two counts. *)
Definition speed_pattern_analysis (df : Df.t) : float * nat * nat :=
  (speed_std df, Df.len (high_speed_segments df), Df.len (low_speed_segments df)).

(** Lines 121-127: does any row fall in the morning or evening rush? *)
Definition morning_rush (df : Df.t) : Df.t :=
  Df.filter (map (fun h => (7 <=? h) && (h <=? 9)) (Df.hour df)) df.
Definition evening_rush (df : Df.t) : Df.t :=
  Df.filter (map (fun h => (16 <=? h) && (h <=? 18)) (Df.hour df)) df.
Definition time_efficiency_analysis (df : Df.t) : bool * bool :=
  ((0 <? Df.len (morning_rush df))%nat, (0 <? Df.len (evening_rush df))%nat).

(** Lines 135-144: the efficiency score and whether the advice to take a
    more direct route is shown. *)
Definition route_efficiency_analysis (df : Df.t) : Py.result (float * bool) :=
  lat0 ← Py.index (Df.latitude df) 0;
  lon0 ← Py.index (Df.longitude df) 0;
  lat1 ← iloc_last (Df.latitude df);
  lon1 ← iloc_last (Df.longitude df);
  straight_line_distance ← geodesic_km (lat0, lon0) (lat1, lon1);
  let route_efficiency :=
    (straight_line_distance / Pd.max (Df.cumulative_distance df))%float in
  mret (route_efficiency, (route_efficiency <? 0.8)%float).

(** Lines 148-149 *)
Definition environmental_impact (df : Df.t) : float * float :=
  let fuel_consumption := (Pd.max (Df.cumulative_distance df) * 0.08)%float in
  let co2_emissions := (fuel_consumption * 2.31)%float in
  (fuel_consumption, co2_emissions).

(** Everything [main] computes from the table, in the order of the source:
    the overview (lines 87-92), the map (line 96), the speed pattern (lines
    106-114), the rush hours (lines 121-127), the route efficiency (lines
    135-144) and the environmental impact (lines 148-149). The Streamlit and
    plotly calls between them put these values on the page and are not
    modelled. *)
Record Summary : Type := mkSummary {
  overview : float * float * float;
  route_map : Folium.Map;
  speed_pattern : float * nat * nat;
  rush_hours : bool * bool;
  efficiency : float * bool;
  environment : float * float
}.

Definition summarize (df : Df.t) : Py.result Summary :=
  let o := journey_overview df in
  m ← create_map df;
  let s := speed_pattern_analysis df in
  let r := time_efficiency_analysis df in
  e ← route_efficiency_analysis df;
  mret (mkSummary o m s r e (environmental_impact df)).

Definition main (data_text : string) : Py.result Summary :=
  df ← load_and_process_data data_text;
  summarize df.

End Journey.


(** ** The program as imperative code

    The same function, statement by statement, over a heap of Python
    objects: [cleaned_data] is a list object that [append] grows in place,
    [df] is a frame object whose columns are added and assigned in place, and
    the function returns a reference to the frame. The heap the function
    starts from holds whatever earlier calls have left. *)

Module Imp.

Inductive column : Type :=
| FloatCol (xs : list float)
| IntCol (xs : list Z)
| TimeCol (xs : list Datetime.datetime)
| DateCol (xs : list (Z * Z * Z))
| StrCol (xs : list string).

Inductive obj : Type :=
| PyList (items : list Rec.t)
| PyFrame (index : list nat) (columns : gmap string column).

Abbreviation heap := (gmap nat obj).

(** A statement: it may read and change the heap, and returns or raises. *)
Definition M (A : Type) : Type := heap -> Py.result A * heap.

Definition ret {A} (a : A) : M A := fun h => (Py.Ok a, h).
Definition bind {A B} (m : M A) (k : A -> M B) : M B := fun h =>
  match m h with
  | (Py.Ok a, h') => k a h'
  | (Py.Raise e, h') => (Py.Raise e, h')
  end.
Definition lift {A} (r : Py.result A) : M A := fun h => (r, h).

(** A new object, at an address the heap does not use. *)
Definition alloc (o : obj) : M nat := fun h =>
  let l := fresh (dom h) in (Py.Ok l, <[l := o]> h).

Definition read (l : nat) : M obj := fun h =>
  (Py.of_option Py.TypeError (h !! l), h).

Definition write (l : nat) (o : obj) : M unit := fun h => (Py.Ok tt, <[l := o]> h).

(** [for x in xs: body] *)
Fixpoint for_ {A} (xs : list A) (body : A -> M unit) : M unit :=
  match xs with
  | [] => ret tt
  | x :: rest => bind (body x) (fun _ => for_ rest body)
  end.

(** [l.append(x)] *)
Definition append (l : nat) (x : Rec.t) : M unit :=
  bind (read l) (fun o =>
  match o with
  | PyList items => write l (PyList (items ++ [x]))
  | _ => lift (Py.Raise Py.TypeError)
  end).

(** [pd.DataFrame(l)] for a list of dicts with the seven keys of the
    program: a new frame with one column per key and the rows numbered from
    0; the list is copied, not shared. *)
Definition DataFrame (l : nat) : M nat :=
  bind (read l) (fun o =>
  match o with
  | PyList items =>
      alloc (PyFrame (seq 0 (length items))
        (<["timestamp" := TimeCol (map Rec.timestamp items)]>
        (<["latitude" := FloatCol (map Rec.latitude items)]>
        (<["longitude" := FloatCol (map Rec.longitude items)]>
        (<["date" := DateCol (map Rec.date items)]>
        (<["time" := StrCol (map Rec.time items)]>
        (<["hour" := IntCol (map Rec.hour items)]>
        (<["minute" := IntCol (map Rec.minute items)]> ∅))))))))
  | _ => lift (Py.Raise Py.TypeError)
  end).

(** [len(df)] *)
Definition len (df : nat) : M nat :=
  bind (read df) (fun o =>
  match o with
  | PyFrame index _ => ret (length index)
  | _ => lift (Py.Raise Py.TypeError)
  end).

(** [df[name]] *)
Definition getitem (df : nat) (name : string) : M column :=
  bind (read df) (fun o =>
  match o with
  | PyFrame _ columns => lift (Py.of_option Py.KeyError (columns !! name))
  | _ => lift (Py.Raise Py.TypeError)
  end).

Definition floats (c : column) : M (list float) :=
  match c with FloatCol xs => ret xs | _ => lift (Py.Raise Py.TypeError) end.
Definition times (c : column) : M (list Datetime.datetime) :=
  match c with TimeCol xs => ret xs | _ => lift (Py.Raise Py.TypeError) end.

(** [df[name] = col] *)
Definition setitem (df : nat) (name : string) (c : column) : M unit :=
  bind (read df) (fun o =>
  match o with
  | PyFrame index columns => write df (PyFrame index (<[name := c]> columns))
  | _ => lift (Py.Raise Py.TypeError)
  end).

(** The position of a row label in the index. *)
Fixpoint position (label : nat) (index : list nat) : option nat :=
  match index with
  | [] => None
  | l :: rest => if (l =? label)%nat then Some 0%nat else S <$> position label rest
  end.

(** [df.loc[df.index[i], name] = v] on a float column: the label of row [i]
    is looked up (IndexError past the end) and the entry with that label is
    assigned. *)
Definition loc_set (df : nat) (i : nat) (name : string) (v : float) : M unit :=
  bind (read df) (fun o =>
  match o with
  | PyFrame index columns =>
      bind (lift (Py.index index i)) (fun label =>
      bind (lift (Py.of_option Py.KeyError (position label index))) (fun pos =>
      bind (lift (Py.of_option Py.KeyError (columns !! name))) (fun c =>
      bind (floats c) (fun xs =>
      write df (PyFrame index (<[name := FloatCol (<[pos := v]> xs)]> columns))))))
  | _ => lift (Py.Raise Py.TypeError)
  end).

Section Program.
Context {L : Libraries}.

(** The body of the parsing loop (lines 17-31). *)
Definition parse_step (cleaned_data : nat) (line : string) : M unit :=
  bind (lift (parse_line line)) (fun record =>
  append cleaned_data record).

(** The body of the distance loop (lines 41-43). *)
Definition distance_step (df : nat) (i : nat) : M unit :=
  bind (bind (getitem df "latitude") floats) (fun lat =>
  bind (bind (getitem df "longitude") floats) (fun lon =>
  bind (lift (Py.index lat (i - 1))) (fun lat1 =>
  bind (lift (Py.index lon (i - 1))) (fun lon1 =>
  bind (lift (Py.index lat i)) (fun lat2 =>
  bind (lift (Py.index lon i)) (fun lon2 =>
  bind (lift (geodesic_km (lat1, lon1) (lat2, lon2))) (fun d =>
  loc_set df i "distance_km" d))))))).

(** Lines 11-48, one statement per line of the source. *)
Definition load_and_process_data (data_text : string) : M nat :=
  let lines := Py.split Py.LF (Py.strip data_text) in
  bind (alloc (PyList [])) (fun cleaned_data =>
  bind (for_ lines (parse_step cleaned_data)) (fun _ =>
  bind (DataFrame cleaned_data) (fun df =>
  bind (bind (getitem df "timestamp") times) (fun ts =>
  bind (lift (duration_column ts)) (fun duration =>
  bind (setitem df "duration_minutes" (FloatCol duration)) (fun _ =>
  bind (len df) (fun n =>
  bind (setitem df "distance_km" (FloatCol (replicate n 0%float))) (fun _ =>
  bind (for_ (seq 1 (n - 1)) (distance_step df)) (fun _ =>
  bind (bind (getitem df "distance_km") floats) (fun distance =>
  bind (setitem df "cumulative_distance" (FloatCol (Pd.cumsum distance))) (fun _ =>
  bind (bind (getitem df "distance_km") floats) (fun distance' =>
  bind (setitem df "speed_kmh" (FloatCol (speed_column distance'))) (fun _ =>
  ret df))))))))))))).

End Program.

(** The frame object that holds a finished table. *)
Definition frame_of (t : Df.t) : obj :=
  PyFrame (Df.index t)
    (<["speed_kmh" := FloatCol (Df.speed_kmh t)]>
    (<["cumulative_distance" := FloatCol (Df.cumulative_distance t)]>
    (<["distance_km" := FloatCol (Df.distance_km t)]>
    (<["duration_minutes" := FloatCol (Df.duration_minutes t)]>
    (<["timestamp" := TimeCol (Df.timestamp t)]>
    (<["latitude" := FloatCol (Df.latitude t)]>
    (<["longitude" := FloatCol (Df.longitude t)]>
    (<["date" := DateCol (Df.date t)]>
    (<["time" := StrCol (Df.time t)]>
    (<["hour" := IntCol (Df.hour t)]>
    (<["minute" := IntCol (Df.minute t)]> ∅))))))))))).

(** The table a frame object holds: its eleven columns, read by name. *)
Definition column_of (columns : gmap string column) (name : string) : Py.result column :=
  Py.of_option Py.KeyError (columns !! name).
Definition as_floats (c : column) : Py.result (list float) :=
  match c with FloatCol xs => Py.Ok xs | _ => Py.Raise Py.TypeError end.
Definition as_ints (c : column) : Py.result (list Z) :=
  match c with IntCol xs => Py.Ok xs | _ => Py.Raise Py.TypeError end.
Definition as_times (c : column) : Py.result (list Datetime.datetime) :=
  match c with TimeCol xs => Py.Ok xs | _ => Py.Raise Py.TypeError end.
Definition as_dates (c : column) : Py.result (list (Z * Z * Z)) :=
  match c with DateCol xs => Py.Ok xs | _ => Py.Raise Py.TypeError end.
Definition as_strs (c : column) : Py.result (list string) :=
  match c with StrCol xs => Py.Ok xs | _ => Py.Raise Py.TypeError end.

Definition table_of (o : obj) : Py.result Df.t :=
  match o with
  | PyFrame index columns =>
      timestamp ← column_of columns "timestamp" ≫= as_times;
      latitude ← column_of columns "latitude" ≫= as_floats;
      longitude ← column_of columns "longitude" ≫= as_floats;
      date ← column_of columns "date" ≫= as_dates;
      time ← column_of columns "time" ≫= as_strs;
      hour ← column_of columns "hour" ≫= as_ints;
      minute ← column_of columns "minute" ≫= as_ints;
      duration_minutes ← column_of columns "duration_minutes" ≫= as_floats;
      distance_km ← column_of columns "distance_km" ≫= as_floats;
      cumulative_distance ← column_of columns "cumulative_distance" ≫= as_floats;
      speed_kmh ← column_of columns "speed_kmh" ≫= as_floats;
      mret (Df.mk index timestamp latitude longitude date time hour minute
              duration_minutes distance_km cumulative_distance speed_kmh)
  | _ => Py.Raise Py.TypeError
  end.

(** [main]: the table is loaded, then read for the summaries. *)
Definition main {L : Libraries} {F : Folium.Library} (data_text : string) : M Summary :=
  bind (load_and_process_data data_text) (fun df =>
  bind (read df) (fun o =>
  lift (table_of o ≫= summarize))).

(** What a call hands back: the object behind the returned reference, or
    the exception. *)
Definition returned (r : Py.result nat * heap) : Py.result obj :=
  match r with
  | (Py.Ok l, h) => Py.of_option Py.TypeError (h !! l)
  | (Py.Raise e, _) => Py.Raise e
  end.

End Imp.

(** ** An executable instance of the libraries

    CPython's parsers as modelled above; numpy's sum as the plain
    left-to-right loop it runs on a short array; and, for geopy, a stand-in
    that keeps geopy's checks on the points and its answer 0 for a point and
    itself, and otherwise measures on a flat map (111.195 km per degree). It
    is there to run the model, not to approximate the ellipsoid. *)

Definition valid_point (p : coords) : bool :=
  PrimFloat.is_finite (fst p) && PrimFloat.is_finite (snd p)
  && (PrimFloat.abs (fst p) <=? 90)%float.

Definition same_point (p q : coords) : bool :=
  PrimFloat.Leibniz.eqb (fst p) (fst q) && PrimFloat.Leibniz.eqb (snd p) (snd q).

Definition flat_geodesic (p q : coords) : Py.result float :=
  if valid_point p && valid_point q then
    if same_point p q then Py.Ok 0%float
    else
      let dlat := (fst q - fst p)%float in
      let dlon := (snd q - snd p)%float in
      let d := (111.195 * PrimFloat.sqrt (dlat * dlat + dlon * dlon))%float in
      if (0 <=? d)%float then Py.Ok d else Py.Raise Py.ValueError
  else Py.Raise Py.ValueError.

Definition seq_sum (xs : list float) : float :=
  match xs with
  | [] => 0%float
  | x :: rest => fold_left PrimFloat.add rest x
  end.

Definition python : Libraries := {|
  strptime := Datetime.strptime;
  py_float := PyFloat.parse;
  geodesic_km := flat_geodesic;
  np_sum := seq_sum
|}.

(** The same libraries with a geopy that refuses every pair of points. *)
Definition no_geopy : Libraries := {|
  strptime := Datetime.strptime;
  py_float := PyFloat.parse;
  geodesic_km := fun _ _ => Py.Raise Py.ValueError;
  np_sum := seq_sum
|}.

(** A stand-in for folium: a location with a NaN in it is refused with
    ValueError, and so is a line without points; a new map carries the
    default tile layer. *)
Definition has_nan (p : coords) : bool := PrimFloat.is_nan (fst p) || PrimFloat.is_nan (snd p).

Definition refuse_nan : Folium.Library := {|
  Folium.new_Map := fun p zoom =>
    if has_nan p then Py.Raise Py.ValueError
    else Py.Ok (Folium.mkMap p zoom [Folium.TileLayer "OpenStreetMap"]);
  Folium.check_PolyLine := fun ps _ _ _ =>
    if existsb has_nan ps || (length ps =? 0)%nat then Py.Raise Py.ValueError else Py.Ok tt;
  Folium.check_Marker := fun p _ _ => if has_nan p then Py.Raise Py.ValueError else Py.Ok tt
|}.


(** Sample inputs: a record line, and two texts joined by a newline. *)
Definition record_line (label ts lat lon : string) : string :=
  (label ++ String Py.TAB ts ++ String Py.TAB lat ++ String Py.TAB lon)%string.
Definition newline (a b : string) : string := (a ++ String Py.LF b)%string.

(** The line the source shows in [main]. *)
Definition austin : string :=
  record_line "0_Austin_Los Angeles" "2024-07-09 04:27:31.270921" "30.267115" "-97.743072".

(** One sample at a latitude geopy refuses. *)
Definition north_of_the_pole : string :=
  record_line "j" "2024-07-09 04:27:31.270921" "91.0" "-97.743072".

(** Three samples ten minutes apart. *)
Definition three_samples : string :=
  newline (record_line "j" "2024-07-09 04:00:00.000000" "30.0" "-97.0")
 (newline (record_line "j" "2024-07-09 04:10:00.000000" "30.1" "-97.0")
          (record_line "j" "2024-07-09 04:20:00.000000" "30.1" "-97.1")).

(** A commute there and back, in the morning rush. *)
Definition there_and_back : string :=
  newline (record_line "j" "2024-07-09 08:00:00.000000" "30.0" "-97.0")
 (newline (record_line "j" "2024-07-09 08:10:00.000000" "30.1" "-97.0")
          (record_line "j" "2024-07-09 08:20:00.000000" "30.0" "-97.0")).

(** ** Notions of the specification

    The specification speaks of a stamp in "the exact format
    YYYY-MM-DD HH:MM:SS.ffffff" and of "non-empty input lines". These two
    definitions follow its words, not the code. *)

(** [s] has the given layout, where [d] stands for any digit and every other
    character for itself. *)
Fixpoint has_layout (layout s : string) : bool :=
  match layout, s with
  | EmptyString, EmptyString => true
  | String l layout', String c s' =>
      (if Ascii.eqb l "d" then Datetime.is_digit c else Ascii.eqb l c)
      && has_layout layout' s'
  | _, _ => false
  end.


(** A line with nothing but whitespace on it. *)
Fixpoint blank (s : string) : bool :=
  match s with
  | EmptyString => true
  | String c rest => Py.isspace c && blank rest
  end.

(** The lines of the raw input that are not blank. *)
Definition nonblank_lines (data_text : string) : list string :=
  List.filter (fun l => negb (blank l)) (Py.split Py.LF data_text).

(** The specification also speaks of "non-decreasing" sequences and of
    samples "ordered non-decreasing by timestamp": each entry is at most the
    next one, for the order [<=] of floats and for the order of stamps on
    the timeline. *)
Fixpoint sorted_by {A} (le : A -> A -> bool) (xs : list A) : bool :=
  match xs with
  | a :: (b :: _) as rest => le a b && sorted_by le rest
  | _ => true
  end.

Definition nondecreasing (xs : list float) : bool := sorted_by PrimFloat.leb xs.

Definition ordered_by_timestamp (ts : list Datetime.datetime) : bool :=
  sorted_by (fun s t => Datetime.to_micros s <=? Datetime.to_micros t) ts.

(** A table is rectangular when every column has as many entries as there
    are row labels, as every pandas frame does. *)
Definition rectangular (df : Df.t) : bool :=
  let n := Df.len df in
  (length (Df.timestamp df) =? n)%nat && (length (Df.latitude df) =? n)%nat
  && (length (Df.longitude df) =? n)%nat && (length (Df.date df) =? n)%nat
  && (length (Df.time df) =? n)%nat && (length (Df.hour df) =? n)%nat
  && (length (Df.minute df) =? n)%nat && (length (Df.duration_minutes df) =? n)%nat
  && (length (Df.distance_km df) =? n)%nat
  && (length (Df.cumulative_distance df) =? n)%nat
  && (length (Df.speed_kmh df) =? n)%nat.

(** Fields joined by tabs, and a field without a tab in it. *)
Fixpoint tab_join (fields : list string) : string :=
  match fields with
  | [] => EmptyString
  | [f] => f
  | f :: rest => (f ++ String Py.TAB (tab_join rest))%string
  end.

Fixpoint tab_free (s : string) : bool :=
  match s with
  | EmptyString => true
  | String c rest => negb (Ascii.eqb c Py.TAB) && tab_free rest
  end.

(** * Properties *)

(** ** Results and loops *)

Lemma bind_Ok_inv {A B} (m : Py.result A) (k : A -> Py.result B) (b : B) :
  m ≫= k = Py.Ok b -> exists a, m = Py.Ok a /\ k a = Py.Ok b.
Proof.
  destruct m as [a|e]; cbn; [eauto | discriminate].
Qed.

Lemma for_each_Ok {A B} (f : A -> Py.result B) (xs : list A) (ys : list B) :
  Py.for_each f xs = Py.Ok ys -> Forall2 (fun x y => f x = Py.Ok y) xs ys.
Proof.
  revert ys; induction xs as [|x xs IH]; intros ys H; cbn in H.
  - injection H as <-. constructor.
  - destruct (f x) as [y|e] eqn:Hx; cbn in H; [|discriminate].
    destruct (Py.for_each f xs) as [ys'|e] eqn:Hxs; cbn in H; [|discriminate].
    injection H as <-. constructor; auto.
Qed.




Lemma split_not_nil (sep : ascii) (s : string) : Py.split sep s <> [].
Proof.
  destruct s as [|c s]; cbn; [discriminate|].
  destruct (Ascii.eqb c sep); [discriminate|].
  destruct (Py.split sep s); discriminate.
Qed.

(** ** The shape of a loaded table *)

Section Facts.
Context {L : Libraries}.

(** A successful call went through its four stages. *)
Lemma load_inv (data_text : string) (df : Df.t) :
  load_and_process_data data_text = Py.Ok df ->
  exists rows dur dist,
    parse_lines data_text = Py.Ok rows
    /\ duration_column (map Rec.timestamp rows) = Py.Ok dur
    /\ distance_column (combine (map Rec.latitude rows) (map Rec.longitude rows)) = Py.Ok dist
    /\ df = Df.mk (seq 0 (length rows)) (map Rec.timestamp rows)
              (map Rec.latitude rows) (map Rec.longitude rows)
              (map Rec.date rows) (map Rec.time rows)
              (map Rec.hour rows) (map Rec.minute rows)
              dur dist (Pd.cumsum dist) (speed_column dist).
Proof.
  unfold load_and_process_data. intros H.
  apply bind_Ok_inv in H as (rows & Hrows & H).
  apply bind_Ok_inv in H as (dur & Hdur & H).
  apply bind_Ok_inv in H as (dist & Hdist & H).
  injection H as <-. eauto 10.
Qed.

Lemma parse_lines_rows (data_text : string) (rows : list Rec.t) :
  parse_lines data_text = Py.Ok rows ->
  Forall2 (fun line row => parse_line line = Py.Ok row)
    (Py.split Py.LF (Py.strip data_text)) rows.
Proof. apply for_each_Ok. Qed.

Lemma parse_lines_not_nil (data_text : string) (rows : list Rec.t) :
  parse_lines data_text = Py.Ok rows -> rows <> [].
Proof.
  intros H%parse_lines_rows ->. apply Forall2_nil_inv_r in H.
  exact (split_not_nil _ _ H).
Qed.

Lemma segments_length (prev : coords) (rest : list coords) (ds : list float) :
  segments prev rest = Py.Ok ds -> length ds = length rest.
Proof.
  revert prev ds; induction rest as [|c rest IH]; intros prev ds H; cbn in H.
  - injection H as <-. reflexivity.
  - apply bind_Ok_inv in H as (d & _ & H).
    apply bind_Ok_inv in H as (ds' & Hds & H).
    injection H as <-. cbn. f_equal. eauto.
Qed.

Lemma distance_column_length (cs : list coords) (dist : list float) :
  distance_column cs = Py.Ok dist -> length dist = length cs.
Proof.
  destruct cs as [|c0 rest]; cbn; intros H.
  - injection H as <-. reflexivity.
  - apply bind_Ok_inv in H as (ds & Hds & H). injection H as <-.
    cbn. f_equal. eapply segments_length; eauto.
Qed.

(** Row 0 is never assigned by the loop: its distance stays 0.0. *)
Lemma distance_column_head (c0 : coords) (rest : list coords) (dist : list float) :
  distance_column (c0 :: rest) = Py.Ok dist -> exists ds, dist = 0%float :: ds.
Proof.
  cbn. intros H. apply bind_Ok_inv in H as (ds & _ & H). injection H as <-. eauto.
Qed.

Lemma duration_column_length (ts : list Datetime.datetime) (dur : list float) :
  duration_column ts = Py.Ok dur -> length dur = length ts.
Proof.
  unfold duration_column. intros H.
  apply bind_Ok_inv in H as (t0 & _ & H).
  destruct (forallb _ ts); [|discriminate].
  apply for_each_Ok in H. symmetry. eapply Forall2_length; eauto.
Qed.

Lemma duration_of_self (t : Datetime.datetime) : duration_of t t = Py.Ok 0%float.
Proof.
  unfold duration_of. rewrite Z.sub_diag. reflexivity.
Qed.

(** The first stamp is subtracted from itself: row 0 has 0.0 minutes. *)
Lemma duration_column_head (t0 : Datetime.datetime) (ts : list Datetime.datetime)
    (dur : list float) :
  duration_column (t0 :: ts) = Py.Ok dur -> exists ds, dur = 0%float :: ds.
Proof.
  unfold duration_column. change (Py.index (t0 :: ts) 0) with (Py.Ok t0).
  cbn [mbind result_bind Py.bind].
  destruct (forallb _ _); [|discriminate].
  cbn [Py.for_each]. rewrite duration_of_self. cbn [Py.bind].
  destruct (Py.for_each (duration_of t0) ts); [|discriminate].
  intros [= <-]. eauto.
Qed.

Lemma cumsum_from_length (acc : float) (xs : list float) :
  length (Pd.cumsum_from acc xs) = length xs.
Proof. revert acc; induction xs; intros; cbn; auto. Qed.

Lemma cumsum_length (xs : list float) : length (Pd.cumsum xs) = length xs.
Proof. destruct xs; cbn; [|rewrite cumsum_from_length]; reflexivity. Qed.

Lemma speed_column_length (xs : list float) : length (speed_column xs) = length xs.
Proof. apply length_map. Qed.

End Facts.

(** ** Binary64 facts needed below *)

Lemma SFcompare_refl (x : spec_float) :
  x <> S754_nan -> SFcompare x x = Some Eq.
Proof.
  destruct x as [[]|[]| |[] m e]; cbn; intros H; try congruence;
    rewrite Z.compare_refl; try rewrite Pos.compare_cont_refl; reflexivity.
Qed.

Lemma is_nan_Prim2SF (x : float) : PrimFloat.is_nan x = true <-> Prim2SF x = S754_nan.
Proof.
  unfold PrimFloat.is_nan. rewrite FloatAxioms.eqb_spec. unfold SFeqb.
  destruct (Prim2SF x) eqn:E.
  - rewrite SFcompare_refl by discriminate. cbn. split; discriminate.
  - rewrite SFcompare_refl by discriminate. cbn. split; discriminate.
  - cbn. tauto.
  - rewrite SFcompare_refl by discriminate. cbn. split; discriminate.
Qed.

Lemma is_nan_eq (x : float) : PrimFloat.is_nan x = true <-> x = PrimFloat.nan.
Proof.
  rewrite is_nan_Prim2SF. split.
  - intros H. apply Prim2SF_inj. rewrite H. reflexivity.
  - intros ->. reflexivity.
Qed.

(** A comparison that holds has no NaN on either side. *)
Lemma leb_not_nan (x y : float) :
  (x <=? y)%float = true -> PrimFloat.is_nan x = false /\ PrimFloat.is_nan y = false.
Proof.
  rewrite FloatAxioms.leb_spec. intros H.
  split; apply not_true_is_false; rewrite is_nan_Prim2SF; intros E; rewrite E in H;
    [|destruct (Prim2SF x) as [[]|[]| |[] ? ?]]; discriminate.
Qed.

Lemma ltb_nan_l (x : float) : (PrimFloat.nan <? x)%float = false.
Proof. rewrite FloatAxioms.ltb_spec. reflexivity. Qed.

Lemma ltb_nan_r (x : float) : (x <? PrimFloat.nan)%float = false.
Proof. rewrite FloatAxioms.ltb_spec. destruct (Prim2SF x) as [[]|[]| |[] ? ?]; reflexivity. Qed.

Lemma add_nan_r (x : float) : (x + PrimFloat.nan)%float = PrimFloat.nan.
Proof.
  apply Prim2SF_inj. rewrite FloatAxioms.add_spec.
  destruct (Prim2SF x) as [[]|[]| |[] ? ?]; reflexivity.
Qed.

Lemma sub_nan_r (x : float) : (x - PrimFloat.nan)%float = PrimFloat.nan.
Proof.
  apply Prim2SF_inj. rewrite FloatAxioms.sub_spec.
  destruct (Prim2SF x) as [[]|[]| |[] ? ?]; reflexivity.
Qed.

Lemma div_nan_r (x : float) : (x / PrimFloat.nan)%float = PrimFloat.nan.
Proof.
  apply Prim2SF_inj. rewrite FloatAxioms.div_spec.
  destruct (Prim2SF x) as [[]|[]| |[] ? ?]; reflexivity.
Qed.

(** Dividing by a zero of either sign never gives a finite number. *)
Lemma div_by_zero (x z : float) :
  (z =? 0)%float = true ->
  (x / z)%float = PrimFloat.nan \/ (x / z)%float = PrimFloat.infinity
  \/ (x / z)%float = PrimFloat.neg_infinity.
Proof.
  rewrite FloatAxioms.eqb_spec. intros Hz.
  assert (exists s, Prim2SF z = S754_zero s) as [s Es].
  { destruct (Prim2SF z) as [s|[]| |[] ? ?]; try discriminate. eauto. }
  assert (Prim2SF (x / z) = S754_nan \/ Prim2SF (x / z) = S754_infinity false
          \/ Prim2SF (x / z) = S754_infinity true) as H.
  { rewrite FloatAxioms.div_spec, Es. destruct (Prim2SF x) as [[]|[]| |[] ? ?], s; cbn; auto. }
  destruct H as [H|[H|H]]; [left|right; left|right; right];
    apply Prim2SF_inj; rewrite H; reflexivity.
Qed.

(** ** The derived columns *)

Section Columns.
Context {L : Libraries}.

(** C6. Every table the function returns has a first row, and in it the
    segment distance, the segment speed and the elapsed minutes are all
    0.0. *)
Theorem first_record_is_zero (data_text : string) (df : Df.t) :
  load_and_process_data data_text = Py.Ok df ->
  (1 <= Df.len df)%nat
  /\ Df.distance_km df !! 0%nat = Some 0%float
  /\ Df.speed_kmh df !! 0%nat = Some 0%float
  /\ Df.duration_minutes df !! 0%nat = Some 0%float.
Proof.
  intros H. destruct (load_inv _ _ H) as (rows & dur & dist & Hrows & Hdur & Hdist & ->).
  pose proof (parse_lines_not_nil _ _ Hrows) as Hne.
  destruct rows as [|r rows]; [congruence|]. cbn in Hdur, Hdist.
  apply distance_column_head in Hdist as [ds ->].
  apply duration_column_head in Hdur as [ms ->].
  unfold Df.len. cbn. repeat split; auto. lia.
Qed.

(** C2. The speed of every row is its segment distance divided by the fixed
    interval of 10 minutes in hours, [10/60]; the stamps play no part: two
    inputs with the same coordinates get the same speeds whatever their
    stamps are. *)
Theorem speed_uses_nominal_interval (data_text : string) (df : Df.t) :
  load_and_process_data data_text = Py.Ok df ->
  length (Df.speed_kmh df) = Df.len df
  /\ (forall (i : nat) (d : float),
        Df.distance_km df !! i = Some d ->
        Df.speed_kmh df !! i = Some (d / (10 / 60))%float)
  /\ (forall (other_text : string) (df' : Df.t),
        load_and_process_data other_text = Py.Ok df' ->
        Df.latitude df' = Df.latitude df ->
        Df.longitude df' = Df.longitude df ->
        Df.speed_kmh df' = Df.speed_kmh df).
Proof.
  intros H. destruct (load_inv _ _ H) as (rows & dur & dist & Hrows & Hdur & Hdist & ->).
  unfold Df.len. cbn. split; [|split].
  - rewrite speed_column_length, (distance_column_length _ _ Hdist).
    rewrite List.length_combine, !List.length_map, List.length_seq. lia.
  - intros i d Hd. unfold speed_column. rewrite list_lookup_fmap, Hd. reflexivity.
  - intros other df' H' Hlat Hlon.
    destruct (load_inv _ _ H') as (rows' & dur' & dist' & _ & _ & Hdist' & ->).
    cbn in *. rewrite Hlat, Hlon in Hdist'. congruence.
Qed.

(** Without NaN among the entries, pandas' running sum adds each entry to
    the previous total. *)
Lemma cumsum_from_step (acc : float) (xs : list float) (i : nat) (c s : float) :
  Forall (fun x => PrimFloat.is_nan x = false) xs ->
  (acc :: Pd.cumsum_from acc xs) !! i = Some c -> xs !! i = Some s ->
  Pd.cumsum_from acc xs !! i = Some (c + s)%float.
Proof.
  intros Hxs; revert acc i c; induction Hxs as [|x xs Hx _ IH]; intros acc i c Hc Hs.
  - destruct i; discriminate.
  - cbn in *. rewrite Hx in *. destruct i as [|i]; cbn in *.
    + congruence.
    + eauto.
Qed.

Lemma segments_Forall (P : float -> Prop) (prev : coords) (rest : list coords)
    (ds : list float) :
  (forall p q d, geodesic_km p q = Py.Ok d -> P d) ->
  segments prev rest = Py.Ok ds -> Forall P ds.
Proof.
  intros HP. revert prev ds; induction rest as [|c rest IH]; intros prev ds H; cbn in H.
  - injection H as <-. constructor.
  - apply bind_Ok_inv in H as (d & Hd & H).
    apply bind_Ok_inv in H as (ds' & Hds & H).
    injection H as <-. constructor; eauto.
Qed.

(** C3. When the geodesic distance is never NaN (geopy returns a finite
    number or raises), the cumulative distance is the left-to-right prefix
    sum of the segment distances: both columns start with 0.0, and each
    further entry is the previous total plus that row's segment distance. *)
Theorem cumulative_is_prefix_sum (data_text : string) (df : Df.t) :
  (forall p q d, geodesic_km p q = Py.Ok d -> PrimFloat.is_nan d = false) ->
  load_and_process_data data_text = Py.Ok df ->
  Df.distance_km df !! 0%nat = Some 0%float
  /\ Df.cumulative_distance df !! 0%nat = Some 0%float
  /\ length (Df.cumulative_distance df) = length (Df.distance_km df)
  /\ (forall (i : nat) (c s : float),
        Df.cumulative_distance df !! i = Some c ->
        Df.distance_km df !! S i = Some s ->
        Df.cumulative_distance df !! S i = Some (c + s)%float).
Proof.
  intros Hgeo H.
  destruct (load_inv _ _ H) as (rows & dur & dist & Hrows & Hdur & Hdist & ->).
  pose proof (parse_lines_not_nil _ _ Hrows) as Hne.
  destruct rows as [|r rows]; [congruence|]. cbn in Hdist.
  apply bind_Ok_inv in Hdist as (ds & Hds & [= <-]).
  cbn. repeat split; auto.
  - rewrite cumsum_from_length. reflexivity.
  - intros i c s Hc Hs. eapply cumsum_from_step; eauto.
    eapply segments_Forall; eauto.
Qed.

End Columns.

(** The stand-in distance is 0.0 or passed the test [0 <= d]. *)
Lemma flat_geodesic_nonneg (p q : coords) (d : float) :
  flat_geodesic p q = Py.Ok d -> (0 <=? d)%float = true.
Proof.
  unfold flat_geodesic.
  destruct (valid_point p && valid_point q); [|discriminate].
  destruct (same_point p q); [intros [= <-]; reflexivity|].
  destruct (0 <=? _)%float eqn:E; [|discriminate]. intros [= <-]. exact E.
Qed.

Lemma flat_geodesic_not_nan (p q : coords) (d : float) :
  flat_geodesic p q = Py.Ok d -> PrimFloat.is_nan d = false.
Proof. intros H%flat_geodesic_nonneg. apply (leb_not_nan _ _ H). Qed.

Lemma first_record_is_zero_witness :
  exists df, @load_and_process_data python austin = Py.Ok df
             /\ Df.speed_kmh df !! 0%nat = Some 0%float.
Proof.
  eexists. split; [vm_compute; reflexivity|].
  eapply (@first_record_is_zero python austin). vm_compute; reflexivity.
Defined.

Lemma speed_uses_nominal_interval_witness :
  exists df, @load_and_process_data python three_samples = Py.Ok df
             /\ length (Df.speed_kmh df) = 3%nat.
Proof.
  eexists. split; [vm_compute; reflexivity|].
  eapply (@speed_uses_nominal_interval python three_samples). vm_compute; reflexivity.
Defined.

Lemma cumulative_is_prefix_sum_witness :
  exists df, @load_and_process_data python three_samples = Py.Ok df
             /\ Df.cumulative_distance df !! 0%nat = Some 0%float.
Proof.
  eexists. split; [vm_compute; reflexivity|].
  eapply (@cumulative_is_prefix_sum python three_samples).
  - exact flat_geodesic_not_nan.
  - vm_compute; reflexivity.
Defined.

(** ** Speed-pattern analysis *)

(** Rows kept by a mask computed from a column, read by row label. *)
Lemma select_labels {A} (f : A -> bool) (xs : list A) (k j : nat) :
  In j (Pd.select (map f xs) (seq k (length xs)))
  <-> (k <= j)%nat /\ exists v, xs !! (j - k)%nat = Some v /\ f v = true.
Proof.
  revert k; induction xs as [|x xs IH]; intros k; cbn [map length seq Pd.select].
  - split; [intros []|]. intros (_ & v & Hv & _). destruct (j - k)%nat; discriminate.
  - assert (In j (Pd.select (map f xs) (seq (S k) (length xs)))
            <-> (S k <= j)%nat /\ exists v, (x :: xs) !! (j - k)%nat = Some v /\ f v = true) as IH'.
    { rewrite IH. split; intros (Hk & v & Hv & Hf); (split; [exact Hk|]); exists v; split; auto.
      - replace (j - k)%nat with (S (j - S k)) by lia. exact Hv.
      - replace (j - k)%nat with (S (j - S k)) in Hv by lia. exact Hv. }
    destruct (f x) eqn:Hx.
    + cbn [In]. rewrite IH'. split.
      * intros [<-|(Hk & v & Hv & Hf)].
        -- split; [lia|]. exists x. rewrite Nat.sub_diag. auto.
        -- split; [lia|]. eauto.
      * intros (Hk & v & Hv & Hf).
        destruct (Nat.eq_dec k j) as [->|Hne]; [left; reflexivity|right].
        split; [lia|]. eauto.
    + rewrite IH'. split.
      * intros (Hk & v & Hv & Hf). split; [lia|]. eauto.
      * intros (Hk & v & Hv & Hf). split; [|eauto].
        destruct (Nat.eq_dec k j) as [->|Hne]; [|lia].
        rewrite Nat.sub_diag in Hv. cbn in Hv. congruence.
Qed.

Lemma select_length {A B} (f : A -> bool) (xs : list A) (ys : list B) :
  length ys = length xs ->
  length (Pd.select (map f xs) ys) = length (List.filter f xs).
Proof.
  revert ys; induction xs as [|x xs IH]; intros [|y ys] Hlen; try discriminate; auto.
  cbn. destruct (f x); cbn; auto.
Qed.

Section SpeedPattern.
Context {L : Libraries}.

(** C8. A row is among the high-speed segments exactly when its speed is
    strictly above mean + std of the speed column, among the low-speed
    segments exactly when it is strictly below mean - std, and the two
    numbers reported are the numbers of such rows. *)
Theorem speed_pattern_classification (data_text : string) (df : Df.t) :
  load_and_process_data data_text = Py.Ok df ->
  let speeds := Df.speed_kmh df in
  let mean := Pd.mean speeds in
  let std := Pd.std speeds in
  (forall i : nat,
      In i (Df.index (high_speed_segments df))
      <-> exists v, speeds !! i = Some v /\ (mean + std <? v)%float = true)
  /\ (forall i : nat,
      In i (Df.index (low_speed_segments df))
      <-> exists v, speeds !! i = Some v /\ (v <? mean - std)%float = true)
  /\ speed_pattern_analysis df
     = (std,
        length (List.filter (fun v => (mean + std <? v)%float) speeds),
        length (List.filter (fun v => (v <? mean - std)%float) speeds)).
Proof.
  intros H. destruct (load_inv _ _ H) as (rows & dur & dist & Hrows & Hdur & Hdist & ->).
  assert (length (speed_column dist) = length rows) as Hlen.
  { rewrite speed_column_length, (distance_column_length _ _ Hdist).
    rewrite List.length_combine, !List.length_map. lia. }
  cbn zeta. unfold speed_pattern_analysis, high_speed_segments, low_speed_segments,
    speed_std, Df.len, Pd.gt, Pd.lt. cbn [Df.speed_kmh Df.index Df.filter].
  rewrite <- Hlen. split; [|split].
  - intros i. rewrite select_labels, Nat.sub_0_r. split; [intros (_ & Hv); exact Hv|].
    intros Hv. split; [lia|exact Hv].
  - intros i. rewrite select_labels, Nat.sub_0_r. split; [intros (_ & Hv); exact Hv|].
    intros Hv. split; [lia|exact Hv].
  - rewrite !select_length by apply List.length_seq. reflexivity.
Qed.

End SpeedPattern.

Lemma speed_pattern_classification_witness :
  exists df, @load_and_process_data python three_samples = Py.Ok df
             /\ @speed_pattern_analysis python df
                = (@Pd.std python (Df.speed_kmh df), 0%nat, 1%nat).
Proof.
  eexists. split; [vm_compute; reflexivity|].
  etransitivity; [eapply (@speed_pattern_classification python three_samples)|];
    vm_compute; reflexivity.
Defined.

(** ** Route efficiency *)

Lemma Forall_eq_replicate {A} (x : A) (l : list A) :
  Forall (fun y => y = x) l -> l = replicate (length l) x.
Proof. induction 1 as [|y l -> _ IH]; cbn; [|rewrite <- IH]; reflexivity. Qed.

Lemma combine_replicate {A B} (n : nat) (a : A) (b : B) :
  combine (replicate n a) (replicate n b) = replicate n (a, b).
Proof. induction n; cbn; [|rewrite IHn]; reflexivity. Qed.

Lemma cumsum_from_zeros (n : nat) :
  Pd.cumsum_from 0 (replicate n 0%float) = replicate n 0%float.
Proof.
  induction n as [|n IH]; [reflexivity|].
  cbn [replicate Pd.cumsum_from]. change (PrimFloat.is_nan 0) with false. cbn iota.
  change (0 + 0)%float with 0%float. rewrite IH. reflexivity.
Qed.

Lemma cumsum_zeros (n : nat) :
  Pd.cumsum (replicate (S n) 0%float) = replicate (S n) 0%float.
Proof.
  cbn [replicate Pd.cumsum]. change (PrimFloat.is_nan 0) with false. cbn iota.
  rewrite cumsum_from_zeros. reflexivity.
Qed.

Lemma max_zeros (n : nat) : Pd.max (replicate (S n) 0%float) = 0%float.
Proof.
  unfold Pd.max. cbn [replicate List.filter]. change (Pd.notna 0) with true. cbn iota.
  induction n as [|n IH]; [reflexivity|].
  cbn [replicate List.filter]. change (Pd.notna 0) with true. cbn iota.
  cbn [fold_left]. change (Pd.fmax 0 0) with 0%float. exact IH.
Qed.

Lemma last_replicate {A} (n : nat) (x : A) : last (replicate (S n) x) = Some x.
Proof. induction n as [|n IH]; [reflexivity|]. exact IH. Qed.

Lemma Ok_inj {A} (a b : A) : Py.Ok a = Py.Ok b -> a = b.
Proof. intros [= ->]. reflexivity. Qed.

Lemma last_is_Some {A} (xs : list A) : xs <> [] -> exists x, last xs = Some x.
Proof.
  induction xs as [|a [|b xs] IH]; intros H; [congruence|eauto|].
  destruct IH as [x Hx]; [discriminate|]. exists x. exact Hx.
Qed.

Lemma index_Ok {A} (xs : list A) (i : nat) (x : A) :
  Py.index xs i = Py.Ok x -> xs !! i = Some x.
Proof. unfold Py.index. destruct (xs !! i); cbn; [intros H; f_equal; exact (Ok_inj _ _ H)|discriminate]. Qed.

Lemma iloc_last_Ok {A} (xs : list A) (x : A) : iloc_last xs = Py.Ok x -> last xs = Some x.
Proof. unfold iloc_last. destruct (last xs); cbn; [intros H; f_equal; exact (Ok_inj _ _ H)|discriminate]. Qed.

Section RouteEfficiency.
Context {L : Libraries}.

(** On a loaded table [iloc[0]] and [iloc[-1]] find their rows. *)
Lemma loaded_ends (data_text : string) (df : Df.t) :
  load_and_process_data data_text = Py.Ok df ->
  exists lat0 lon0 lat1 lon1 : float,
    Py.index (Df.latitude df) 0 = Py.Ok lat0 /\ Py.index (Df.longitude df) 0 = Py.Ok lon0
    /\ iloc_last (Df.latitude df) = Py.Ok lat1 /\ iloc_last (Df.longitude df) = Py.Ok lon1.
Proof.
  intros H.
  destruct (load_inv _ _ H) as (rows & dur & dist & Hrows & Hdur & Hdist & ->).
  pose proof (parse_lines_not_nil _ _ Hrows) as Hne.
  destruct rows as [|r rows]; [congruence|]. cbn [Df.latitude Df.longitude map].
  destruct (last_is_Some (Rec.latitude r :: map Rec.latitude rows)) as [lat1 Hlat1];
    [discriminate|].
  destruct (last_is_Some (Rec.longitude r :: map Rec.longitude rows)) as [lon1 Hlon1];
    [discriminate|].
  exists (Rec.latitude r), (Rec.longitude r), lat1, lon1.
  unfold iloc_last. rewrite Hlat1, Hlon1. repeat split; reflexivity.
Qed.

Lemma segments_same_point (c : coords) (n : nat) :
  geodesic_km c c = Py.Ok 0%float ->
  segments c (replicate n c) = Py.Ok (replicate n 0%float).
Proof.
  intros Hc. induction n as [|n IH]; [reflexivity|].
  cbn [replicate segments]. rewrite Hc. cbn. rewrite IH. reflexivity.
Qed.

Lemma distance_same_point (c : coords) (n : nat) :
  geodesic_km c c = Py.Ok 0%float ->
  distance_column (replicate (S n) c) = Py.Ok (replicate (S n) 0%float).
Proof.
  intros Hc. cbn [replicate distance_column].
  rewrite (segments_same_point _ _ Hc). reflexivity.
Qed.

(** C1, as the code has it. When every sample has the same coordinates (a
    single sample included) and geopy gives 0 for that point and itself,
    the last cumulative distance is 0.0 and the route-efficiency block
    raises nothing: it divides 0.0 by 0.0, the score is NaN, and the advice
    on direct routes is not shown. Whatever the table, a zero total never
    yields a finite score: the quotient is NaN or an infinity. And on any
    loaded table with a zero total the block has two outcomes only: the
    geopy call on the first and the last record raises, and the block raises
    the same exception, or it returns a distance, and the block returns a
    score that is NaN or an infinity. *)
Theorem degenerate_route_divides_by_zero (data_text : string) (df : Df.t)
    (lat lon : float) :
  load_and_process_data data_text = Py.Ok df ->
  Forall (fun x => x = lat) (Df.latitude df) ->
  Forall (fun x => x = lon) (Df.longitude df) ->
  geodesic_km (lat, lon) (lat, lon) = Py.Ok 0%float ->
  last (Df.cumulative_distance df) = Some 0%float
  /\ route_efficiency_analysis df = Py.Ok (PrimFloat.nan, false)
  /\ (forall (any : Df.t) (score : float) (advice : bool),
        (Pd.max (Df.cumulative_distance any) =? 0)%float = true ->
        route_efficiency_analysis any = Py.Ok (score, advice) ->
        score = PrimFloat.nan \/ score = PrimFloat.infinity
        \/ score = PrimFloat.neg_infinity)
  /\ (forall (text : string) (any : Df.t),
        load_and_process_data text = Py.Ok any ->
        (Pd.max (Df.cumulative_distance any) =? 0)%float = true ->
        exists p q : coords,
          Df.latitude any !! 0%nat = Some (fst p) /\ Df.longitude any !! 0%nat = Some (snd p)
          /\ last (Df.latitude any) = Some (fst q) /\ last (Df.longitude any) = Some (snd q)
          /\ match geodesic_km p q with
             | Py.Raise e => route_efficiency_analysis any = Py.Raise e
             | Py.Ok d =>
                 exists score : float,
                   route_efficiency_analysis any = Py.Ok (score, (score <? 0.8)%float)
                   /\ (score = PrimFloat.nan \/ score = PrimFloat.infinity
                       \/ score = PrimFloat.neg_infinity)
             end).
Proof.
  intros H Hlat Hlon Hgeo.
  assert (forall (any : Df.t) (score : float) (advice : bool),
        (Pd.max (Df.cumulative_distance any) =? 0)%float = true ->
        route_efficiency_analysis any = Py.Ok (score, advice) ->
        score = PrimFloat.nan \/ score = PrimFloat.infinity
        \/ score = PrimFloat.neg_infinity) as Hscore.
  { intros any score advice Hzero Hany. unfold route_efficiency_analysis in Hany.
    apply bind_Ok_inv in Hany as (lat0 & _ & Hany).
    apply bind_Ok_inv in Hany as (lon0 & _ & Hany).
    apply bind_Ok_inv in Hany as (lat1 & _ & Hany).
    apply bind_Ok_inv in Hany as (lon1 & _ & Hany).
    apply bind_Ok_inv in Hany as (s & _ & Hany).
    injection Hany as <- _. apply div_by_zero, Hzero. }
  destruct (load_inv _ _ H) as (rows & dur & dist & Hrows & Hdur & Hdist & ->).
  pose proof (parse_lines_not_nil _ _ Hrows) as Hne.
  cbn [Df.latitude Df.longitude Df.cumulative_distance] in *.
  apply Forall_eq_replicate in Hlat, Hlon. rewrite !List.length_map in Hlat, Hlon.
  rewrite Hlat, Hlon, combine_replicate in Hdist.
  destruct rows as [|r rows]; [congruence|]. cbn [length] in *.
  rewrite (distance_same_point _ _ Hgeo) in Hdist.
  assert (dist = replicate (S (length rows)) 0%float) as -> by congruence.
  rewrite cumsum_zeros. split; [|split; [|split]].
  - apply last_replicate.
  - unfold route_efficiency_analysis, iloc_last.
    cbn [Df.latitude Df.longitude Df.cumulative_distance].
    rewrite max_zeros, Hlat, Hlon, !last_replicate.
    cbn. rewrite Hgeo. reflexivity.
  - exact Hscore.
  - intros text any Hany Hzero.
    destruct (loaded_ends _ _ Hany) as (lat0 & lon0 & lat1 & lon1 & H1 & H2 & H3 & H4).
    exists (lat0, lon0), (lat1, lon1). cbn [fst snd].
    split; [apply index_Ok, H1|]. split; [apply index_Ok, H2|].
    split; [apply iloc_last_Ok, H3|]. split; [apply iloc_last_Ok, H4|].
    pose proof (Hscore any) as Hs. unfold route_efficiency_analysis in *.
    rewrite H1, H2, H3, H4 in Hs |- *. cbn [mbind result_bind Py.bind] in Hs |- *.
    destruct (geodesic_km (lat0, lon0) (lat1, lon1)) as [d|e];
      cbn [mbind result_bind Py.bind] in Hs |- *.
    + eexists. split; [reflexivity|]. eapply Hs; [exact Hzero|reflexivity].
    + reflexivity.
Qed.

End RouteEfficiency.

(** C1 as stated fails on the line the source shows: the single sample has
    cumulative distance 0.0, and the block returns the score NaN. *)
Lemma single_sample_efficiency_is_nan :
  exists df, @load_and_process_data python austin = Py.Ok df
             /\ last (Df.cumulative_distance df) = Some 0%float
             /\ @route_efficiency_analysis python df = Py.Ok (PrimFloat.nan, false)
             /\ PrimFloat.is_finite PrimFloat.nan = false.
Proof. eexists. repeat split; vm_compute; reflexivity. Qed.

Lemma degenerate_route_divides_by_zero_witness :
  (exists df, @load_and_process_data python (newline austin austin) = Py.Ok df
              /\ @route_efficiency_analysis python df = Py.Ok (PrimFloat.nan, false))
  /\ (exists any, @load_and_process_data python north_of_the_pole = Py.Ok any
                  /\ last (Df.cumulative_distance any) = Some 0%float
                  /\ @route_efficiency_analysis python any = Py.Raise Py.ValueError).
Proof.
  eassert (@load_and_process_data python (newline austin austin) = Py.Ok _) as Hl
    by (vm_compute; reflexivity).
  eassert (@load_and_process_data python north_of_the_pole = Py.Ok _) as Hn
    by (vm_compute; reflexivity).
  destruct (@degenerate_route_divides_by_zero python (newline austin austin) _
              30.267115%float (-97.743072)%float Hl)
    as (_ & Hnan & _ & Herr).
  - repeat constructor.
  - repeat constructor.
  - vm_compute; reflexivity.
  - split; [eexists; split; [exact Hl|exact Hnan]|].
    eexists. split; [exact Hn|]. split; [vm_compute; reflexivity|].
    destruct (Herr _ _ Hn) as ([p1 p2] & [q1 q2] & H1 & H2 & H3 & H4 & Hrun);
      [vm_compute; reflexivity|].
    cbn [fst snd] in *.
    vm_compute in H1, H2, H3, H4.
    injection H1 as <-. injection H2 as <-. injection H3 as <-. injection H4 as <-.
    exact Hrun.
Defined.

(** ** Parsing *)

Section Parsing.
Context {L : Libraries}.








End Parsing.



(** *** Lines of the raw text and lines of the stripped text *)

(** What the first line and the other lines of a text contribute: whether
    the first line is blank, and how many of the others are not. *)
Definition line_profile (s : string) : bool * nat :=
  match Py.split Py.LF s with
  | first :: others => (blank first, length (List.filter (fun l => negb (blank l)) others))
  | [] => (true, 0%nat)
  end.

Definition profile_step (c : ascii) (p : bool * nat) : bool * nat :=
  if Ascii.eqb c Py.LF then (true, ((if fst p then 0 else 1) + snd p)%nat)
  else (Py.isspace c && fst p, snd p).

Definition profile_count (p : bool * nat) : nat := ((if fst p then 0 else 1) + snd p)%nat.

Lemma line_profile_cons (c : ascii) (s : string) :
  line_profile (String c s) = profile_step c (line_profile s).
Proof.
  unfold line_profile, profile_step. cbn [Py.split].
  pose proof (split_not_nil Py.LF s) as Hne.
  destruct (Ascii.eqb c Py.LF); destruct (Py.split Py.LF s) as [|first others];
    try congruence; cbn.
  - destruct (blank first); reflexivity.
  - reflexivity.
Qed.

Lemma nonblank_lines_profile (s : string) :
  length (nonblank_lines s) = profile_count (line_profile s).
Proof.
  unfold nonblank_lines, line_profile, profile_count.
  pose proof (split_not_nil Py.LF s) as Hne.
  destruct (Py.split Py.LF s) as [|first others]; [congruence|].
  cbn. destruct (blank first); reflexivity.
Qed.

Lemma LF_isspace (c : ascii) : Ascii.eqb c Py.LF = true -> Py.isspace c = true.
Proof. intros ->%Ascii.eqb_eq. reflexivity. Qed.

Lemma profile_count_space (c : ascii) (p : bool * nat) :
  Py.isspace c = true -> profile_count (profile_step c p) = profile_count p.
Proof.
  intros Hc. unfold profile_step, profile_count.
  destruct (Ascii.eqb c Py.LF); cbn; [reflexivity|]. rewrite Hc. reflexivity.
Qed.

Lemma nonblank_lines_lstrip (s : string) :
  length (nonblank_lines (Py.lstrip s)) = length (nonblank_lines s).
Proof.
  induction s as [|c s IH]; [reflexivity|]. cbn [Py.lstrip].
  destruct (Py.isspace c) eqn:Hc; [|reflexivity].
  rewrite IH, !nonblank_lines_profile, line_profile_cons, profile_count_space; auto.
Qed.

Lemma line_profile_rstrip (s : string) : line_profile (Py.rstrip s) = line_profile s.
Proof.
  induction s as [|c s IH]; [reflexivity|]. cbn [Py.rstrip].
  destruct (Py.rstrip s) as [|c' r] eqn:Hr.
  - rewrite line_profile_cons, <- IH. destruct (Py.isspace c) eqn:Hc.
    + unfold profile_step. destruct (Ascii.eqb c Py.LF); [reflexivity|].
      rewrite Hc. reflexivity.
    + rewrite line_profile_cons. reflexivity.
  - rewrite (line_profile_cons c s), (line_profile_cons c (String c' r)), IH.
    reflexivity.
Qed.

(** Stripping the text removes blank lines only. *)
Lemma nonblank_lines_strip (s : string) :
  length (nonblank_lines (Py.strip s)) = length (nonblank_lines s).
Proof.
  unfold Py.strip.
  rewrite nonblank_lines_profile, line_profile_rstrip, <- nonblank_lines_profile.
  apply nonblank_lines_lstrip.
Qed.

Lemma blank_split (sep : ascii) (s : string) :
  blank s = true -> Forall (fun f => blank f = true) (Py.split sep s).
Proof.
  induction s as [|c s IH]; cbn; [repeat constructor|].
  intros [Hc Hs]%andb_prop. specialize (IH Hs).
  destruct (Ascii.eqb c sep); [constructor; auto|].
  destruct (Py.split sep s) as [|f fs]; [repeat constructor; cbn; rewrite Hc; auto|].
  inversion IH; subst. constructor; auto. cbn. rewrite Hc. auto.
Qed.

Lemma filter_all {A} (f : A -> bool) (xs : list A) :
  Forall (fun x => f x = true) xs -> List.filter f xs = xs.
Proof. induction 1 as [|x xs Hx _ IH]; cbn; [|rewrite Hx, IH]; reflexivity. Qed.

Section Lines.
Context {L : Libraries}.

Lemma parse_line_Ok_fields (line : string) (row : Rec.t) :
  parse_line line = Py.Ok row ->
  exists ts, Py.split Py.TAB line !! 1%nat = Some ts /\ strptime ts <> None.
Proof.
  unfold parse_line, Py.index. intros H.
  destruct (Py.split Py.TAB line) as [|f0 [|f1 fs]]; try discriminate.
  exists f1. split; [reflexivity|]. cbn in H. destruct (strptime f1); [discriminate|].
  discriminate.
Qed.

Lemma parse_line_Ok_not_empty (line : string) (row : Rec.t) :
  parse_line line = Py.Ok row -> line <> EmptyString.
Proof. intros H ->. discriminate. Qed.

Lemma parse_line_Ok_not_blank (line : string) (row : Rec.t) :
  (forall s, blank s = true -> strptime s = None) ->
  parse_line line = Py.Ok row -> blank line = false.
Proof.
  intros Hblank H. destruct (parse_line_Ok_fields _ _ H) as (ts & Hts & Hok).
  apply not_true_is_false. intros Hb%(blank_split Py.TAB).
  rewrite Forall_lookup in Hb. apply Hok, Hblank. exact (Hb _ _ Hts).
Qed.

(** C5, as the code has it. The text is stripped of the whitespace around
    it and split on newlines; nothing is skipped after that. When the call
    succeeds, the table has exactly one row per line of the stripped text,
    in the same order: rows are numbered from 0, and row [i] holds the stamp
    and the coordinates parsed from line [i]; none of these lines is empty.
    When [strptime] rejects blank strings, as CPython's does, these lines
    are as many as the lines of the raw text that are not blank. *)
Theorem one_record_per_line (data_text : string) (df : Df.t) :
  load_and_process_data data_text = Py.Ok df ->
  let lines := Py.split Py.LF (Py.strip data_text) in
  Df.len df = length lines
  /\ Df.index df = seq 0 (length lines)
  /\ Forall (fun line => line <> EmptyString) lines
  /\ (forall (i : nat) (line : string),
        lines !! i = Some line ->
        exists row,
          parse_line line = Py.Ok row
          /\ Df.timestamp df !! i = Some (Rec.timestamp row)
          /\ Df.latitude df !! i = Some (Rec.latitude row)
          /\ Df.longitude df !! i = Some (Rec.longitude row))
  /\ ((forall s, blank s = true -> strptime s = None) ->
      Df.len df = length (nonblank_lines data_text)).
Proof.
  intros H. destruct (load_inv _ _ H) as (rows & dur & dist & Hrows & Hdur & Hdist & ->).
  pose proof (parse_lines_rows _ _ Hrows) as Hall. cbn zeta.
  pose proof (Forall2_length _ _ _ Hall) as Hlen.
  unfold Df.len. cbn [Df.index Df.timestamp Df.latitude Df.longitude].
  rewrite List.length_seq. repeat split.
  - auto.
  - rewrite Hlen. reflexivity.
  - apply Forall_lookup. intros i line Hi.
    destruct (Forall2_lookup_l _ _ _ _ _ Hall Hi) as (row & _ & Hrow).
    eapply parse_line_Ok_not_empty; eauto.
  - intros i line Hi.
    destruct (Forall2_lookup_l _ _ _ _ _ Hall Hi) as (row & Hrow & Hparse).
    exists row. rewrite !list_lookup_fmap, Hrow. auto.
  - intros Hblank. rewrite <- Hlen, <- nonblank_lines_strip. unfold nonblank_lines.
    rewrite filter_all; [reflexivity|].
    apply Forall_lookup. intros i line Hi.
    destruct (Forall2_lookup_l _ _ _ _ _ Hall Hi) as (row & _ & Hrow).
    rewrite (parse_line_Ok_not_blank _ _ Hblank Hrow). reflexivity.
Qed.

End Lines.

(** C5 as stated fails: both non-empty lines of this input are well-formed
    records, but the empty line between them is not skipped, and the call
    raises instead of returning two records. *)
Lemma interior_empty_line_is_not_skipped :
  let text := newline austin (newline EmptyString austin) in
  Py.split Py.LF text = [austin; EmptyString; austin]
  /\ Py.is_ok (@parse_line python austin) = true
  /\ @load_and_process_data python text = Py.Raise Py.IndexError.
Proof. repeat split; vm_compute; reflexivity. Qed.

(** CPython's [strptime] wants four digits first: it rejects blank strings. *)
Lemma isspace_not_digit (c : ascii) : Py.isspace c = true -> Datetime.is_digit c = false.
Proof.
  destruct c as [[] [] [] [] [] [] [] []]; vm_compute; congruence.
Qed.

Lemma then_nil {A B C} (f : A -> B -> C) (p : Datetime.matcher A)
    (q : Datetime.matcher B) (s : string) :
  p s = [] -> Datetime.then_ f p q s = [].
Proof. unfold Datetime.then_. intros ->. reflexivity. Qed.

Lemma strptime_rejects_blank (s : string) :
  blank s = true -> Datetime.strptime s = None.
Proof.
  destruct s as [|c s]; [reflexivity|]. cbn [blank].
  intros [Hc _]%andb_prop. apply isspace_not_digit in Hc.
  unfold Datetime.strptime, Datetime.re_format. rewrite then_nil; [reflexivity|].
  unfold Datetime.re_Y. apply then_nil. unfold Datetime.two_digits. apply then_nil.
  unfold Datetime.digit. rewrite Hc. reflexivity.
Qed.

Lemma one_record_per_line_witness :
  exists df, @load_and_process_data python
               (String Py.LF (newline three_samples "  ")) = Py.Ok df
             /\ Df.len df = length (nonblank_lines (String Py.LF (newline three_samples "  "))).
Proof.
  eexists. split; [vm_compute; reflexivity|].
  apply (@one_record_per_line python (String Py.LF (newline three_samples "  ")) _
           ltac:(vm_compute; reflexivity)).
  exact strptime_rejects_blank.
Defined.

(** ** The imperative code computes the same table *)

Lemma position_seq (k n i : nat) :
  (k <= i < k + n)%nat -> Imp.position i (seq k n) = Some (i - k)%nat.
Proof.
  revert k; induction n as [|n IH]; intros k Hi; [lia|]. cbn.
  destruct (Nat.eqb_spec k i) as [->|Hne]; [rewrite Nat.sub_diag; reflexivity|].
  rewrite IH by lia. cbn. f_equal. lia.
Qed.

Lemma lookup_combine {A B} (xs : list A) (ys : list B) (i : nat) (c : A * B) :
  combine xs ys !! i = Some c <-> xs !! i = Some (fst c) /\ ys !! i = Some (snd c).
Proof.
  revert ys i; induction xs as [|x xs IH]; intros [|y ys] [|i]; cbn;
    try (split; [discriminate|intros [? ?]; discriminate]).
  - destruct c as [a b]. cbn. split; [intros [= <- <-]; auto|intros [[= <-] [= <-]]; auto].
  - apply IH.
Qed.

Section Refinement.
Context {L : Libraries} {F : Folium.Library}.

Lemma read_insert (l : nat) (o : Imp.obj) (h : Imp.heap) :
  Imp.read l (<[l := o]> h) = (Py.Ok o, <[l := o]> h).
Proof. unfold Imp.read. rewrite lookup_insert_eq. reflexivity. Qed.

Lemma append_insert (l : nat) (items : list Rec.t) (x : Rec.t) (h : Imp.heap) :
  Imp.append l x (<[l := Imp.PyList items]> h)
  = (Py.Ok tt, <[l := Imp.PyList (items ++ [x])]> h).
Proof.
  unfold Imp.append, Imp.bind. rewrite read_insert. unfold Imp.write.
  rewrite insert_insert_eq. reflexivity.
Qed.

(** The parsing loop leaves in the list what [Py.for_each] returns. *)
Lemma parse_loop (l : nat) (h : Imp.heap) (lines : list string) (acc : list Rec.t) :
  exists acc',
    Imp.for_ lines (Imp.parse_step l) (<[l := Imp.PyList acc]> h)
    = (Py.map (fun _ => tt) (Py.for_each parse_line lines), <[l := Imp.PyList acc']> h)
    /\ forall rows, Py.for_each parse_line lines = Py.Ok rows -> acc' = acc ++ rows.
Proof.
  revert acc; induction lines as [|line lines IH]; intros acc.
  - exists acc. split; [reflexivity|]. intros rows [= <-]. rewrite app_nil_r. reflexivity.
  - cbn [Imp.for_ Py.for_each]. unfold Imp.parse_step at 1.
    unfold Imp.bind at 1 2. unfold Imp.lift at 1.
    destruct (parse_line line) as [row|e].
    + rewrite append_insert. destruct (IH (acc ++ [row])) as (acc' & -> & Hacc).
      exists acc'. split.
      * cbn. destruct (Py.for_each parse_line lines); reflexivity.
      * cbn. destruct (Py.for_each parse_line lines) as [rows'|]; cbn; [|discriminate].
        intros rows [= <-]. rewrite (Hacc rows' eq_refl), <- app_assoc. reflexivity.
    + exists acc. split; [reflexivity|]. discriminate.
Qed.

Lemma getitem_insert (df : nat) (index : list nat) (columns : gmap string Imp.column)
    (name : string) (h : Imp.heap) :
  Imp.getitem df name (<[df := Imp.PyFrame index columns]> h)
  = (Py.of_option Py.KeyError (columns !! name), <[df := Imp.PyFrame index columns]> h).
Proof. unfold Imp.getitem, Imp.bind. rewrite read_insert. reflexivity. Qed.

Lemma setitem_insert (df : nat) (index : list nat) (columns : gmap string Imp.column)
    (name : string) (c : Imp.column) (h : Imp.heap) :
  Imp.setitem df name c (<[df := Imp.PyFrame index columns]> h)
  = (Py.Ok tt, <[df := Imp.PyFrame index (<[name := c]> columns)]> h).
Proof.
  unfold Imp.setitem, Imp.bind. rewrite read_insert. unfold Imp.write.
  rewrite insert_insert_eq. reflexivity.
Qed.

Lemma len_insert (df : nat) (index : list nat) (columns : gmap string Imp.column)
    (h : Imp.heap) :
  Imp.len df (<[df := Imp.PyFrame index columns]> h)
  = (Py.Ok (length index), <[df := Imp.PyFrame index columns]> h).
Proof. unfold Imp.len, Imp.bind. rewrite read_insert. reflexivity. Qed.

Lemma loc_set_insert (df : nat) (n : nat) (columns : gmap string Imp.column)
    (i : nat) (name : string) (xs : list float) (v : float) (h : Imp.heap) :
  (i < n)%nat -> columns !! name = Some (Imp.FloatCol xs) ->
  Imp.loc_set df i name v (<[df := Imp.PyFrame (seq 0 n) columns]> h)
  = (Py.Ok tt,
     <[df := Imp.PyFrame (seq 0 n) (<[name := Imp.FloatCol (<[i := v]> xs)]> columns)]> h).
Proof.
  intros Hi Hcol. unfold Imp.loc_set. unfold Imp.bind at 1. rewrite read_insert.
  unfold Imp.bind, Imp.lift, Py.index. rewrite lookup_seq_lt by exact Hi.
  cbn [Py.of_option]. rewrite position_seq by lia. rewrite Hcol. cbn.
  unfold Imp.write. rewrite insert_insert_eq, Nat.sub_0_r. reflexivity.
Qed.

(** The distance loop, run from row [k] on, assigns what [segments] returns. *)
Lemma distance_loop (df n : nat) (others : gmap string Imp.column)
    (lat lon : list float) (h : Imp.heap) (m k : nat) (xs : list float) (prev : coords) :
  others !! "latitude" = Some (Imp.FloatCol lat) ->
  others !! "longitude" = Some (Imp.FloatCol lon) ->
  length lat = n -> length lon = n -> length xs = n ->
  (1 <= k)%nat -> (k + m = n)%nat ->
  combine lat lon !! (k - 1)%nat = Some prev ->
  exists xs',
    Imp.for_ (seq k m) (Imp.distance_step df)
      (<[df := Imp.PyFrame (seq 0 n) (<["distance_km" := Imp.FloatCol xs]> others)]> h)
    = (Py.map (fun _ => tt) (segments prev (drop k (combine lat lon))),
       <[df := Imp.PyFrame (seq 0 n) (<["distance_km" := Imp.FloatCol xs']> others)]> h)
    /\ forall ds, segments prev (drop k (combine lat lon)) = Py.Ok ds ->
                  xs' = take k xs ++ ds.
Proof.
  intros Hlat Hlon Hnlat Hnlon. revert k xs prev.
  induction m as [|m IH]; intros k xs prev Hnxs Hk Hkm Hprev.
  - exists xs. rewrite drop_ge by (rewrite List.length_combine; lia).
    split; [reflexivity|]. intros ds [= <-].
    rewrite take_ge by lia. rewrite app_nil_r. reflexivity.
  - assert (exists c, combine lat lon !! k = Some c) as [c Hc].
    { apply lookup_lt_is_Some. rewrite List.length_combine. lia. }
    rewrite (drop_S _ _ _ Hc). cbn [seq Imp.for_ segments].
    apply lookup_combine in Hc as [Hc1 Hc2], Hprev as [Hp1 Hp2].
    unfold Imp.bind at 1. unfold Imp.distance_step at 1.
    unfold Imp.bind at 1 2. rewrite getitem_insert.
    rewrite lookup_insert_ne by discriminate. rewrite Hlat. cbn [Py.of_option Imp.floats Imp.ret].
    unfold Imp.bind at 1 2. rewrite getitem_insert.
    rewrite lookup_insert_ne by discriminate. rewrite Hlon. cbn [Py.of_option Imp.floats Imp.ret].
    unfold Imp.bind at 1. unfold Imp.lift at 1. unfold Py.index at 1. rewrite Hp1.
    cbn [Py.of_option].
    unfold Imp.bind at 1. unfold Imp.lift at 1. unfold Py.index at 1. rewrite Hp2.
    cbn [Py.of_option].
    unfold Imp.bind at 1. unfold Imp.lift at 1. unfold Py.index at 1. rewrite Hc1.
    cbn [Py.of_option].
    unfold Imp.bind at 1. unfold Imp.lift at 1. unfold Py.index at 1. rewrite Hc2.
    cbn [Py.of_option].
    unfold Imp.bind at 1. unfold Imp.lift at 1.
    replace (fst prev, snd prev) with prev by (destruct prev; reflexivity).
    replace (fst c, snd c) with c by (destruct c; reflexivity).
    destruct (geodesic_km prev c) as [d|e].
    + rewrite (loc_set_insert _ _ _ _ _ xs) by
        (try lia; rewrite lookup_insert_eq; reflexivity).
      rewrite insert_insert_eq.
      destruct (IH (S k) (<[k := d]> xs) c) as (xs' & -> & Hxs').
      * rewrite length_insert. exact Hnxs.
      * lia.
      * lia.
      * replace (S k - 1)%nat with k by lia. apply lookup_combine. auto.
      * exists xs'. split.
        -- cbn. destruct (segments c (drop (S k) (combine lat lon))); reflexivity.
        -- cbn. destruct (segments c (drop (S k) (combine lat lon))) as [ds'|]; cbn;
             [|discriminate].
           intros ds [= <-]. rewrite (Hxs' ds' eq_refl).
           rewrite (take_S_r _ _ d) by (apply list_lookup_insert_eq; lia).
           rewrite take_insert_ge by lia. rewrite <- app_assoc. reflexivity.
    + exists xs. split; [reflexivity|]. discriminate.
Qed.

Lemma fresh_insert_subseteq (h : Imp.heap) (o : Imp.obj) : h ⊆ <[fresh (dom h) := o]> h.
Proof. apply insert_subseteq, not_elem_of_dom, is_fresh. Qed.

(** The imperative function, run from any heap [h]: it raises what the
    functional one raises, or returns a reference to a frame holding the
    table the functional one returns; the objects of [h] are still there,
    unchanged. *)
Lemma load_refines (data_text : string) (h : Imp.heap) :
  exists r h',
    Imp.load_and_process_data data_text h = (r, h') /\ h ⊆ h'
    /\ match load_and_process_data data_text with
       | Py.Ok t => exists df, r = Py.Ok df /\ h' !! df = Some (Imp.frame_of t)
       | Py.Raise e => r = Py.Raise e
       end.
Proof.
  destruct (Imp.load_and_process_data data_text h) as [r h'] eqn:Hrun.
  exists r, h'. split; [reflexivity|]. revert Hrun.
  unfold Imp.load_and_process_data, load_and_process_data, parse_lines.
  set (lines := Py.split Py.LF (Py.strip data_text)).
  set (l0 := fresh (dom h)).
  unfold Imp.bind at 1. unfold Imp.alloc at 1. fold l0.
  pose proof (fresh_insert_subseteq h) as Hsub0. fold l0 in Hsub0.
  destruct (parse_loop l0 h lines []) as (acc & Hloop & Hacc).
  unfold Imp.bind at 1. rewrite Hloop.
  destruct (Py.for_each parse_line lines) as [rows|e]; cbn [Py.map mbind result_bind Py.bind].
  2:{ intros [= <- <-]. split; [apply Hsub0|reflexivity]. }
  rewrite (Hacc rows eq_refl). cbn [app]. clear Hloop Hacc acc.
  set (h1 := <[l0 := Imp.PyList rows]> h).
  assert (h ⊆ h1) as Hsub1 by apply Hsub0.
  unfold Imp.bind at 1. unfold Imp.DataFrame at 1. unfold Imp.bind at 1.
  unfold h1 at 1. rewrite read_insert. fold h1.
  unfold Imp.alloc at 1. set (df := fresh (dom h1)).
  pose proof (fresh_insert_subseteq h1) as Hsub2. fold df in Hsub2.
  set (base := <["timestamp" := Imp.TimeCol (map Rec.timestamp rows)]> _).
  assert (forall o, h ⊆ <[df := o]> h1) as Hsub.
  { intros o. etransitivity; [exact Hsub1|apply Hsub2]. }
  unfold Imp.bind at 1 2. rewrite getitem_insert.
  unfold base at 1. rewrite lookup_insert_eq. cbn [Py.of_option Imp.times Imp.ret].
  unfold Imp.bind at 1. unfold Imp.lift at 1.
  destruct (duration_column (map Rec.timestamp rows)) as [dur|e] eqn:Hdur;
    cbn [mbind result_bind Py.bind].
  2:{ intros [= <- <-]. split; [apply Hsub|reflexivity]. }
  unfold Imp.bind at 1. rewrite setitem_insert.
  unfold Imp.bind at 1. rewrite len_insert, List.length_seq.
  unfold Imp.bind at 1. rewrite setitem_insert.
  set (others := <["duration_minutes" := Imp.FloatCol dur]> base).
  assert (rows <> []) as Hne.
  { intros ->. discriminate. }
  destruct rows as [|r0 rows]; [congruence|]. clear Hne.
  set (lat := map Rec.latitude (r0 :: rows)).
  set (lon := map Rec.longitude (r0 :: rows)).
  destruct (distance_loop df (length (r0 :: rows)) others lat lon h1
              (length (r0 :: rows) - 1) 1
              (replicate (length (r0 :: rows)) 0%float) (Rec.latitude r0, Rec.longitude r0))
    as (xs & Hloop & Hxs).
  { reflexivity. }
  { reflexivity. }
  { apply List.length_map. }
  { apply List.length_map. }
  { apply length_replicate. }
  { lia. }
  { cbn [length]. lia. }
  { reflexivity. }
  unfold Imp.bind at 1. rewrite Hloop. clear Hloop.
  change (drop 1 (combine lat lon))
    with (combine (map Rec.latitude rows) (map Rec.longitude rows)) in *.
  change (combine lat lon) with
    ((Rec.latitude r0, Rec.longitude r0)
       :: combine (map Rec.latitude rows) (map Rec.longitude rows)).
  cbn [distance_column].
  destruct (segments _ _) as [ds|e]; cbn [Py.map mbind result_bind Py.bind mret result_ret].
  2:{ intros [= <- <-]. split; [apply Hsub|reflexivity]. }
  rewrite (Hxs ds eq_refl). cbn [length replicate take app]. clear Hxs xs.
  unfold Imp.bind at 1 2. rewrite getitem_insert, lookup_insert_eq.
  cbn [Py.of_option Imp.floats Imp.ret].
  unfold Imp.bind at 1. rewrite setitem_insert.
  unfold Imp.bind at 1 2. rewrite getitem_insert.
  rewrite lookup_insert_ne by discriminate. rewrite lookup_insert_eq.
  cbn [Py.of_option Imp.floats Imp.ret].
  unfold Imp.bind at 1. rewrite setitem_insert. unfold Imp.ret.
  intros [= <- <-]. split; [apply Hsub|].
  exists df. split; [reflexivity|]. rewrite lookup_insert_eq. reflexivity.
Qed.

Lemma returned_load (data_text : string) (h : Imp.heap) :
  Imp.returned (Imp.load_and_process_data data_text h)
  = Py.map Imp.frame_of (load_and_process_data data_text).
Proof.
  destruct (load_refines data_text h) as (r & h' & -> & _ & H).
  destruct (load_and_process_data data_text) as [t|e].
  - destruct H as (df & -> & Hdf). cbn. rewrite Hdf. reflexivity.
  - subst r. reflexivity.
Qed.

Lemma table_of_frame_of (t : Df.t) : Imp.table_of (Imp.frame_of t) = Py.Ok t.
Proof. destruct t. reflexivity. Qed.

Lemma main_refines (data_text : string) (h : Imp.heap) :
  fst (Imp.main data_text h) = main data_text
  /\ snd (Imp.main data_text h) = snd (Imp.load_and_process_data data_text h).
Proof.
  destruct (load_refines data_text h) as (r & h' & Hrun & _ & H).
  unfold Imp.main, main, Imp.bind. rewrite !Hrun. cbn [snd].
  destruct (load_and_process_data data_text) as [t|e].
  - destruct H as (df & -> & Hdf). unfold Imp.read, Imp.lift.
    rewrite Hdf. cbn [Py.of_option fst snd]. rewrite table_of_frame_of. auto.
  - subst r. auto.
Qed.

(** C9. The call is a function of the text alone. Run from any two heaps,
    that is, after any earlier calls, it hands back the same table or raises
    the same exception, and [main] computes the same summary; what it hands
    back is what the functional reading computes from the text; and the
    objects that were in the heap before the call are still there unchanged
    after it: the call shares no state with other calls. *)
Theorem parse_then_derive_is_isolated (data_text : string) (h1 h2 : Imp.heap) :
  Imp.returned (Imp.load_and_process_data data_text h1)
  = Imp.returned (Imp.load_and_process_data data_text h2)
  /\ Imp.returned (Imp.load_and_process_data data_text h1)
     = Py.map Imp.frame_of (load_and_process_data data_text)
  /\ fst (Imp.main data_text h1) = fst (Imp.main data_text h2)
  /\ fst (Imp.main data_text h1) = main data_text
  /\ h1 ⊆ snd (Imp.load_and_process_data data_text h1)
  /\ h1 ⊆ snd (Imp.main data_text h1).
Proof.
  rewrite !returned_load.
  destruct (main_refines data_text h1) as [Hm1 Hs1].
  destruct (main_refines data_text h2) as [Hm2 _].
  rewrite Hm1, Hm2, Hs1.
  destruct (load_refines data_text h1) as (r & h' & -> & Hsub & _).
  repeat split; auto.
Qed.

End Refinement.

(** ** Binary64 operations keep the order of non-negative numbers *)

Module RndFacts.
Import Rnd.

Lemma dg_0 : dg 0 = 0.
Proof. reflexivity. Qed.

Lemma digits2_pos_bounds (p : positive) :
  2 ^ (Zpos (digits2_pos p) - 1) <= Zpos p < 2 ^ Zpos (digits2_pos p).
Proof.
  induction p as [p IH|p IH|]; cbn [digits2_pos].
  - rewrite Pos2Z.inj_succ, Z.pow_succ_r by lia.
    replace (Z.succ (Zpos (digits2_pos p)) - 1) with (Z.succ (Zpos (digits2_pos p) - 1)) by lia.
    rewrite Z.pow_succ_r by lia. lia.
  - rewrite Pos2Z.inj_succ, Z.pow_succ_r by lia.
    replace (Z.succ (Zpos (digits2_pos p)) - 1) with (Z.succ (Zpos (digits2_pos p) - 1)) by lia.
    rewrite Z.pow_succ_r by lia. lia.
  - cbn. lia.
Qed.

Lemma dg_bounds (m : Z) : 0 < m -> 1 <= dg m /\ 2 ^ (dg m - 1) <= m < 2 ^ dg m.
Proof.
  destruct m as [|p|p]; try lia. intros _. cbn [dg Zdigits2].
  split; [lia|apply digits2_pos_bounds].
Qed.

Lemma dg_nonneg (m : Z) : 0 <= dg m.
Proof. destruct m; cbn; lia. Qed.

Lemma pow2_lt_inv (a b : Z) : 0 <= a -> 0 <= b -> 2 ^ a < 2 ^ b -> a < b.
Proof.
  intros Ha Hb H. destruct (Z_lt_le_dec a b) as [|Hle]; [assumption|].
  pose proof (Z.pow_le_mono_r 2 b a ltac:(lia) Hle). lia.
Qed.

Lemma dg_unique (m d : Z) : 1 <= d -> 2 ^ (d - 1) <= m < 2 ^ d -> dg m = d.
Proof.
  intros Hd [Hlo Hhi].
  assert (0 < m) as Hm by (pose proof (Z.pow_pos_nonneg 2 (d - 1)); lia).
  destruct (dg_bounds m Hm) as (H1 & Hl & Hh).
  assert (dg m - 1 < d) by (apply pow2_lt_inv; lia).
  assert (d - 1 < dg m) by (apply pow2_lt_inv; lia).
  lia.
Qed.

Lemma dg_mono (a b : Z) : 0 <= a <= b -> dg a <= dg b.
Proof.
  intros [Ha Hab]. destruct (Z.eq_dec a 0) as [->|Hne]; [apply dg_nonneg|].
  destruct (dg_bounds a ltac:(lia)) as (H1 & Hl & Hh).
  destruct (dg_bounds b ltac:(lia)) as (H1' & Hl' & Hh').
  assert (dg a - 1 < dg b) by (apply pow2_lt_inv; lia). lia.
Qed.

Lemma dg_lt_pow (m d : Z) : 0 <= d -> 0 <= m < 2 ^ d -> dg m <= d.
Proof.
  intros Hd [Hm Hlt]. destruct (Z.eq_dec m 0) as [->|Hne]; [cbn; lia|].
  destruct (dg_bounds m ltac:(lia)) as (H1 & Hl & Hh).
  assert (dg m - 1 < d) by (apply pow2_lt_inv; lia). lia.
Qed.

Lemma dg_ge_pow (m d : Z) : 0 <= d -> 2 ^ d <= m -> d + 1 <= dg m.
Proof.
  intros Hd Hle.
  assert (0 < m) as Hm by (pose proof (Z.pow_pos_nonneg 2 d); lia).
  destruct (dg_bounds m Hm) as (H1 & Hl & Hh).
  assert (d < dg m) by (apply pow2_lt_inv; lia). lia.
Qed.

(** digits of a quotient by a power of two *)
Lemma dg_div_pow (m n : Z) : 0 <= m -> 0 <= n -> dg (m / 2 ^ n) = Z.max (dg m - n) 0.
Proof.
  intros Hm Hn.
  assert (0 < 2 ^ n) as Hp by (apply Z.pow_pos_nonneg; lia).
  destruct (Z_lt_le_dec m (2 ^ n)) as [Hlt|Hge].
  - rewrite Z.div_small by lia. cbn [dg Zdigits2].
    pose proof (dg_lt_pow m n Hn ltac:(lia)). lia.
  - destruct (dg_bounds m ltac:(lia)) as (H1 & Hl & Hh).
    pose proof (dg_ge_pow m n Hn Hge) as Hd.
    rewrite Z.max_l by lia. apply dg_unique; [lia|].
    split.
    + apply Z.div_le_lower_bound; [lia|].
      rewrite <- Z.pow_add_r by lia. replace (n + (dg m - n - 1)) with (dg m - 1) by lia. lia.
    + apply Z.div_lt_upper_bound; [lia|].
      rewrite <- Z.pow_add_r by lia. replace (n + (dg m - n)) with (dg m) by lia. lia.
Qed.

Lemma dg_mul_pow (m n : Z) : 0 < m -> 0 <= n -> dg (m * 2 ^ n) = dg m + n.
Proof.
  intros Hm Hn. destruct (dg_bounds m Hm) as (H1 & Hl & Hh).
  assert (0 < 2 ^ n) as Hp by (apply Z.pow_pos_nonneg; lia).
  apply dg_unique; [lia|]. split.
  - replace (dg m + n - 1) with ((dg m - 1) + n) by lia. rewrite Z.pow_add_r by lia.
    apply Z.mul_le_mono_nonneg_r; lia.
  - rewrite Z.pow_add_r by lia. apply Z.mul_lt_mono_pos_r; lia.
Qed.

Ltac zcases :=
  repeat match goal with
  | |- context [Z.eqb ?a ?b] => destruct (Z.eqb_spec a b)
  | |- context [Z.compare ?a ?b] => destruct (Z.compare_spec a b)
  end; cbn [negb andb orb]; try lia.

Lemma div_mod_eq (a b q r : Z) : 0 <= r < b -> a = b * q + r -> a / b = q /\ a mod b = r.
Proof.
  intros Hr Ha. split; symmetry.
  - apply Z.div_unique with (r := r); auto.
  - apply Z.mod_unique with (q := q); auto.
Qed.

Lemma sticky_enc (m c : Z) :
  0 <= c <= 3 -> sticky (4 * m + c) = 2 * m + (if c =? 0 then 0 else 1).
Proof.
  intros Hc. unfold sticky.
  assert ((4 * m + c) / 4 = m /\ (4 * m + c) mod 4 = c) as [-> ->].
  { apply div_mod_eq; lia. }
  reflexivity.
Qed.

Lemma sticky_nonneg (t : Z) : 0 <= t -> 0 <= sticky t.
Proof.
  intros Ht. unfold sticky. pose proof (Z.div_pos t 4 Ht ltac:(lia)).
  destruct (t mod 4 =? 0); lia.
Qed.

Lemma sticky_mono (t t' : Z) : t <= t' -> sticky t <= sticky t'.
Proof.
  intros Hle. unfold sticky.
  pose proof (Z.div_mod t 4 ltac:(lia)). pose proof (Z.div_mod t' 4 ltac:(lia)).
  pose proof (Z.mod_pos_bound t 4 ltac:(lia)). pose proof (Z.mod_pos_bound t' 4 ltac:(lia)).
  destruct (Z.eqb_spec (t mod 4) 0), (Z.eqb_spec (t' mod 4) 0); lia.
Qed.

Lemma sticky_mant (t : Z) : sticky t / 4 = t / 4 / 2.
Proof.
  unfold sticky.
  pose proof (Z.div_mod (t / 4) 2 ltac:(lia)). pose proof (Z.mod_pos_bound (t / 4) 2 ltac:(lia)).
  symmetry. apply Z.div_unique with (r := 2 * (t / 4 mod 2) + (if t mod 4 =? 0 then 0 else 1)).
  - destruct (t mod 4 =? 0); lia.
  - lia.
Qed.

Lemma sh_S (n : nat) (t : Z) : sh (S n) t = sticky (sh n t).
Proof. reflexivity. Qed.

Lemma sh_nonneg (n : nat) (t : Z) : 0 <= t -> 0 <= sh n t.
Proof. intros Ht. induction n; cbn; [assumption|apply sticky_nonneg, IHn]. Qed.

Lemma sh_mono (n : nat) (t t' : Z) : t <= t' -> sh n t <= sh n t'.
Proof. intros Hle. induction n; cbn; [assumption|apply sticky_mono, IHn]. Qed.

Lemma sh_add (n k : nat) (t : Z) : sh n (sh k t) = sh (n + k) t.
Proof. unfold sh. rewrite Nat.iter_add. reflexivity. Qed.

Lemma sh_mant (n : nat) (t : Z) : sh n t / 4 = t / 4 / 2 ^ Z.of_nat n.
Proof.
  induction n as [|n IH]; [cbn; rewrite Z.div_1_r; reflexivity|].
  rewrite sh_S, sticky_mant, IH.
  rewrite Nat2Z.inj_succ, Z.pow_succ_r by lia.
  rewrite Z.div_div by (try lia; apply Z.pow_pos_nonneg; lia).
  f_equal. lia.
Qed.

Lemma rcode_range (r D : Z) : 0 <= rcode r D <= 3.
Proof. unfold rcode. destruct (r =? 0), (2 * r ?= D); lia. Qed.

Lemma rcode_eq0 (r D : Z) : (rcode r D =? 0) = (r =? 0).
Proof.
  unfold rcode. destruct (Z.eqb_spec r 0); [reflexivity|].
  destruct (2 * r ?= D); reflexivity.
Qed.

Lemma T_nonneg (N D : Z) : 0 <= N -> 0 < D -> 0 <= T N D.
Proof.
  intros HN HD. unfold T. pose proof (Z.div_pos N D HN HD). pose proof (rcode_range (N mod D) D). lia.
Qed.

Lemma T_mant (N D : Z) : T N D / 4 = N / D.
Proof.
  unfold T. pose proof (rcode_range (N mod D) D).
  symmetry. apply Z.div_unique with (r := rcode (N mod D) D); lia.
Qed.

Lemma T_exact (N : Z) : T N 1 = 4 * N.
Proof. unfold T, rcode. rewrite Z.div_1_r, Z.mod_1_r. cbn. lia. Qed.

Lemma T_mono (N N' D : Z) : 0 < D -> N <= N' -> T N D <= T N' D.
Proof.
  intros HD Hle. unfold T, rcode.
  pose proof (Z.div_mod N D ltac:(lia)). pose proof (Z.div_mod N' D ltac:(lia)).
  pose proof (Z.mod_pos_bound N D HD). pose proof (Z.mod_pos_bound N' D HD).
  pose proof (Z.div_le_mono N N' D HD Hle) as Hq.
  destruct (Z.eq_dec (N / D) (N' / D)) as [Heq|Hne].
  - rewrite Heq in *. assert (N mod D <= N' mod D) by nia.
    destruct (Z.eqb_spec (N mod D) 0), (Z.eqb_spec (N' mod D) 0);
      destruct (Z.compare_spec (2 * (N mod D)) D), (Z.compare_spec (2 * (N' mod D)) D); lia.
  - destruct (N mod D =? 0), (N' mod D =? 0), (2 * (N mod D) ?= D), (2 * (N' mod D) ?= D); lia.
Qed.

Lemma T_scale (N D c : Z) : 0 < D -> 0 < c -> T (c * N) (c * D) = T N D.
Proof.
  intros HD Hc. unfold T, rcode.
  rewrite Z.div_mul_cancel_l by lia. rewrite Z.mul_mod_distr_l by lia.
  pose proof (Z.mod_pos_bound N D HD).
  destruct (Z.eqb_spec (N mod D) 0) as [->|Hne].
  - rewrite Z.mul_0_r. reflexivity.
  - destruct (Z.eqb_spec (c * (N mod D)) 0) as [H0|_]; [nia|].
    replace (2 * (c * (N mod D))) with (c * (2 * (N mod D))) by lia.
    rewrite <- Zmult_compare_compat_l by lia. reflexivity.
Qed.

Lemma sticky_T (N D : Z) : 0 < D -> sticky (T N D) = T N (2 * D).
Proof.
  intros HD. unfold T at 1. rewrite sticky_enc by apply rcode_range.
  rewrite rcode_eq0.
  pose proof (Z.div_mod N D ltac:(lia)) as E. pose proof (Z.mod_pos_bound N D HD) as B.
  pose proof (Z.div_mod (N / D) 2 ltac:(lia)) as E2.
  pose proof (Z.mod_pos_bound (N / D) 2 ltac:(lia)) as B2.
  set (q := N / D) in *. set (r := N mod D) in *. set (q2 := q / 2) in *. set (b := q mod 2) in *.
  assert (N / (2 * D) = q2 /\ N mod (2 * D) = b * D + r) as [Hq Hr].
  { apply div_mod_eq; nia. }
  unfold T. rewrite Hq, Hr. unfold rcode.
  assert (b = 0 \/ b = 1) as [Hb|Hb] by lia; rewrite Hb in *.
  - rewrite Z.mul_0_l, Z.add_0_l. zcases.
  - rewrite Z.mul_1_l. zcases.
Qed.

Lemma sh_T (k : nat) (N D : Z) : 0 < D -> sh k (T N D) = T N (D * 2 ^ Z.of_nat k).
Proof.
  intros HD. induction k as [|k IH]; [cbn; rewrite Z.mul_1_r; reflexivity|].
  rewrite sh_S, IH.
  assert (0 < 2 ^ Z.of_nat k) by (apply Z.pow_pos_nonneg; lia).
  rewrite sticky_T by nia.
  rewrite Nat2Z.inj_succ, Z.pow_succ_r by lia. f_equal. lia.
Qed.

Lemma rne_bounds (t : Z) : t / 4 <= rne t <= t / 4 + 1.
Proof. unfold rne. destruct (_ || _); lia. Qed.

Lemma rne_mono (t t' : Z) : t <= t' -> rne t <= rne t'.
Proof.
  intros Hle. unfold rne.
  pose proof (Z.div_mod t 4 ltac:(lia)). pose proof (Z.div_mod t' 4 ltac:(lia)).
  pose proof (Z.mod_pos_bound t 4 ltac:(lia)). pose proof (Z.mod_pos_bound t' 4 ltac:(lia)).
  destruct (Z.eq_dec (t / 4) (t' / 4)) as [Heq|Hne].
  - rewrite Heq in *.
    destruct (Z.eqb_spec (t mod 4) 3), (Z.eqb_spec (t' mod 4) 3),
      (Z.eqb_spec (t mod 4) 2), (Z.eqb_spec (t' mod 4) 2), (Z.odd (t' / 4)); cbn; lia.
  - destruct (_ || _), (_ || _); lia.
Qed.

Lemma rne_exact (m : Z) : rne (4 * m) = m.
Proof.
  unfold rne. rewrite Z.mul_comm, Z.div_mul, Z.mod_mul by lia. cbn. lia.
Qed.

(** ** Rounding an encoded mantissa at its canonical exponent *)

Lemma cexp_ge (m e : Z) : -1074 <= cexp m e.
Proof. unfold cexp. lia. Qed.

Lemma cexp_mono (m m' e : Z) : 0 <= m <= m' -> cexp m e <= cexp m' e.
Proof. intros H. pose proof (dg_mono m m' H). unfold cexp. lia. Qed.

Lemma pow2_pos (n : Z) : 0 <= n -> 0 < 2 ^ n.
Proof. intros. apply Z.pow_pos_nonneg; lia. Qed.

Lemma m1_range (t e : Z) :
  ready t e ->
  let E := cexp (t / 4) e in
  let m' := t / 4 / 2 ^ (E - e) in
  m' <= m1 t e <= m' + 1 /\ 0 <= m' < 2 ^ 53 /\ (-1074 < E -> 2 ^ 52 <= m').
Proof.
  intros [Ht HE]. cbn zeta. set (m := t / 4) in *.
  assert (0 <= m) as Hm by (apply Z.div_pos; lia).
  assert (exists E, E = cexp m e /\ E = Z.max (dg m + e - 53) (-1074)) as (E & HE1 & HE2)
    by (eexists; split; reflexivity).
  rewrite <- HE1 in *. unfold m1. fold m. rewrite <- HE1.
  pose proof (pow2_pos (E - e) ltac:(lia)) as Hp.
  set (m' := m / 2 ^ (E - e)).
  assert (0 <= m') as Hm' by (apply Z.div_pos; lia).
  pose proof (dg_div_pow m (E - e) Hm ltac:(lia)) as Hdg. fold m' in Hdg.
  pose proof (rne_bounds (sh (Z.to_nat (E - e)) t)) as Hr.
  rewrite sh_mant, Z2Nat.id in Hr by lia. fold m m' in Hr.
  split; [exact Hr|]. split; [split; [exact Hm'|]|].
  - destruct (Z.eq_dec m' 0) as [->|Hne]; [lia|].
    destruct (dg_bounds m' ltac:(lia)) as (_ & _ & Hh).
    eapply Z.lt_le_trans; [exact Hh|]. apply Z.pow_le_mono_r; lia.
  - intros Hnorm.
    assert (dg m' = 53) as H53 by lia.
    destruct (Z.eq_dec m' 0) as [H0|Hne]; [rewrite H0 in H53; discriminate|].
    destruct (dg_bounds m' ltac:(lia)) as (_ & Hl & _). rewrite H53 in Hl. exact Hl.
Qed.

Lemma m1_nonneg (t e : Z) : ready t e -> 0 <= m1 t e.
Proof. intros H. pose proof (m1_range t e H). cbn zeta in *. lia. Qed.

Lemma uval_nonneg (t e : Z) : ready t e -> 0 <= uval t e.
Proof.
  intros H. unfold uval. pose proof (m1_nonneg t e H).
  pose proof (cexp_ge (t / 4) e). pose proof (pow2_pos (cexp (t / 4) e + 1074) ltac:(lia)). nia.
Qed.

(** inputs at the same exponent are rounded in order *)
Lemma uval_mono (t t' e : Z) : ready t e -> ready t' e -> t <= t' -> uval t e <= uval t' e.
Proof.
  intros Hr Hr' Hle.
  pose proof (m1_range t e Hr) as (Ha & Hb & Hc).
  pose proof (m1_range t' e Hr') as (Ha' & Hb' & Hc'). cbn zeta in *.
  destruct Hr as [Ht HE], Hr' as [Ht' HE'].
  assert (0 <= t / 4 <= t' / 4) as Hm.
  { split; [apply Z.div_pos; lia|apply Z.div_le_mono; lia]. }
  pose proof (cexp_mono _ _ e Hm) as HEE. unfold uval.
  set (E := cexp (t / 4) e) in *. set (E' := cexp (t' / 4) e) in *.
  pose proof (cexp_ge (t / 4) e) as Hg. fold E in Hg.
  pose proof (pow2_pos (E + 1074) ltac:(lia)) as Hp.
  destruct (Z.eq_dec E E') as [Heq|Hne].
  - rewrite <- Heq. apply Z.mul_le_mono_nonneg_r; [lia|].
    unfold m1. fold E E'. rewrite <- Heq. apply rne_mono, sh_mono, Hle.
  - assert (2 ^ (E + 1 + 1074) <= 2 ^ (E' + 1074)) as Hpow by (apply Z.pow_le_mono_r; lia).
    replace (E + 1 + 1074) with (Z.succ (E + 1074)) in Hpow by lia.
    rewrite Z.pow_succ_r in Hpow by lia.
    change (2 ^ 53) with (2 * 2 ^ 52) in *.
    pose proof (pow2_pos 52 ltac:(lia)). specialize (Hc' ltac:(lia)). nia.
Qed.

(** an input may be coarsened up to its canonical exponent *)
Lemma uval_coarsen (t e : Z) (k : nat) :
  ready t e -> e + Z.of_nat k <= cexp (t / 4) e ->
  ready (sh k t) (e + Z.of_nat k) /\ uval (sh k t) (e + Z.of_nat k) = uval t e.
Proof.
  intros [Ht HE] Hk. set (m := t / 4) in *.
  assert (0 <= m) as Hm by (apply Z.div_pos; lia).
  assert (cexp (sh k t / 4) (e + Z.of_nat k) = cexp m e) as HE'.
  { rewrite sh_mant. fold m. unfold cexp in *.
    rewrite dg_div_pow by lia.
    destruct (Z_lt_le_dec (dg m) (Z.of_nat k)); lia. }
  split.
  - split; [apply sh_nonneg, Ht|]. rewrite HE'. exact Hk.
  - unfold uval, m1. rewrite HE'. fold m. f_equal. f_equal. rewrite sh_add. f_equal. lia.
Qed.

(** ** Rounding a non-negative rational, given in units of [2^-1074] *)

Lemma ready_T (N D : Z) : 0 <= N -> 0 < D -> ready (T N D) (-1074).
Proof. intros HN HD. split; [apply T_nonneg; assumption|apply cexp_ge]. Qed.

Lemma T_ext (N D N' D' : Z) : 0 < D -> 0 < D' -> N * D' = N' * D -> T N D = T N' D'.
Proof.
  intros HD HD' E.
  rewrite <- (T_scale N D D') by lia. rewrite <- (T_scale N' D' D) by lia.
  f_equal; lia.
Qed.

Lemma T_le (N D N' D' : Z) : 0 < D -> 0 < D' -> N * D' <= N' * D -> T N D <= T N' D'.
Proof.
  intros HD HD' E.
  rewrite <- (T_scale N D D') by lia. rewrite <- (T_scale N' D' D) by lia.
  replace (D * D') with (D' * D) by lia. apply T_mono; nia.
Qed.

Lemma RQ_ext (N D N' D' : Z) : 0 < D -> 0 < D' -> N * D' = N' * D -> RQ N D = RQ N' D'.
Proof. intros. unfold RQ. f_equal. apply T_ext; assumption. Qed.

Lemma RQ_mono (N D N' D' : Z) :
  0 <= N -> 0 < D -> 0 < D' -> N * D' <= N' * D -> RQ N D <= RQ N' D'.
Proof.
  intros HN HD HD' E. unfold RQ.
  assert (0 <= N') by nia.
  apply uval_mono; auto using ready_T. apply T_le; assumption.
Qed.

Lemma RQ_nonneg (N D : Z) : 0 <= N -> 0 < D -> 0 <= RQ N D.
Proof. intros. apply uval_nonneg, ready_T; assumption. Qed.

(** an input at an exponent below [-1074] *)
Lemma uval_RQ_lo (N D e : Z) :
  0 <= N -> 0 < D -> e <= -1074 -> uval (T N D) e = RQ N (D * 2 ^ (-1074 - e)).
Proof.
  intros HN HD He.
  assert (ready (T N D) e) as Hr.
  { split; [apply T_nonneg; assumption|]. pose proof (cexp_ge (T N D / 4) e). lia. }
  destruct (uval_coarsen (T N D) e (Z.to_nat (-1074 - e)) Hr) as [_ H].
  { rewrite Z2Nat.id by lia. pose proof (cexp_ge (T N D / 4) e). lia. }
  rewrite Z2Nat.id in H by lia. rewrite sh_T, Z2Nat.id in H by lia.
  replace (e + (-1074 - e)) with (-1074) in H by lia. symmetry. exact H.
Qed.

(** an input at an exponent above [-1074] *)
Lemma uval_RQ_hi (N D e : Z) :
  0 <= N -> 0 < D -> -1074 <= e -> ready (T N D) e ->
  uval (T N D) e = RQ (N * 2 ^ (e + 1074)) D.
Proof.
  intros HN HD He [_ Hr]. rewrite T_mant in Hr.
  set (k := e + 1074). pose proof (pow2_pos k ltac:(lia)) as Hp.
  assert (ready (T (N * 2 ^ k) D) (-1074)) as Hr' by (apply ready_T; nia).
  destruct (uval_coarsen _ _ (Z.to_nat k) Hr') as [_ H].
  { rewrite Z2Nat.id, T_mant by lia. unfold cexp in *.
    destruct (Z.eq_dec e (-1074)) as [->|Hne]; [lia|].
    assert (53 <= dg (N / D)) as Hd by lia.
    assert (0 < N / D) as Hq.
    { destruct (Z.eq_dec (N / D) 0) as [H0|H0]; [rewrite H0 in Hd; cbn in Hd; lia|].
      pose proof (Z.div_pos N D HN HD). lia. }
    assert (N / D * 2 ^ k <= N * 2 ^ k / D) as Hle.
    { apply Z.div_le_lower_bound; [lia|]. pose proof (Z.mul_div_le N D HD). nia. }
    pose proof (dg_mono (N / D * 2 ^ k) (N * 2 ^ k / D) ltac:(nia)) as Hm.
    rewrite dg_mul_pow in Hm by lia. lia. }
  rewrite Z2Nat.id in H by lia. rewrite sh_T, Z2Nat.id in H by lia.
  replace (-1074 + k) with e in H by lia.
  rewrite (T_ext (N * 2 ^ k) (D * 2 ^ k) N D) in H by nia. exact H.
Qed.

(** a representable value rounds to itself *)
Lemma uval_canonical (m e : Z) : 0 < m -> cexp m e = e -> uval (4 * m) e = m * 2 ^ (e + 1074).
Proof.
  intros Hm Hc. unfold uval, m1.
  replace (4 * m / 4) with m by (rewrite Z.mul_comm, Z.div_mul; lia).
  rewrite Hc, Z.sub_diag. change (sh (Z.to_nat 0) (4 * m)) with (4 * m).
  rewrite rne_exact. reflexivity.
Qed.

Lemma RQ_canonical (m e : Z) :
  0 < m -> cexp m e = e -> RQ (m * 2 ^ (e + 1074)) 1 = m * 2 ^ (e + 1074).
Proof.
  intros Hm Hc. pose proof (cexp_ge m e).
  rewrite <- uval_RQ_hi; try lia.
  - rewrite T_exact. apply uval_canonical; assumption.
  - split; [rewrite T_exact; lia|]. rewrite T_mant, Z.div_1_r. lia.
Qed.

(** ** The link with [SpecFloat] *)

Lemma fexp_cexp (m e : Z) : fexp prec emax (Zdigits2 m + e) = cexp m e.
Proof. reflexivity. Qed.

Lemma bounded_iff (m : positive) (e : Z) :
  bounded prec emax m e = true <-> cexp (Zpos m) e = e /\ e <= 971.
Proof.
  unfold bounded, canonical_mantissa.
  change (fexp prec emax (Zpos (digits2_pos m) + e)) with (cexp (Zpos m) e).
  change (emax - prec) with 971.
  rewrite andb_true_iff, Z.eqb_eq, Z.leb_le. reflexivity.
Qed.

Lemma enc_mant (mrs : shr_record) : enc mrs / 4 = shr_m mrs.
Proof.
  unfold enc. symmetry.
  apply Z.div_unique with (r := (if shr_r mrs then 2 else 0) + (if shr_s mrs then 1 else 0));
    destruct (shr_r mrs), (shr_s mrs); lia.
Qed.

Lemma enc_loc (m : Z) (l : location) : enc (shr_record_of_loc m l) = 4 * m + lcode l.
Proof.
  destruct l as [|[]]; unfold enc; cbn [shr_record_of_loc shr_m shr_r shr_s lcode]; lia.
Qed.

Lemma enc_shr_1 (mrs : shr_record) :
  0 <= shr_m mrs -> enc (shr_1 mrs) = sticky (enc mrs) /\ 0 <= shr_m (shr_1 mrs).
Proof.
  destruct mrs as [m r s]. cbn [shr_m]. intros Hm. unfold enc at 2. cbn [shr_m shr_r shr_s].
  replace (4 * m + (if r then 2 else 0) + (if s then 1 else 0))
    with (4 * m + ((if r then 2 else 0) + (if s then 1 else 0))) by lia.
  rewrite sticky_enc by (destruct r, s; lia).
  destruct m as [|[p|p|]|p]; try lia; destruct r, s;
    cbn [shr_1 orb]; unfold enc; cbn [shr_m shr_r shr_s];
    rewrite ?(Pos2Z.inj_xI p), ?(Pos2Z.inj_xO p);
    match goal with |- context [Z.eqb ?a 0] => destruct (Z.eqb_spec a 0) end; lia.
Qed.

Lemma iter_pos_nat {A} (f : A -> A) (p : positive) (x : A) :
  SpecFloat.iter_pos f p x = Nat.iter (Pos.to_nat p) f x.
Proof.
  revert x; induction p as [p IH|p IH|]; intros x; cbn [SpecFloat.iter_pos].
  - rewrite !IH, Pos2Nat.inj_xI.
    replace (S (2 * Pos.to_nat p)) with (Pos.to_nat p + (Pos.to_nat p + 1))%nat by lia.
    rewrite !Nat.iter_add. reflexivity.
  - rewrite !IH, Pos2Nat.inj_xO.
    replace (2 * Pos.to_nat p)%nat with (Pos.to_nat p + Pos.to_nat p)%nat by lia.
    rewrite Nat.iter_add. reflexivity.
  - reflexivity.
Qed.

Lemma enc_iter (n : nat) (mrs : shr_record) :
  0 <= shr_m mrs ->
  enc (Nat.iter n shr_1 mrs) = sh n (enc mrs) /\ 0 <= shr_m (Nat.iter n shr_1 mrs).
Proof.
  intros Hm. induction n as [|n [IH1 IH2]]; [split; [reflexivity|assumption]|].
  change (Nat.iter (S n) shr_1 mrs) with (shr_1 (Nat.iter n shr_1 mrs)).
  destruct (enc_shr_1 _ IH2) as [H1 H2].
  split; [|assumption]. rewrite H1, IH1, sh_S. reflexivity.
Qed.

Lemma shr_enc (mrs : shr_record) (e n : Z) :
  0 <= shr_m mrs ->
  enc (fst (shr mrs e n)) = sh (Z.to_nat n) (enc mrs)
  /\ snd (shr mrs e n) = e + Z.max n 0
  /\ 0 <= shr_m (fst (shr mrs e n)).
Proof.
  intros Hm. destruct n as [|p|p]; cbn [shr fst snd].
  - split; [reflexivity|]. split; [lia|assumption].
  - rewrite iter_pos_nat. destruct (enc_iter (Pos.to_nat p) mrs Hm) as [H1 H2].
    split; [exact H1|]. split; [lia|exact H2].
  - split; [reflexivity|]. split; [lia|assumption].
Qed.

Lemma rne_enc (mrs : shr_record) :
  0 <= shr_m mrs ->
  round_nearest_even (shr_m mrs) (loc_of_shr_record mrs) = rne (enc mrs).
Proof.
  intros Hm. unfold rne. rewrite enc_mant.
  assert (enc mrs mod 4 = (if shr_r mrs then 2 else 0) + (if shr_s mrs then 1 else 0)) as ->.
  { unfold enc. apply (div_mod_eq _ 4 (shr_m mrs)); destruct (shr_r mrs), (shr_s mrs); lia. }
  destruct mrs as [m [] []]; cbn [shr_m shr_r shr_s loc_of_shr_record round_nearest_even];
    repeat match goal with
    | |- context [Z.eqb ?a ?b] => destruct (Z.eqb_spec a b); try lia
    end; cbn [orb andb]; try lia.
  rewrite <- Z.negb_even. destruct (Z.even m); cbn [negb]; lia.
Qed.

(** [binary_round_aux] on a ready input is the float of the rounded value *)
Lemma Rep_round_aux (m e : Z) (l : location) :
  0 <= m -> ready (4 * m + lcode l) e ->
  Rep (binary_round_aux prec emax false m e l) (uval (4 * m + lcode l) e).
Proof.
  intros Hm Hr. set (t := 4 * m + lcode l) in *.
  assert (t / 4 = m) as Ht.
  { unfold t. symmetry. apply Z.div_unique with (r := lcode l); destruct l as [|[]]; cbn; lia. }
  pose proof (m1_range t e Hr) as (Ha & Hb & Hc). cbn zeta in Ha, Hb, Hc.
  pose proof Hr as [Ht0 HE]. rewrite Ht in *.
  set (E := cexp m e) in *.
  unfold binary_round_aux, shr_fexp. rewrite fexp_cexp. fold E.
  pose proof (shr_enc (shr_record_of_loc m l) e (E - e)) as (H1 & H2 & H3);
    [destruct l as [|[]]; exact Hm|].
  destruct (shr (shr_record_of_loc m l) e (E - e)) as [mrs' e'] eqn:Hshr.
  cbn [fst snd] in H1, H2, H3. rewrite enc_loc in H1. fold t in H1.
  rewrite rne_enc by exact H3. rewrite H1.
  assert (rne (sh (Z.to_nat (E - e)) t) = m1 t e) as HM by (unfold m1; rewrite Ht; reflexivity).
  rewrite HM. assert (e' = E) as -> by lia.
  set (M := m1 t e) in *. rewrite fexp_cexp.
  assert (uval t e = M * 2 ^ (E + 1074)) as HU by (unfold uval; rewrite Ht; reflexivity).
  rewrite HU. pose proof (cexp_ge m e) as HEge. fold E in HEge.
  pose proof (pow2_pos (E + 1074) ltac:(lia)) as Hpow.
  assert (0 <= M) as HM0 by lia.
  pose proof (shr_enc (shr_record_of_loc M loc_Exact) E (cexp M E - E) HM0) as (G1 & G2 & G3).
  destruct (shr (shr_record_of_loc M loc_Exact) E (cexp M E - E)) as [mrs'' e''] eqn:Hshr2.
  cbn [fst snd] in G1, G2, G3. rewrite enc_loc in G1. cbn [lcode] in G1. rewrite Z.add_0_r in G1.
  assert (shr_m mrs'' = M / 2 ^ Z.of_nat (Z.to_nat (cexp M E - E))) as Hm''.
  { rewrite <- enc_mant, G1, sh_mant. f_equal. rewrite Z.mul_comm, Z.div_mul; lia. }
  destruct (Z.eq_dec M 0) as [HM00|HMne].
  - rewrite HM00 in *. rewrite Z.div_0_l in Hm'' by (apply Z.pow_nonzero; lia).
    rewrite Hm''. rewrite Z.mul_0_l. constructor.
  - destruct (Z_lt_le_dec M (2 ^ 53)) as [Hlt|Hge].
    + assert (cexp M E = E) as Hcan.
      { unfold cexp. pose proof (dg_lt_pow M 53 ltac:(lia) ltac:(lia)).
        destruct (Z.eq_dec E (-1074)) as [->|HEn]; [lia|].
        pose proof (dg_ge_pow M 52 ltac:(lia) ltac:(lia)). lia. }
      rewrite Hcan, Z.sub_diag in *. cbn in Hm''. rewrite Z.div_1_r in Hm''.
      rewrite Hm''. assert (e'' = E) as -> by lia.
      destruct M as [|p|p]; try lia.
      destruct (Z.leb_spec E (emax - prec)) as [Hle|Hgt].
      * constructor. apply bounded_iff. split; [exact Hcan|exact Hle].
      * constructor. change (emax - prec) with 971 in Hgt.
        assert (2 ^ 52 <= Zpos p) by lia.
        assert (2 ^ 2046 <= 2 ^ (E + 1074)) by (apply Z.pow_le_mono_r; lia).
        change (2 ^ 2098) with (2 ^ 52 * 2 ^ 2046).
        apply Z.mul_le_mono_nonneg; lia.
    + assert (M = 2 ^ 53) as HM53 by lia.
      assert (cexp M E = E + 1) as Hcan.
      { rewrite HM53. unfold cexp. change (dg (2 ^ 53)) with 54. lia. }
      rewrite Hcan in *. replace (E + 1 - E) with 1 in * by lia.
      change (Z.of_nat (Z.to_nat 1)) with 1 in Hm''. rewrite HM53 in Hm''.
      change (2 ^ 53 / 2 ^ 1) with (2 ^ 52) in Hm''.
      rewrite Hm''. assert (e'' = E + 1) as -> by lia.
      change (2 ^ 52) with (Zpos (Z.to_pos (2 ^ 52))).
      destruct (Z.leb_spec (E + 1) (emax - prec)) as [Hle|Hgt].
      * replace (M * 2 ^ (E + 1074)) with (Zpos (Z.to_pos (2 ^ 52)) * 2 ^ (E + 1 + 1074)).
        -- constructor. apply bounded_iff. split; [|exact Hle].
           unfold cexp. change (dg (Zpos (Z.to_pos (2 ^ 52)))) with 53. lia.
        -- rewrite HM53. replace (E + 1 + 1074) with (Z.succ (E + 1074)) by lia.
           rewrite Z.pow_succ_r by lia. change (Zpos (Z.to_pos (2 ^ 52))) with (2 ^ 52).
           change (2 ^ 53) with (2 ^ 52 * 2). lia.
      * constructor. change (emax - prec) with 971 in Hgt. rewrite HM53.
        assert (2 ^ 2045 <= 2 ^ (E + 1074)) by (apply Z.pow_le_mono_r; lia).
        change (2 ^ 2098) with (2 ^ 53 * 2 ^ 2045).
        apply Z.mul_le_mono_nonneg; lia.
Qed.

(** ** Order *)

Lemma bounded_range (m : positive) (e : Z) :
  bounded prec emax m e = true ->
  -1074 <= e <= 971 /\ Zpos m < 2 ^ 53 /\ (-1074 < e -> 2 ^ 52 <= Zpos m).
Proof.
  intros [Hc He]%bounded_iff. unfold cexp in Hc.
  destruct (dg_bounds (Zpos m) ltac:(lia)) as (H1 & Hl & Hh).
  split; [lia|]. split.
  - eapply Z.lt_le_trans; [exact Hh|]. apply Z.pow_le_mono_r; lia.
  - intros Hn. assert (dg (Zpos m) = 53) as H53 by lia. rewrite H53 in Hl. exact Hl.
Qed.

Lemma bounded_lt_top (m : positive) (e : Z) :
  bounded prec emax m e = true -> Zpos m * 2 ^ (e + 1074) < 2 ^ 2098.
Proof.
  intros (He & Hm & _)%bounded_range.
  pose proof (pow2_pos (e + 1074) ltac:(lia)).
  assert (2 ^ (e + 1074) <= 2 ^ 2045) by (apply Z.pow_le_mono_r; lia).
  change (2 ^ 2098) with (2 ^ 53 * 2 ^ 2045). nia.
Qed.

(** on canonical floats the order of the fields is the order of the values *)
Lemma bounded_compare (m m' : positive) (e e' : Z) :
  bounded prec emax m e = true -> bounded prec emax m' e' = true ->
  e < e' -> Zpos m * 2 ^ (e + 1074) < Zpos m' * 2 ^ (e' + 1074).
Proof.
  intros (He & Hm & _)%bounded_range (He' & _ & Hn')%bounded_range Hlt.
  specialize (Hn' ltac:(lia)).
  pose proof (pow2_pos (e + 1074) ltac:(lia)) as Hp.
  assert (2 ^ (Z.succ (e + 1074)) <= 2 ^ (e' + 1074)) as Hpow by (apply Z.pow_le_mono_r; lia).
  rewrite Z.pow_succ_r in Hpow by lia.
  change (2 ^ 53) with (2 * 2 ^ 52) in Hm. pose proof (pow2_pos 52 ltac:(lia)). nia.
Qed.

Lemma Rep_le (a b : spec_float) (va vb : Z) :
  Rep a va -> Rep b vb -> va <= vb -> SFleb a b = true.
Proof.
  intros Ha Hb Hle. destruct Ha as [sa|ma ea Ba|va Ia], Hb as [sb|mb eb Bb|vb Ib]; try reflexivity.
  - pose proof (pow2_pos (ea + 1074)) as Hp.
    pose proof (bounded_range _ _ Ba) as (He & _ & _). specialize (Hp ltac:(lia)). nia.
  - unfold SFleb, SFcompare.
    destruct (Z.compare_spec ea eb) as [->|Hlt|Hgt].
    + pose proof (bounded_range _ _ Bb) as (He & _ & _).
      pose proof (pow2_pos (eb + 1074) ltac:(lia)) as Hp.
      assert (Zpos ma <= Zpos mb) as Hm by nia.
      change (Pos.compare_cont Eq ma mb) with (Pos.compare ma mb).
      destruct (Pos.compare_spec ma mb); try reflexivity. lia.
    + reflexivity.
    + pose proof (bounded_compare _ _ _ _ Bb Ba Hgt). lia.
  - pose proof (Z.pow_pos_nonneg 2 2098). lia.
  - pose proof (bounded_lt_top _ _ Bb). lia.
Qed.

Lemma Rep_nonneg (a : spec_float) (v : Z) : Rep a v -> nonneg a.
Proof. destruct 1; exact I. Qed.

Lemma leb_zero_nonneg (x : spec_float) : SFleb (S754_zero false) x = true <-> nonneg x.
Proof. destruct x as [[]|[]| |[] m e]; cbn; split; auto; discriminate. Qed.

Lemma Rep_val (x : spec_float) :
  valid_binary x = true -> nonneg x -> x <> S754_infinity false -> Rep x (val x).
Proof.
  destruct x as [s|[]| |[] m e]; cbn [nonneg valid_binary val];
    intros Hv Hn Hi; try contradiction; try congruence.
  - constructor.
  - constructor. exact Hv.
Qed.

Lemma leb_val (x y : spec_float) :
  valid_binary x = true -> valid_binary y = true -> nonneg x ->
  y <> S754_infinity false -> SFleb x y = true ->
  x <> S754_infinity false /\ nonneg y /\ val x <= val y.
Proof.
  destruct x as [sx|[]| |[] mx ex], y as [sy|[]| |[] my ey];
    cbn [nonneg valid_binary val SFleb SFcompare];
    intros Vx Vy Nx Iy Hle; try contradiction; try discriminate; try congruence;
    try (repeat split; (discriminate || exact I || lia)).
  repeat split; try discriminate.
  destruct (Z.compare_spec ex ey) as [->|Hlt|Hgt]; try discriminate.
  - pose proof (bounded_range _ _ Vy) as (He & _ & _).
    pose proof (pow2_pos (ey + 1074) ltac:(lia)).
    assert (Zpos mx <= Zpos my) as Hm.
    { destruct (Pos.compare_spec mx my) as [->|Hl|Hg]; try lia.
      exfalso. apply Pos.compare_gt_iff in Hg.
      unfold Pos.compare in Hg. rewrite Hg in Hle. discriminate. }
    nia.
  - pose proof (bounded_compare _ _ _ _ Vx Vy Hlt). lia.
Qed.

(** ** The operations, as roundings of their exact values *)

Lemma iter_xO (d m : positive) : Zpos (Pos.iter xO m d) = Zpos m * 2 ^ Zpos d.
Proof.
  revert m. induction d as [|d IH] using Pos.peano_ind; intros m.
  - cbn [Pos.iter]. rewrite Pos2Z.inj_xO. change (2 ^ 1) with 2. lia.
  - rewrite Pos.iter_succ, Pos2Z.inj_xO, IH, Pos2Z.inj_succ, Z.pow_succ_r by lia. lia.
Qed.

Lemma shl_align_spec (m : positive) (e e' : Z) :
  let '(mz, ez) := shl_align m e e' in
  ez = Z.min e e' /\ Zpos mz = Zpos m * 2 ^ (e - ez).
Proof.
  unfold shl_align. destruct (e' - e) as [|d|d] eqn:Hd.
  - split; [lia|]. replace (e - e) with 0 by lia. lia.
  - split; [lia|]. replace (e - e) with 0 by lia. lia.
  - split; [lia|]. rewrite iter_xO. f_equal. f_equal. lia.
Qed.

(** [binary_round]: the rounding of the integer [m * 2^e] *)
Lemma Rep_round (m : positive) (e : Z) :
  -1074 <= e -> Rep (binary_round prec emax false m e) (RQ (Zpos m * 2 ^ (e + 1074)) 1).
Proof.
  intros He. unfold binary_round.
  change (fexp prec emax (Zpos (digits2_pos m) + e)) with (cexp (Zpos m) e).
  pose proof (shl_align_spec m e (cexp (Zpos m) e)) as Hs.
  destruct (shl_align m e (cexp (Zpos m) e)) as [mz ez]. destruct Hs as [Hez Hmz].
  pose proof (cexp_ge (Zpos m) e) as Hc.
  assert (0 <= e - ez) as Hd by lia.
  pose proof (pow2_pos (e - ez) Hd) as Hp.
  assert (cexp (Zpos mz) ez = cexp (Zpos m) e) as Hcz.
  { rewrite Hmz. unfold cexp. rewrite dg_mul_pow by lia. f_equal. lia. }
  assert (ready (4 * Zpos mz + lcode loc_Exact) ez) as Hr.
  { cbn [lcode]. rewrite Z.add_0_r. split; [lia|].
    replace (4 * Zpos mz / 4) with (Zpos mz) by (rewrite Z.mul_comm, Z.div_mul; lia).
    rewrite Hcz. lia. }
  pose proof (Rep_round_aux (Zpos mz) ez loc_Exact ltac:(lia) Hr) as H.
  cbn [lcode] in H, Hr. rewrite Z.add_0_r in H, Hr. rewrite <- T_exact in H, Hr.
  rewrite uval_RQ_hi in H by (try lia; exact Hr).
  replace (Zpos m * 2 ^ (e + 1074)) with (Zpos mz * 2 ^ (ez + 1074)); [exact H|].
  rewrite Hmz, <- Z.mul_assoc, <- Z.pow_add_r by lia. f_equal. f_equal. lia.
Qed.

(** [binary_normalize] of a non-negative integer at exponent 0 *)
Lemma Rep_normalize (z : Z) (s : bool) :
  0 <= z -> Rep (binary_normalize prec emax z 0 s) (RQ (z * 2 ^ 1074) 1).
Proof.
  intros Hz. destruct z as [|p|p]; try lia; cbn [binary_normalize].
  - replace (RQ (0 * 2 ^ 1074) 1) with 0; [constructor|].
    unfold RQ, uval, m1. rewrite Z.mul_0_l. reflexivity.
  - apply (Rep_round p 0). lia.
Qed.

Lemma lcode_new_location (D r : Z) :
  0 < D -> 0 <= r < D -> lcode (new_location D r) = rcode r D.
Proof.
  intros HD Hr. unfold new_location, new_location_even, new_location_odd, rcode.
  destruct (Z.even D) eqn:Hev; destruct (Z.eqb_spec r 0) as [->|Hne]; try reflexivity.
  assert (Z.odd D = true) as Hodd by (rewrite <- Z.negb_even, Hev; reflexivity).
  apply Z.odd_spec in Hodd as [k Hk].
  destruct (Z.compare_spec (2 * r + 1) D), (Z.compare_spec (2 * r) D); cbn [lcode]; lia.
Qed.

(** the quotient computed by [SFdiv_core_binary], as an encoded fraction *)
Lemma div_core_spec (m1 m2 : positive) (e1 e2 : Z) :
  let '(q, e', l) := SFdiv_core_binary prec emax (Zpos m1) e1 (Zpos m2) e2 in
  e' <= e1 - e2
  /\ e' <= Z.max (dg (Zpos m1) + e1 - (dg (Zpos m2) + e2) - 53) (-1074)
  /\ 0 <= q
  /\ 4 * q + lcode l = T (Zpos m1 * 2 ^ (e1 - e2 - e')) (Zpos m2).
Proof.
  unfold SFdiv_core_binary.
  change (fexp prec emax (Zdigits2 (Zpos m1) + e1 - (Zdigits2 (Zpos m2) + e2)))
    with (Z.max (dg (Zpos m1) + e1 - (dg (Zpos m2) + e2) - 53) (-1074)).
  set (e' := Z.min _ (e1 - e2)). set (s := e1 - e2 - e').
  assert (0 <= s) as Hs by (unfold s, e'; lia).
  set (m' := match s with Zpos _ => Z.shiftl (Zpos m1) s | Z0 => Zpos m1 | Zneg _ => 0 end).
  assert (m' = Zpos m1 * 2 ^ s) as Hm'.
  { unfold m'. destruct s as [|p|p]; try lia.
    rewrite Z.shiftl_mul_pow2 by lia. reflexivity. }
  pose proof (pow2_pos s Hs) as Hp.
  pose proof (Z_div_mod_eq_full m' (Zpos m2)) as Hdm.
  pose proof (Z.mod_pos_bound m' (Zpos m2) ltac:(lia)) as Hb.
  unfold Z.div, Z.modulo in Hdm, Hb.
  destruct (Z.div_eucl m' (Zpos m2)) as [q r] eqn:Hqr.
  assert (q = m' / Zpos m2 /\ r = m' mod Zpos m2) as [Hq Hr].
  { unfold Z.div, Z.modulo. rewrite Hqr. auto. }
  split; [unfold e'; lia|]. split; [unfold e'; lia|]. split.
  - rewrite Hq. apply Z.div_pos; nia.
  - rewrite lcode_new_location by lia. fold s. rewrite <- Hm'. unfold T.
    rewrite <- Hq, <- Hr. reflexivity.
Qed.

Lemma pow2_add (a b : Z) : 0 <= a -> 0 <= b -> 2 ^ a * 2 ^ b = 2 ^ (a + b).
Proof. intros. rewrite Z.pow_add_r by lia. reflexivity. Qed.

(** the quotient of two positive floats is the rounding of the exact quotient *)
Lemma Rep_div (m1 m2 : positive) (e1 e2 : Z) :
  bounded prec emax m1 e1 = true -> bounded prec emax m2 e2 = true ->
  Rep (SFdiv prec emax (S754_finite false m1 e1) (S754_finite false m2 e2))
      (RQ (Zpos m1 * 2 ^ (e1 + 1074) * 2 ^ 1074) (Zpos m2 * 2 ^ (e2 + 1074))).
Proof.
  intros B1 B2.
  pose proof (bounded_range _ _ B1) as (He1 & _ & _).
  pose proof (bounded_range _ _ B2) as (He2 & _ & _).
  unfold SFdiv. cbn [xorb].
  pose proof (div_core_spec m1 m2 e1 e2) as H.
  destruct (SFdiv_core_binary prec emax (Zpos m1) e1 (Zpos m2) e2) as [[q e'] l].
  destruct H as (H1 & H2 & Hq & HT).
  set (s := e1 - e2 - e') in *. assert (0 <= s) as Hs by (unfold s; lia).
  set (N := Zpos m1 * 2 ^ s) in *.
  pose proof (pow2_pos s Hs) as Hps.
  pose proof (pow2_pos (e2 + 1074) ltac:(lia)) as Hp2.
  assert (0 <= N) as HN by (unfold N; nia).
  assert (ready (T N (Zpos m2)) e') as Hr.
  { split; [apply T_nonneg; lia|]. rewrite T_mant by lia.
    destruct (Z_le_gt_dec e' (-1074)) as [Hlo|Hhi];
      [pose proof (cexp_ge (N / Zpos m2) e'); lia|].
    unfold cexp.
    assert (52 + 1 <= dg (N / Zpos m2)) as Hd; [|lia].
    apply dg_ge_pow; [lia|].
    apply Z.div_le_lower_bound; [lia|].
    destruct (dg_bounds (Zpos m1) ltac:(lia)) as (Hd1 & Hl1 & Hh1).
    destruct (dg_bounds (Zpos m2) ltac:(lia)) as (Hd2 & Hl2 & Hh2).
    assert (2 ^ (dg (Zpos m2)) * 2 ^ 52 <= 2 ^ (dg (Zpos m1) - 1) * 2 ^ s) as Hpw.
    { rewrite !pow2_add by lia. apply Z.pow_le_mono_r; unfold s; lia. }
    unfold N. nia. }
  pose proof Hr as Hr'. rewrite <- HT in Hr'.
  pose proof (Rep_round_aux q e' l Hq Hr') as HR. rewrite HT in HR.
  replace (RQ (Zpos m1 * 2 ^ (e1 + 1074) * 2 ^ 1074) (Zpos m2 * 2 ^ (e2 + 1074)))
    with (uval (T N (Zpos m2)) e'); [exact HR|].
  destruct (Z_le_gt_dec e' (-1074)) as [Hlo|Hhi].
  - rewrite uval_RQ_lo by lia.
    pose proof (pow2_pos (-1074 - e') ltac:(lia)) as Hp3.
    apply RQ_ext; [nia|nia|].
    assert (2 ^ s * 2 ^ (e2 + 1074) = 2 ^ (e1 + 1074) * 2 ^ 1074 * 2 ^ (-1074 - e')) as E.
    { rewrite !pow2_add by lia. f_equal. unfold s. lia. }
    unfold N.
    transitivity (Zpos m1 * Zpos m2 * (2 ^ s * 2 ^ (e2 + 1074))); [ring|].
    rewrite E. ring.
  - rewrite uval_RQ_hi by (try lia; assumption).
    pose proof (pow2_pos (e' + 1074) ltac:(lia)) as Hp3.
    apply RQ_ext; [lia|nia|].
    assert (2 ^ s * 2 ^ (e' + 1074) * 2 ^ (e2 + 1074) = 2 ^ (e1 + 1074) * 2 ^ 1074) as E.
    { rewrite !pow2_add by lia. f_equal. unfold s. lia. }
    unfold N.
    transitivity (Zpos m1 * Zpos m2 * (2 ^ s * 2 ^ (e' + 1074) * 2 ^ (e2 + 1074))); [ring|].
    rewrite E. ring.
Qed.

Lemma RQ_0 (D : Z) : 0 < D -> RQ 0 D = 0.
Proof.
  intros HD. unfold RQ, uval, m1, T, rcode.
  rewrite Z.div_0_l, Z.mod_0_l by lia. reflexivity.
Qed.

(** the product of two positive floats is the rounding of the exact product *)
Lemma Rep_mul (m1 m2 : positive) (e1 e2 : Z) :
  bounded prec emax m1 e1 = true -> bounded prec emax m2 e2 = true ->
  Rep (SFmul prec emax (S754_finite false m1 e1) (S754_finite false m2 e2))
      (RQ (Zpos m1 * 2 ^ (e1 + 1074) * (Zpos m2 * 2 ^ (e2 + 1074))) (2 ^ 1074)).
Proof.
  intros B1 B2.
  pose proof (bounded_range _ _ B1) as (He1 & Hm1 & Hn1).
  pose proof (bounded_range _ _ B2) as (He2 & Hm2 & Hn2).
  unfold SFmul. cbn [xorb]. rewrite Pos2Z.inj_mul.
  set (M := Zpos m1 * Zpos m2). set (e := e1 + e2).
  assert (0 < M) as HM by (unfold M; nia).
  assert (ready (T M 1) e) as Hr.
  { split; [apply T_nonneg; lia|]. rewrite T_mant by lia. rewrite Z.div_1_r.
    destruct (Z_le_gt_dec e (-1074)) as [Hlo|Hhi];
      [pose proof (cexp_ge M e); lia|].
    unfold cexp.
    assert (52 + 1 <= dg M) as Hd; [|lia].
    apply dg_ge_pow; [lia|]. unfold M, e in *.
    destruct (Z_le_gt_dec e1 (-1074)); [specialize (Hn2 ltac:(lia))|specialize (Hn1 ltac:(lia))]; nia. }
  pose proof Hr as Hr'. rewrite T_exact in Hr'.
  replace (4 * M) with (4 * M + lcode loc_Exact) in Hr' by (cbn [lcode]; lia).
  pose proof (Rep_round_aux M e loc_Exact ltac:(lia) Hr') as HR.
  cbn [lcode] in HR. rewrite Z.add_0_r, <- T_exact in HR.
  replace (RQ (Zpos m1 * 2 ^ (e1 + 1074) * (Zpos m2 * 2 ^ (e2 + 1074))) (2 ^ 1074))
    with (uval (T M 1) e); [exact HR|].
  pose proof (pow2_pos 1074 ltac:(lia)) as Hp.
  destruct (Z_le_gt_dec e (-1074)) as [Hlo|Hhi].
  - rewrite uval_RQ_lo by lia.
    pose proof (pow2_pos (-1074 - e) ltac:(lia)) as Hp3.
    apply RQ_ext; [lia|lia|].
    assert (2 ^ 1074 = 2 ^ (e1 + 1074) * 2 ^ (e2 + 1074) * 2 ^ (-1074 - e)) as E.
    { rewrite !pow2_add by lia. f_equal. unfold e. lia. }
    unfold M. rewrite E at 1. ring.
  - rewrite uval_RQ_hi by (try lia; assumption).
    apply RQ_ext; [lia|lia|].
    assert (2 ^ (e + 1074) * 2 ^ 1074 = 2 ^ (e1 + 1074) * 2 ^ (e2 + 1074)) as E.
    { rewrite !pow2_add by lia. f_equal. unfold e. lia. }
    unfold M.
    transitivity (Zpos m1 * Zpos m2 * (2 ^ (e + 1074) * 2 ^ 1074)); [ring|].
    rewrite E. ring.
Qed.

(** the sum of two positive floats is the rounding of the exact sum *)
Lemma Rep_add (m1 m2 : positive) (e1 e2 : Z) :
  bounded prec emax m1 e1 = true -> bounded prec emax m2 e2 = true ->
  Rep (SFadd prec emax (S754_finite false m1 e1) (S754_finite false m2 e2))
      (RQ (Zpos m1 * 2 ^ (e1 + 1074) + Zpos m2 * 2 ^ (e2 + 1074)) 1).
Proof.
  intros B1 B2.
  pose proof (bounded_range _ _ B1) as (He1 & _ & _).
  pose proof (bounded_range _ _ B2) as (He2 & _ & _).
  unfold SFadd. cbn [cond_Zopp].
  set (ez := Z.min e1 e2).
  pose proof (shl_align_spec m1 e1 ez) as H1.
  pose proof (shl_align_spec m2 e2 ez) as H2.
  destruct (shl_align m1 e1 ez) as [n1 f1], (shl_align m2 e2 ez) as [n2 f2].
  cbn [fst]. destruct H1 as [Hf1 Hn1], H2 as [Hf2 Hn2].
  replace f1 with ez in Hn1 by (unfold ez in *; lia).
  replace f2 with ez in Hn2 by (unfold ez in *; lia).
  change (Zpos n1 + Zpos n2) with (Zpos (n1 + n2)). cbn [binary_normalize].
  pose proof (Rep_round (n1 + n2) ez ltac:(unfold ez; lia)) as HR.
  replace (Zpos m1 * 2 ^ (e1 + 1074) + Zpos m2 * 2 ^ (e2 + 1074))
    with (Zpos (n1 + n2) * 2 ^ (ez + 1074)); [exact HR|].
  rewrite Pos2Z.inj_add, Hn1, Hn2.
  rewrite Z.mul_add_distr_r, <- !Z.mul_assoc, !pow2_add by (unfold ez; lia).
  f_equal; f_equal; f_equal; lia.
Qed.

Lemma rintZ_mono (v w : Z) : v <= w -> rintZ v <= rintZ w.
Proof.
  intros H. apply rne_mono, T_mono; [apply pow2_pos; lia|assumption].
Qed.

Lemma rintZ_nonneg (v : Z) : 0 <= v -> 0 <= rintZ v.
Proof.
  intros H. unfold rintZ.
  pose proof (rne_bounds (T v (2 ^ 1074))) as Hb.
  rewrite T_mant in Hb by (apply pow2_pos; lia).
  pose proof (Z.div_pos v (2 ^ 1074) H (pow2_pos 1074 ltac:(lia))). lia.
Qed.

Lemma Rep_rint (m : positive) (e : Z) :
  bounded prec emax m e = true ->
  Rep (rintSF (S754_finite false m e))
      (RQ (rintZ (Zpos m * 2 ^ (e + 1074)) * 2 ^ 1074) 1).
Proof.
  intros B. pose proof (bounded_range _ _ B) as (He & Hm & Hn).
  pose proof (proj1 (bounded_iff m e) B) as [Hc _].
  pose proof (pow2_pos 1074 ltac:(lia)) as Hp.
  unfold rintSF. destruct (Z.leb_spec 0 e) as [Hpos|Hneg].
  - assert (rintZ (Zpos m * 2 ^ (e + 1074)) = Zpos m * 2 ^ e) as ->.
    { unfold rintZ.
      rewrite (T_ext _ _ (Zpos m * 2 ^ e) 1), T_exact, rne_exact; try lia.
      rewrite <- (pow2_add e 1074) by lia. ring. }
    rewrite <- Z.mul_assoc, (pow2_add e 1074) by lia.
    rewrite RQ_canonical by (try lia; assumption).
    constructor. assumption.
  - pose proof (shr_enc (shr_record_of_loc (Zpos m) loc_Exact) e (- e)) as Hs.
    destruct (shr (shr_record_of_loc (Zpos m) loc_Exact) e (- e)) as [mrs e'].
    cbn [fst snd] in Hs.
    destruct Hs as (Henc & _ & Hnn); [destruct m; cbn; lia|].
    rewrite rne_enc by assumption. rewrite Henc, enc_loc.
    cbn [lcode cond_Zopp]. rewrite Z.add_0_r, <- T_exact, sh_T by lia.
    rewrite Z2Nat.id, Z.mul_1_l by lia.
    assert (T (Zpos m) (2 ^ (- e)) = T (Zpos m * 2 ^ (e + 1074)) (2 ^ 1074)) as ->.
    { pose proof (pow2_pos (- e) ltac:(lia)). apply T_ext; [lia|lia|].
      rewrite <- Z.mul_assoc, pow2_add by lia. f_equal. f_equal. lia. }
    apply Rep_normalize. apply rintZ_nonneg.
    pose proof (pow2_pos (e + 1074) ltac:(lia)). nia.
Qed.

Lemma RQ_mono_num (N N' D : Z) : 0 <= N <= N' -> 0 < D -> RQ N D <= RQ N' D.
Proof.
  intros HN HD. apply RQ_mono; try lia. apply Z.mul_le_mono_nonneg_r; lia.
Qed.

Lemma Rep_good (x : spec_float) (v : Z) : Rep x v -> good x.
Proof. destruct 1; split; cbn [valid_binary nonneg]; auto. Qed.

Lemma val_nonneg (x : spec_float) : 0 <= val x.
Proof. destruct x as [s|s| |[] m e]; cbn [val]; try lia. Qed.

Lemma Rep_leb_inf (x : spec_float) (v : Z) : Rep x v -> SFleb x (S754_infinity false) = true.
Proof. destruct 1; reflexivity. Qed.

Lemma good_cases (x : spec_float) :
  good x ->
  (exists s, x = S754_zero s) \/ x = S754_infinity false
  \/ exists m e, x = S754_finite false m e /\ bounded prec emax m e = true.
Proof.
  intros [Hv Hn]. destruct x as [s|[]| |[] m e]; cbn [nonneg valid_binary] in *; try contradiction; eauto.
  right; right. eauto.
Qed.

Section Monotone.

Variable F : spec_float -> spec_float.
Variable g : Z -> Z.
Hypothesis g_mono : forall v w, 0 <= v <= w -> g v <= g w.
Hypothesis F_Rep : forall x, good x -> x <> S754_infinity false -> Rep (F x) (g (val x)).
Hypothesis F_inf : F (S754_infinity false) = S754_infinity false.

Lemma Rep_fun_good (x : spec_float) : good x -> good (F x).
Proof.
  intros Hx. destruct (good_cases x Hx) as [[s ->]|[->|(m & e & -> & B)]].
  - eapply Rep_good, F_Rep; [assumption|discriminate].
  - rewrite F_inf. split; exact I || reflexivity.
  - eapply Rep_good, F_Rep; [assumption|discriminate].
Qed.

Lemma Rep_fun_mono (x y : spec_float) :
  good x -> valid_binary y = true -> SFleb x y = true ->
  good y /\ SFleb (F x) (F y) = true.
Proof.
  intros Hx Vy Hle.
  assert (y = S754_infinity false \/ y <> S754_infinity false) as [->|Hy].
  { destruct y as [s|[]| |s m e]; (left; reflexivity) || (right; discriminate). }
  - split; [split; exact I || reflexivity|]. rewrite F_inf.
    destruct (good_cases x Hx) as [[s ->]|[->|(m & e & -> & B)]].
    + eapply Rep_leb_inf, F_Rep; [assumption|discriminate].
    + rewrite F_inf. reflexivity.
    + eapply Rep_leb_inf, F_Rep; [assumption|discriminate].
  - destruct Hx as [Vx Nx].
    destruct (leb_val x y Vx Vy Nx Hy Hle) as (Hxi & Ny & Hv).
    split; [split; assumption|].
    eapply Rep_le; [apply F_Rep; [split|]; assumption|apply F_Rep; [split|]; assumption|].
    apply g_mono. split; [apply val_nonneg|assumption].
Qed.

End Monotone.

(** division and multiplication by a positive constant, and [rint] *)
Lemma div_Rep (mc : positive) (ec : Z) (x : spec_float) :
  bounded prec emax mc ec = true -> good x -> x <> S754_infinity false ->
  Rep (SFdiv prec emax x (S754_finite false mc ec))
      (RQ (val x * 2 ^ 1074) (Zpos mc * 2 ^ (ec + 1074))).
Proof.
  intros Bc Hx Hi. pose proof (bounded_range _ _ Bc) as (He & _ & _).
  pose proof (pow2_pos (ec + 1074) ltac:(lia)).
  destruct (good_cases x Hx) as [[s ->]|[->|(m & e & -> & B)]]; [|congruence|].
  - cbn [SFdiv val]. rewrite Z.mul_0_l, RQ_0 by nia. constructor.
  - cbn [val]. apply Rep_div; assumption.
Qed.

Lemma mul_Rep (mc : positive) (ec : Z) (x : spec_float) :
  bounded prec emax mc ec = true -> good x -> x <> S754_infinity false ->
  Rep (SFmul prec emax x (S754_finite false mc ec))
      (RQ (val x * (Zpos mc * 2 ^ (ec + 1074))) (2 ^ 1074)).
Proof.
  intros Bc Hx Hi. pose proof (pow2_pos 1074 ltac:(lia)).
  destruct (good_cases x Hx) as [[s ->]|[->|(m & e & -> & B)]]; [|congruence|].
  - cbn [SFmul val]. rewrite Z.mul_0_l, RQ_0 by lia. constructor.
  - cbn [val]. apply Rep_mul; assumption.
Qed.

Lemma rint_Rep (x : spec_float) :
  good x -> x <> S754_infinity false ->
  Rep (rintSF x) (RQ (rintZ (val x) * 2 ^ 1074) 1).
Proof.
  intros Hx Hi.
  destruct (good_cases x Hx) as [[s ->]|[->|(m & e & -> & B)]]; [|congruence|].
  - cbn [rintSF val].
    replace (rintZ 0) with 0; [rewrite Z.mul_0_l, RQ_0 by lia; constructor|].
    unfold rintZ, T, rcode. rewrite Z.div_0_l, Z.mod_0_l by (pose proof (pow2_pos 1074); lia).
    reflexivity.
  - cbn [val]. apply Rep_rint; assumption.
Qed.

(** a non-negative float is at most its sum with a non-negative float *)
Lemma add_le (x y : spec_float) :
  good x -> good y -> good (SFadd prec emax x y) /\ SFleb x (SFadd prec emax x y) = true.
Proof.
  intros Hx Hy.
  destruct (good_cases x Hx) as [[s ->]|[->|(m & e & -> & B)]];
    destruct (good_cases y Hy) as [[s' ->]|[->|(m' & e' & -> & B')]].
  - destruct s, s'; split; try reflexivity; split; reflexivity || exact I.
  - split; [assumption|reflexivity].
  - split; [assumption|reflexivity].
  - split; [assumption|reflexivity].
  - split; [assumption|reflexivity].
  - split; [assumption|reflexivity].
  - split; [assumption|]. cbn [SFadd].
    eapply Rep_le; [constructor; eassumption|constructor; eassumption|lia].
  - split; [assumption|reflexivity].
  - pose proof (Rep_add m m' e e' B B') as HR.
    split; [eapply Rep_good; eassumption|].
    eapply Rep_le; [constructor; eassumption|exact HR|].
    pose proof (bounded_range _ _ B) as (He & _ & _).
    pose proof (bounded_range _ _ B') as (He' & _ & _).
    pose proof (pow2_pos (e + 1074) ltac:(lia)). pose proof (pow2_pos (e' + 1074) ltac:(lia)).
    rewrite <- (RQ_canonical (Zpos m) e) at 1 by (try lia; apply bounded_iff; assumption).
    apply RQ_mono_num; nia.
Qed.

(** ** The same facts on the primitive floats *)

Lemma le0_nonneg (x : float) : (0 <=? x)%float = true <-> nonneg (Prim2SF x).
Proof.
  rewrite FloatAxioms.leb_spec. change (Prim2SF 0) with (S754_zero false).
  apply leb_zero_nonneg.
Qed.

Lemma le0_good (x : float) : (0 <=? x)%float = true <-> good (Prim2SF x).
Proof.
  rewrite le0_nonneg. unfold good. pose proof (FloatAxioms.Prim2SF_valid x). tauto.
Qed.

Lemma monotone_compose (f h : float -> float) :
  monotone f -> monotone h -> monotone (fun x => h (f x)).
Proof. intros Hf Hh x y Hx Hxy. destruct (Hf x y Hx Hxy). apply Hh; assumption. Qed.

Lemma monotone_lift (f : float -> float) (F : spec_float -> spec_float) (g : Z -> Z) :
  (forall x, good (Prim2SF x) -> Prim2SF (f x) = F (Prim2SF x)) ->
  (forall v w, 0 <= v <= w -> g v <= g w) ->
  (forall x, good x -> x <> S754_infinity false -> Rep (F x) (g (val x))) ->
  F (S754_infinity false) = S754_infinity false ->
  monotone f.
Proof.
  intros Hf Hg HR Hi x y Hx Hxy.
  apply le0_good in Hx. rewrite FloatAxioms.leb_spec in Hxy.
  destruct (Rep_fun_mono F g Hg HR Hi _ _ Hx (FloatAxioms.Prim2SF_valid y) Hxy) as [Hy Hle].
  split.
  - apply le0_good. rewrite Hf by assumption. apply (Rep_fun_good F g); assumption.
  - rewrite FloatAxioms.leb_spec, !Hf by assumption. exact Hle.
Qed.

Lemma monotone_div (c : float) (mc : positive) (ec : Z) :
  Prim2SF c = S754_finite false mc ec -> monotone (fun x => x / c)%float.
Proof.
  intros Hc. pose proof (FloatAxioms.Prim2SF_valid c) as Bc. rewrite Hc in Bc. cbn in Bc.
  pose proof (bounded_range _ _ Bc) as (He & _ & _).
  pose proof (pow2_pos (ec + 1074) ltac:(lia)). pose proof (pow2_pos 1074 ltac:(lia)).
  apply (monotone_lift _ (fun x => SFdiv prec emax x (S754_finite false mc ec))
           (fun v => RQ (v * 2 ^ 1074) (Zpos mc * 2 ^ (ec + 1074)))).
  - intros x _. rewrite FloatAxioms.div_spec, Hc. reflexivity.
  - intros v w Hvw. apply RQ_mono_num; [split; [nia|apply Z.mul_le_mono_nonneg_r; nia]|nia].
  - intros x Hx Hi. apply div_Rep; assumption.
  - reflexivity.
Qed.

Lemma monotone_mul (c : float) (mc : positive) (ec : Z) :
  Prim2SF c = S754_finite false mc ec -> monotone (fun x => x * c)%float.
Proof.
  intros Hc. pose proof (FloatAxioms.Prim2SF_valid c) as Bc. rewrite Hc in Bc. cbn in Bc.
  pose proof (bounded_range _ _ Bc) as (He & _ & _).
  pose proof (pow2_pos (ec + 1074) ltac:(lia)). pose proof (pow2_pos 1074 ltac:(lia)).
  apply (monotone_lift _ (fun x => SFmul prec emax x (S754_finite false mc ec))
           (fun v => RQ (v * (Zpos mc * 2 ^ (ec + 1074))) (2 ^ 1074))).
  - intros x _. rewrite FloatAxioms.mul_spec, Hc. reflexivity.
  - intros v w Hvw. apply RQ_mono_num; [split; [nia|apply Z.mul_le_mono_nonneg_r; nia]|nia].
  - intros x Hx Hi. apply mul_Rep; assumption.
  - reflexivity.
Qed.

Lemma rint_spec (x : float) : good (Prim2SF x) -> Prim2SF (F64.rint x) = rintSF (Prim2SF x).
Proof.
  intros Hx. unfold F64.rint.
  destruct (good_cases _ Hx) as [[s E]|[E|(m & e & E & B)]]; rewrite E; try exact E.
  pose proof (rint_Rep _ Hx ltac:(rewrite E; discriminate)) as HR. rewrite E in HR.
  apply Rep_good in HR as [HV _]. revert HV.
  cbn [rintSF]. destruct (0 <=? e); [intros _; exact E|].
  destruct (shr _ _ _) as [mrs e'']. intros HV.
  apply FloatAxioms.Prim2SF_SF2Prim. exact HV.
Qed.

Lemma monotone_rint : monotone F64.rint.
Proof.
  apply (monotone_lift _ rintSF (fun v => RQ (rintZ v * 2 ^ 1074) 1)).
  - apply rint_spec.
  - intros v w Hvw. pose proof (pow2_pos 1074 ltac:(lia)).
    pose proof (rintZ_mono v w ltac:(lia)). pose proof (rintZ_nonneg v ltac:(lia)).
    apply RQ_mono_num; [split; [nia|apply Z.mul_le_mono_nonneg_r; nia]|nia].
  - apply rint_Rep.
  - reflexivity.
Qed.

Lemma of_Z_mono (a b : Z) :
  0 <= a <= b -> (0 <=? F64.of_Z a)%float = true /\ (F64.of_Z a <=? F64.of_Z b)%float = true.
Proof.
  intros Hab. pose proof (pow2_pos 1074 ltac:(lia)).
  pose proof (Rep_normalize a false ltac:(lia)) as Ha.
  pose proof (Rep_normalize b false ltac:(lia)) as Hb.
  pose proof (Rep_good _ _ Ha) as Ga. pose proof (Rep_good _ _ Hb) as [Vb _].
  unfold F64.of_Z. split.
  - apply le0_good. rewrite FloatAxioms.Prim2SF_SF2Prim by apply Ga. exact Ga.
  - rewrite FloatAxioms.leb_spec, !FloatAxioms.Prim2SF_SF2Prim by (apply Ga || exact Vb).
    eapply Rep_le; [exact Ha|exact Hb|]. apply RQ_mono_num; [split; [nia|apply Z.mul_le_mono_nonneg_r; nia]|nia].
Qed.

Lemma add_nonneg_le (x y : float) :
  (0 <=? x)%float = true -> (0 <=? y)%float = true ->
  (0 <=? x + y)%float = true /\ (x <=? x + y)%float = true.
Proof.
  intros Hx%le0_good Hy%le0_good.
  destruct (add_le _ _ Hx Hy) as [Hg Hle].
  split.
  - apply le0_good. rewrite FloatAxioms.add_spec. exact Hg.
  - rewrite FloatAxioms.leb_spec, FloatAxioms.add_spec. exact Hle.
Qed.

End RndFacts.

Lemma sorted_by_cons {A} (le : A -> A -> bool) (a b : A) (rest : list A) :
  sorted_by le (a :: b :: rest) = le a b && sorted_by le (b :: rest).
Proof. reflexivity. Qed.

(** Sorted means: each entry is in the order with the next one. *)
Lemma sorted_by_adjacent {A} (le : A -> A -> bool) (xs : list A) :
  sorted_by le xs = true <->
  (forall (i : nat) (a b : A), xs !! i = Some a -> xs !! S i = Some b -> le a b = true).
Proof.
  induction xs as [|x [|y xs] IH].
  - split; [intros _ i a b Hi; discriminate Hi|reflexivity].
  - split; [intros _ i a b Hi HS; discriminate HS|reflexivity].
  - rewrite sorted_by_cons, andb_true_iff, IH. split.
    + intros [Hxy Hrest] [|i] a b Hi HS.
      * injection Hi as <-. injection HS as <-. exact Hxy.
      * exact (Hrest i a b Hi HS).
    + intros Hall. split; [exact (Hall 0%nat x y eq_refl eq_refl)|].
      intros i a b Hi HS. exact (Hall (S i) a b Hi HS).
Qed.

(** ** The sign of the results *)

Lemma round_aux_sign (m e : Z) (l : location) :
  binary_round_aux prec emax false m e l <> S754_zero true.
Proof.
  unfold binary_round_aux.
  destruct (shr_fexp _ _ _ _ _) as [mrs' e'].
  destruct (shr_fexp _ _ _ _ _) as [mrs'' e''].
  destruct (shr_m mrs''); [discriminate| |discriminate].
  destruct (_ <=? _); discriminate.
Qed.

Lemma normalize_sign (z e : Z) : 0 <= z -> binary_normalize prec emax z e false <> S754_zero true.
Proof.
  intros Hz. destruct z as [|p|p]; try lia; cbn [binary_normalize]; [discriminate|].
  unfold binary_round. destruct (shl_align _ _ _) as [mz ez]. apply round_aux_sign.
Qed.

Lemma plusSF_nonneg (x : spec_float) : plusSF x = true -> Rnd.nonneg x.
Proof. destruct x as [[]|[]| |[] m e]; cbn; auto; discriminate. Qed.

Lemma plusSF_of_Rep (r : spec_float) (v : Z) :
  Rnd.Rep r v -> r <> S754_zero true -> plusSF r = true.
Proof. intros HR H. destruct HR as [[]|m e B|w Hw]; try reflexivity. congruence. Qed.

Lemma is_plus_le0 (x : float) : is_plus x = true -> (0 <=? x)%float = true.
Proof. intros H. apply RndFacts.le0_nonneg, plusSF_nonneg, H. Qed.

Lemma is_plus_good (x : float) : is_plus x = true -> Rnd.good (Prim2SF x).
Proof. intros H. apply RndFacts.le0_good, is_plus_le0, H. Qed.

Lemma is_plus_div (c x : float) (mc : positive) (ec : Z) :
  Prim2SF c = S754_finite false mc ec -> is_plus x = true -> is_plus (x / c) = true.
Proof.
  intros Hc Hx. pose proof (FloatAxioms.Prim2SF_valid c) as Bc. rewrite Hc in Bc. cbn in Bc.
  pose proof (is_plus_good x Hx) as Hg.
  unfold is_plus in *. rewrite FloatAxioms.div_spec, Hc.
  destruct (Prim2SF x) as [[]|[]| |[] m e] eqn:E; try discriminate; try reflexivity.
  eapply plusSF_of_Rep.
  - apply (RndFacts.div_Rep mc ec _ Bc Hg). discriminate.
  - unfold SF64div, SFdiv. destruct (SFdiv_core_binary _ _ _ _ _ _) as [[q e'] l].
    apply round_aux_sign.
Qed.

Lemma is_plus_mul (c x : float) (mc : positive) (ec : Z) :
  Prim2SF c = S754_finite false mc ec -> is_plus x = true -> is_plus (x * c) = true.
Proof.
  intros Hc Hx. pose proof (FloatAxioms.Prim2SF_valid c) as Bc. rewrite Hc in Bc. cbn in Bc.
  pose proof (is_plus_good x Hx) as Hg.
  unfold is_plus in *. rewrite FloatAxioms.mul_spec, Hc.
  destruct (Prim2SF x) as [[]|[]| |[] m e] eqn:E; try discriminate; try reflexivity.
  eapply plusSF_of_Rep.
  - apply (RndFacts.mul_Rep mc ec _ Bc Hg). discriminate.
  - unfold SF64mul, SFmul. apply round_aux_sign.
Qed.

Lemma is_plus_rint (x : float) : is_plus x = true -> is_plus (F64.rint x) = true.
Proof.
  intros Hx. pose proof (is_plus_good x Hx) as Hg.
  unfold is_plus in *. rewrite RndFacts.rint_spec by assumption.
  destruct (Prim2SF x) as [[]|[]| |[] m e] eqn:E; try discriminate; try reflexivity.
  eapply plusSF_of_Rep.
  - apply (RndFacts.rint_Rep _ Hg). discriminate.
  - cbn [Rnd.rintSF]. destruct (0 <=? e); [discriminate|].
    pose proof (RndFacts.shr_enc (shr_record_of_loc (Zpos m) loc_Exact) e (- e)) as Hs.
    destruct (shr _ _ _) as [mrs e'']. cbn [fst snd cond_Zopp] in *.
    destruct Hs as (_ & _ & Hnn); [cbn; lia|].
    apply normalize_sign. rewrite RndFacts.rne_enc by assumption.
    pose proof (RndFacts.rne_bounds (Rnd.enc mrs)) as Hb.
    rewrite RndFacts.enc_mant in Hb. lia.
Qed.

Lemma is_plus_of_Z (z : Z) : 0 <= z -> is_plus (F64.of_Z z) = true.
Proof.
  intros Hz. pose proof (RndFacts.Rep_normalize z false Hz) as HR.
  unfold is_plus, F64.of_Z.
  rewrite FloatAxioms.Prim2SF_SF2Prim by (apply (RndFacts.Rep_good _ _ HR)).
  eapply plusSF_of_Rep; [exact HR|apply normalize_sign; assumption].
Qed.

Lemma is_plus_add (x y : float) :
  is_plus x = true -> (0 <=? y)%float = true -> is_plus (x + y) = true.
Proof.
  intros Hx Hy. apply RndFacts.le0_good in Hy. pose proof (is_plus_good x Hx) as [Vx _].
  unfold is_plus in *. rewrite FloatAxioms.add_spec.
  destruct (RndFacts.good_cases _ Hy) as [[s' Ey]|[Ey|(m' & e' & Ey & B')]]; rewrite Ey;
    destruct (Prim2SF x) as [[]|[]| |[] m e] eqn:E; try discriminate; try reflexivity.
  - destruct s'; reflexivity.
  - cbn [valid_binary] in Vx.
    eapply plusSF_of_Rep; [apply (RndFacts.Rep_add m m' e e' Vx B')|].
    unfold SF64add, SFadd. cbn [cond_Zopp]. apply normalize_sign. lia.
Qed.

(** ** The largest entry of a non-decreasing column is its last one *)

Lemma leb_not_ltb_eq (a b : float) :
  is_plus a = true -> is_plus b = true ->
  (a <=? b)%float = true -> (a <? b)%float = false -> a = b.
Proof.
  unfold is_plus. rewrite FloatAxioms.leb_spec, FloatAxioms.ltb_spec.
  intros Ha Hb Hle Hlt. apply FloatAxioms.Prim2SF_inj.
  destruct (Prim2SF a) as [[]|[]| |[] m e], (Prim2SF b) as [[]|[]| |[] m' e'];
    try discriminate; try reflexivity.
  unfold SFleb, SFltb, SFcompare in *.
  destruct (Z.compare_spec e e') as [->|Hl|Hg]; try discriminate.
  change (Pos.compare_cont Eq m m') with (Pos.compare m m') in *.
  destruct (Pos.compare_spec m m') as [->|Hl|Hg]; try discriminate. reflexivity.
Qed.

Lemma fmax_sorted (a b : float) :
  is_plus a = true -> is_plus b = true -> (a <=? b)%float = true -> Pd.fmax a b = b.
Proof.
  intros Ha Hb Hle. unfold Pd.fmax. destruct (a <? b)%float eqn:Hlt; [reflexivity|].
  apply leb_not_ltb_eq; assumption.
Qed.

Lemma is_plus_notna (x : float) : is_plus x = true -> Pd.notna x = true.
Proof.
  intros H%is_plus_le0. unfold Pd.notna. rewrite (proj2 (leb_not_nan _ _ H)). reflexivity.
Qed.

Lemma fold_fmax_sorted (a : float) (rest : list float) :
  Forall (fun x => is_plus x = true) (a :: rest) -> nondecreasing (a :: rest) = true ->
  last (a :: rest) = Some (fold_left Pd.fmax rest a).
Proof.
  revert a; induction rest as [|b rest IH]; intros a Hall Hs; [reflexivity|].
  unfold nondecreasing in *. rewrite sorted_by_cons in Hs. apply andb_prop in Hs as [Hab Hs].
  pose proof (Forall_inv Hall) as Ha. pose proof (Forall_inv_tail Hall) as Hall'.
  pose proof (Forall_inv Hall') as Hb.
  cbn [fold_left]. rewrite (fmax_sorted a b Ha Hb Hab).
  rewrite <- (IH b Hall' Hs). reflexivity.
Qed.

Lemma filter_notna_plus (xs : list float) :
  Forall (fun x => is_plus x = true) xs -> List.filter Pd.notna xs = xs.
Proof.
  induction 1 as [|x xs Hx _ IH]; [reflexivity|].
  cbn [List.filter]. rewrite (is_plus_notna x Hx), IH. reflexivity.
Qed.

Lemma max_nondecreasing (xs : list float) (x : float) :
  Forall (fun x => is_plus x = true) xs -> nondecreasing xs = true ->
  last xs = Some x -> Pd.max xs = x.
Proof.
  intros Hall Hs Hl. unfold Pd.max. rewrite (filter_notna_plus xs Hall).
  destruct xs as [|a rest]; [discriminate|].
  rewrite (fold_fmax_sorted a rest Hall Hs) in Hl. congruence.
Qed.

(** ** The running sum and the elapsed minutes *)

Lemma cumsum_from_sorted (acc : float) (xs : list float) :
  is_plus acc = true ->
  Forall (fun x => (0 <=? x)%float = true) xs ->
  Forall (fun x => is_plus x = true) (acc :: Pd.cumsum_from acc xs)
  /\ nondecreasing (acc :: Pd.cumsum_from acc xs) = true.
Proof.
  intros Hacc Hxs; revert acc Hacc; induction Hxs as [|x xs Hx _ IH]; intros acc Hacc.
  - split; [repeat constructor; assumption|reflexivity].
  - cbn [Pd.cumsum_from]. rewrite (proj2 (leb_not_nan _ _ Hx)).
    destruct (RndFacts.add_nonneg_le acc x (is_plus_le0 _ Hacc) Hx) as [_ Hle].
    destruct (IH (acc + x)%float (is_plus_add _ _ Hacc Hx)) as [Hall Hs].
    split; [constructor; assumption|].
    unfold nondecreasing in *. rewrite sorted_by_cons, Hle. exact Hs.
Qed.

Lemma monotone_minutes :
  Rnd.monotone (fun x => F64.rint (x / 1e9 / 60 * 100) / 100)%float.
Proof.
  apply (RndFacts.monotone_compose (fun x => F64.rint (x / 1e9 / 60 * 100))%float
           (fun x => x / 100)%float); [|eapply RndFacts.monotone_div; reflexivity].
  apply (RndFacts.monotone_compose (fun x => x / 1e9 / 60 * 100)%float F64.rint);
    [|apply RndFacts.monotone_rint].
  apply (RndFacts.monotone_compose (fun x => x / 1e9 / 60)%float (fun x => x * 100)%float);
    [|eapply RndFacts.monotone_mul; reflexivity].
  apply (RndFacts.monotone_compose (fun x => x / 1e9)%float (fun x => x / 60)%float);
    eapply RndFacts.monotone_div; reflexivity.
Qed.

(** Elapsed minutes keep the order of the nanosecond counts they are
    computed from: conversion to a float, the divisions by 1e9 and 60, and
    the rounding to two decimals all do. *)
Lemma minutes_mono (a b : Z) :
  0 <= a <= b ->
  (F64.round2 (Pd.total_seconds a / 60) <=? F64.round2 (Pd.total_seconds b / 60))%float = true.
Proof.
  intros Hab. destruct (RndFacts.of_Z_mono a b Hab) as [H0 Hle].
  exact (proj2 (monotone_minutes _ _ H0 Hle)).
Qed.

Lemma minutes_plus (a : Z) :
  0 <= a -> is_plus (F64.round2 (Pd.total_seconds a / 60)) = true.
Proof.
  intros Ha. unfold F64.round2, Pd.total_seconds.
  eapply is_plus_div; [reflexivity|]. apply is_plus_rint.
  eapply is_plus_mul; [reflexivity|].
  eapply is_plus_div; [reflexivity|]. eapply is_plus_div; [reflexivity|].
  apply is_plus_of_Z, Ha.
Qed.

Section Monotonicity.
Context {L : Libraries}.

Lemma duration_of_Ok (t0 t : Datetime.datetime) (d : float) :
  duration_of t0 t = Py.Ok d ->
  d = F64.round2 (Pd.total_seconds (Pd.to_ns t - Pd.to_ns t0) / 60).
Proof.
  unfold duration_of. destruct (Pd.in_ns_bounds _); [|discriminate].
  intros H. symmetry. exact (Ok_inj _ _ H).
Qed.

Lemma for_each_cons_Ok {A B} (f : A -> Py.result B) (x : A) (xs : list A) (ys : list B) :
  Py.for_each f (x :: xs) = Py.Ok ys ->
  exists y ys', ys = y :: ys' /\ f x = Py.Ok y /\ Py.for_each f xs = Py.Ok ys'.
Proof.
  cbn [Py.for_each]. destruct (f x) as [y|e]; [|discriminate]. cbn [Py.bind].
  destruct (Py.for_each f xs) as [ys'|e]; [|discriminate]. cbn [Py.bind].
  intros H. apply Ok_inj in H as <-. eauto.
Qed.

Lemma durations_sorted (t0 s : Datetime.datetime) (ts : list Datetime.datetime)
    (dur : list float) :
  Datetime.to_micros t0 <= Datetime.to_micros s ->
  ordered_by_timestamp (s :: ts) = true ->
  Py.for_each (duration_of t0) (s :: ts) = Py.Ok dur ->
  Forall (fun x => is_plus x = true) dur /\ nondecreasing dur = true.
Proof.
  revert s dur; induction ts as [|t ts IH]; intros s dur H0 Hord Hdur;
    apply for_each_cons_Ok in Hdur as (d & ds & -> & Hd%duration_of_Ok & Hds).
  - apply Ok_inj in Hds as <-. split; [|reflexivity].
    repeat constructor. subst d. apply minutes_plus. unfold Pd.to_ns. lia.
  - unfold ordered_by_timestamp in Hord. rewrite sorted_by_cons in Hord.
    apply andb_prop in Hord as [Hst%Z.leb_le Hord].
    destruct (IH t ds ltac:(lia) Hord Hds) as [Hall Hs].
    apply for_each_cons_Ok in Hds as (d' & ds' & -> & Hd'%duration_of_Ok & _).
    split.
    + constructor; [|assumption]. subst d. apply minutes_plus. unfold Pd.to_ns. lia.
    + unfold nondecreasing in *. rewrite sorted_by_cons, Hs, andb_true_r.
      subst d d'. apply minutes_mono. unfold Pd.to_ns. lia.
Qed.

Lemma cumulative_sorted (data_text : string) (df : Df.t) :
  (forall p q d, geodesic_km p q = Py.Ok d -> (0 <=? d)%float = true) ->
  load_and_process_data data_text = Py.Ok df ->
  Forall (fun x => is_plus x = true) (Df.cumulative_distance df)
  /\ nondecreasing (Df.cumulative_distance df) = true
  /\ Df.cumulative_distance df <> [].
Proof.
  intros Hgeo H.
  destruct (load_inv _ _ H) as (rows & dur & dist & Hrows & Hdur & Hdist & ->).
  pose proof (parse_lines_not_nil _ _ Hrows) as Hne.
  destruct rows as [|r rows]; [congruence|]. cbn [Df.cumulative_distance].
  cbn in Hdist. apply bind_Ok_inv in Hdist as (ds & Hds & Hd). apply Ok_inj in Hd as <-.
  destruct (cumsum_from_sorted 0 ds eq_refl) as [Hall Hs].
  { eapply segments_Forall; eauto. }
  repeat split; [exact Hall|exact Hs|discriminate].
Qed.

Lemma duration_column_Ok (ts : list Datetime.datetime) (dur : list float) :
  duration_column ts = Py.Ok dur ->
  exists t0, ts !! 0%nat = Some t0 /\ Py.for_each (duration_of t0) ts = Py.Ok dur.
Proof.
  unfold duration_column, Py.index. destruct (ts !! 0%nat) as [t0|]; [|discriminate].
  cbn [Py.of_option mbind result_bind Py.bind].
  destruct (forallb _ ts); [|discriminate]. intros H. exists t0. split; [reflexivity|exact H].
Qed.

Lemma elapsed_sorted (data_text : string) (df : Df.t) :
  load_and_process_data data_text = Py.Ok df ->
  ordered_by_timestamp (Df.timestamp df) = true ->
  Forall (fun x => is_plus x = true) (Df.duration_minutes df)
  /\ nondecreasing (Df.duration_minutes df) = true
  /\ Df.duration_minutes df <> [].
Proof.
  intros H Hord.
  destruct (load_inv _ _ H) as (rows & dur & dist & Hrows & Hdur & Hdist & ->).
  pose proof (parse_lines_not_nil _ _ Hrows) as Hne.
  cbn [Df.timestamp Df.duration_minutes] in *.
  apply duration_column_Ok in Hdur as (t0 & Ht0 & Hdur).
  destruct (map Rec.timestamp rows) as [|s ts] eqn:E; [discriminate|].
  injection Ht0 as ->.
  destruct (durations_sorted _ _ _ _ (Z.le_refl _) Hord Hdur) as [Hall Hs].
  repeat split; [exact Hall|exact Hs|].
  apply for_each_cons_Ok in Hdur as (d & ds & -> & _). discriminate.
Qed.

(** X1. Geopy's distances being non-negative, the cumulative distance never
    decreases from one record to the next, whatever the stamps are, and no
    entry is negative or NaN. *)
Theorem cumulative_distance_never_decreases (data_text : string) (df : Df.t) :
  (forall p q d, geodesic_km p q = Py.Ok d -> (0 <=? d)%float = true) ->
  load_and_process_data data_text = Py.Ok df ->
  nondecreasing (Df.cumulative_distance df) = true
  /\ Forall (fun c => (0 <=? c)%float = true) (Df.cumulative_distance df).
Proof.
  intros Hgeo H. destruct (cumulative_sorted _ _ Hgeo H) as (Hall & Hs & _).
  split; [exact Hs|]. eapply Forall_impl; [exact Hall|]. intros x. apply is_plus_le0.
Qed.

(** X2. When the stamps of the input are in time order, the elapsed minutes
    never decrease from one record to the next, and none is negative or
    NaN: the rounding of the seconds, of the two quotients and of
    [round(2)] keeps the order. *)
Theorem elapsed_minutes_follow_time_order (data_text : string) (df : Df.t) :
  load_and_process_data data_text = Py.Ok df ->
  ordered_by_timestamp (Df.timestamp df) = true ->
  nondecreasing (Df.duration_minutes df) = true
  /\ Forall (fun m => (0 <=? m)%float = true) (Df.duration_minutes df).
Proof.
  intros H Hord. destruct (elapsed_sorted _ _ H Hord) as (Hall & Hs & _).
  split; [exact Hs|]. eapply Forall_impl; [exact Hall|]. intros x. apply is_plus_le0.
Qed.

(** C7. Geopy's distances being non-negative, the cumulative distance of
    each record is at most that of the next one, whatever the stamps are;
    and when each stamp of the input is at most the next one, so are the
    elapsed minutes. *)
Theorem derived_sequences_are_monotone (data_text : string) (df : Df.t) :
  (forall p q d, geodesic_km p q = Py.Ok d -> (0 <=? d)%float = true) ->
  load_and_process_data data_text = Py.Ok df ->
  (forall (i : nat) (a b : float),
      Df.cumulative_distance df !! i = Some a ->
      Df.cumulative_distance df !! S i = Some b -> (a <=? b)%float = true)
  /\ ((forall (i : nat) (s t : Datetime.datetime),
          Df.timestamp df !! i = Some s -> Df.timestamp df !! S i = Some t ->
          Datetime.to_micros s <= Datetime.to_micros t) ->
      forall (i : nat) (a b : float),
        Df.duration_minutes df !! i = Some a ->
        Df.duration_minutes df !! S i = Some b -> (a <=? b)%float = true).
Proof.
  intros Hgeo H. split.
  - destruct (cumulative_sorted _ _ Hgeo H) as (_ & Hs & _).
    apply sorted_by_adjacent, Hs.
  - intros Hord.
    assert (ordered_by_timestamp (Df.timestamp df) = true) as Ho.
    { apply sorted_by_adjacent. intros i s t Hi HS. apply Z.leb_le. exact (Hord i s t Hi HS). }
    destruct (elapsed_sorted _ _ H Ho) as (_ & Hs & _).
    apply sorted_by_adjacent, Hs.
Qed.

(** X3. Geopy's distances being non-negative, the maximum of the cumulative
    distance, which [main] takes three times, is the cumulative distance of
    the last record: that is the total distance shown, and the fuel and CO2
    estimates are computed from it. With stamps in time order the total
    duration is the elapsed time of the last record, over 60. *)
Theorem totals_are_final_values (data_text : string) (df : Df.t) :
  (forall p q d, geodesic_km p q = Py.Ok d -> (0 <=? d)%float = true) ->
  load_and_process_data data_text = Py.Ok df ->
  exists total : float,
    last (Df.cumulative_distance df) = Some total
    /\ Pd.max (Df.cumulative_distance df) = total
    /\ snd (fst (journey_overview df)) = total
    /\ environmental_impact df = (total * 0.08, total * 0.08 * 2.31)%float
    /\ (ordered_by_timestamp (Df.timestamp df) = true ->
        exists final : float,
          last (Df.duration_minutes df) = Some final
          /\ fst (fst (journey_overview df)) = (final / 60)%float).
Proof.
  intros Hgeo H. destruct (cumulative_sorted _ _ Hgeo H) as (Hall & Hs & Hne).
  destruct (last_is_Some _ Hne) as [total Hl]. exists total.
  pose proof (max_nondecreasing _ _ Hall Hs Hl) as Hmax.
  unfold journey_overview, environmental_impact. cbn [fst snd]. rewrite Hmax.
  repeat split; auto.
  intros Hord. destruct (elapsed_sorted _ _ H Hord) as (Hall' & Hs' & Hne').
  destruct (last_is_Some _ Hne') as [final Hl']. exists final.
  rewrite (max_nondecreasing _ _ Hall' Hs' Hl'). auto.
Qed.

End Monotonicity.

Lemma cumulative_distance_never_decreases_witness :
  exists df, @load_and_process_data python three_samples = Py.Ok df
             /\ nondecreasing (Df.cumulative_distance df) = true.
Proof.
  eexists. split; [vm_compute; reflexivity|].
  eapply (@cumulative_distance_never_decreases python three_samples).
  - exact flat_geodesic_nonneg.
  - vm_compute; reflexivity.
Defined.

Lemma elapsed_minutes_follow_time_order_witness :
  exists df, @load_and_process_data python three_samples = Py.Ok df
             /\ nondecreasing (Df.duration_minutes df) = true.
Proof.
  eexists. split; [vm_compute; reflexivity|].
  eapply (@elapsed_minutes_follow_time_order python three_samples);
    vm_compute; reflexivity.
Defined.

Lemma derived_sequences_are_monotone_witness :
  exists df a b c d,
    @load_and_process_data python three_samples = Py.Ok df
    /\ Df.cumulative_distance df !! 1%nat = Some a
    /\ Df.cumulative_distance df !! 2%nat = Some b /\ (a <=? b)%float = true
    /\ Df.duration_minutes df !! 1%nat = Some c
    /\ Df.duration_minutes df !! 2%nat = Some d /\ (c <=? d)%float = true.
Proof.
  eassert (@load_and_process_data python three_samples = Py.Ok _) as Hl
    by (vm_compute; reflexivity).
  destruct (@derived_sequences_are_monotone python three_samples _ flat_geodesic_nonneg Hl)
    as [Hcum Hdur].
  match type of Hl with
  | _ = Py.Ok ?d =>
      assert (forall (i : nat) (s t : Datetime.datetime),
                 Df.timestamp d !! i = Some s -> Df.timestamp d !! S i = Some t ->
                 Datetime.to_micros s <= Datetime.to_micros t) as Hord
  end.
  { intros i s t Hi HS. apply Z.leb_le.
    refine (proj1 (sorted_by_adjacent
                     (fun s t => Datetime.to_micros s <=? Datetime.to_micros t) _) _ i s t Hi HS).
    vm_compute; reflexivity. }
  do 5 eexists. split; [exact Hl|].
  split; [vm_compute; reflexivity|]. split; [vm_compute; reflexivity|].
  split; [eapply (Hcum 1%nat); vm_compute; reflexivity|].
  split; [vm_compute; reflexivity|]. split; [vm_compute; reflexivity|].
  eapply (Hdur Hord 1%nat); vm_compute; reflexivity.
Defined.

Lemma totals_are_final_values_witness :
  exists df total, @load_and_process_data python three_samples = Py.Ok df
             /\ last (Df.cumulative_distance df) = Some total
             /\ Pd.max (Df.cumulative_distance df) = total.
Proof.
  eexists.
  edestruct (@totals_are_final_values python three_samples) as (total & Hl & Hm & _);
    [exact flat_geodesic_nonneg|vm_compute; reflexivity|].
  exists total. split; [vm_compute; reflexivity|]. split; [exact Hl|exact Hm].
Defined.

(** ** Speeds and estimates *)

Lemma leb_refl_not_nan (x : float) : PrimFloat.is_nan x = false -> (x <=? x)%float = true.
Proof.
  intros H. rewrite FloatAxioms.leb_spec. unfold SFleb.
  rewrite SFcompare_refl; [reflexivity|]. intros E%is_nan_Prim2SF. congruence.
Qed.

Section Estimates.
Context {L : Libraries}.

Lemma distances_nonneg (data_text : string) (df : Df.t) :
  (forall p q d, geodesic_km p q = Py.Ok d -> (0 <=? d)%float = true) ->
  load_and_process_data data_text = Py.Ok df ->
  Forall (fun d => (0 <=? d)%float = true) (Df.distance_km df).
Proof.
  intros Hgeo H.
  destruct (load_inv _ _ H) as (rows & dur & dist & Hrows & Hdur & Hdist & ->).
  cbn [Df.distance_km]. unfold distance_column in Hdist.
  destruct (combine _ _) as [|c0 rest]; [apply Ok_inj in Hdist as <-; constructor|].
  apply bind_Ok_inv in Hdist as (ds & Hds & Hd). apply Ok_inj in Hd as <-.
  constructor; [reflexivity|]. eapply segments_Forall; eauto.
Qed.

(** X5. Geopy's distances being non-negative, no speed is negative or NaN, and
    the division by [10/60] keeps the order of the segments: a longer
    segment never gets a lower speed. *)
Theorem speeds_keep_the_order_of_distances (data_text : string) (df : Df.t) :
  (forall p q d, geodesic_km p q = Py.Ok d -> (0 <=? d)%float = true) ->
  load_and_process_data data_text = Py.Ok df ->
  Forall (fun v => (0 <=? v)%float = true) (Df.speed_kmh df)
  /\ (forall (i j : nat) (di dj vi vj : float),
        Df.distance_km df !! i = Some di -> Df.distance_km df !! j = Some dj ->
        Df.speed_kmh df !! i = Some vi -> Df.speed_kmh df !! j = Some vj ->
        (di <=? dj)%float = true -> (vi <=? vj)%float = true).
Proof.
  intros Hgeo H. pose proof (distances_nonneg _ _ Hgeo H) as Hd.
  assert (Rnd.monotone (fun d => d / (10 / 60))%float) as Hm
    by (eapply RndFacts.monotone_div; reflexivity).
  destruct (load_inv _ _ H) as (rows & dur & dist & Hrows & Hdur & Hdist & ->).
  cbn [Df.distance_km Df.speed_kmh] in *. unfold speed_column. split.
  - apply Forall_fmap. eapply Forall_impl; [exact Hd|].
    intros d H0. cbn. apply (Hm d d H0). apply leb_refl_not_nan, (leb_not_nan _ _ H0).
  - intros i j di dj vi vj Hi Hj Hvi Hvj Hle.
    rewrite list_lookup_fmap, Hi in Hvi. rewrite list_lookup_fmap, Hj in Hvj.
    cbn in Hvi, Hvj. apply Some_inj in Hvi as <-. apply Some_inj in Hvj as <-.
    rewrite Forall_lookup in Hd. apply (Hm di dj (Hd _ _ Hi) Hle).
Qed.

(** X6. The fuel and CO2 estimates are never negative or NaN, and they grow
    with the total distance: of two journeys, the one with the larger total
    never gets the smaller estimate, the two roundings notwithstanding. *)
Theorem estimates_grow_with_distance (text1 text2 : string) (df1 df2 : Df.t) :
  (forall p q d, geodesic_km p q = Py.Ok d -> (0 <=? d)%float = true) ->
  load_and_process_data text1 = Py.Ok df1 ->
  load_and_process_data text2 = Py.Ok df2 ->
  (0 <=? fst (environmental_impact df1))%float = true
  /\ (0 <=? snd (environmental_impact df1))%float = true
  /\ ((Pd.max (Df.cumulative_distance df1) <=? Pd.max (Df.cumulative_distance df2))%float = true ->
      (fst (environmental_impact df1) <=? fst (environmental_impact df2))%float = true
      /\ (snd (environmental_impact df1) <=? snd (environmental_impact df2))%float = true).
Proof.
  intros Hgeo H1 H2.
  assert (Rnd.monotone (fun x => x * 0.08)%float) as Hf
    by (eapply RndFacts.monotone_mul; reflexivity).
  assert (Rnd.monotone (fun x => x * 2.31)%float) as Hc
    by (eapply RndFacts.monotone_mul; reflexivity).
  assert ((0 <=? Pd.max (Df.cumulative_distance df1))%float = true) as H0.
  { destruct (cumulative_sorted _ _ Hgeo H1) as (Hall & Hs & Hne).
    destruct (last_is_Some _ Hne) as [total Hl].
    rewrite (max_nondecreasing _ _ Hall Hs Hl). apply is_plus_le0.
    rewrite Forall_lookup in Hall. rewrite last_lookup in Hl. exact (Hall _ _ Hl). }
  unfold environmental_impact. cbn [fst snd].
  set (t1 := Pd.max (Df.cumulative_distance df1)) in *.
  set (t2 := Pd.max (Df.cumulative_distance df2)).
  pose proof (leb_refl_not_nan t1 (proj2 (leb_not_nan _ _ H0))) as Hr.
  destruct (Hf t1 t1 H0 Hr) as [Hf0 _].
  split; [exact Hf0|]. split.
  { apply (Hc _ (t1 * 0.08)%float Hf0), leb_refl_not_nan, (leb_not_nan _ _ Hf0). }
  intros Hle. destruct (Hf t1 t2 H0 Hle) as [_ Hfle].
  split; [exact Hfle|]. apply (Hc _ _ Hf0 Hfle).
Qed.

Lemma zero_div_pos (x : float) : (0 <? x)%float = true -> (0 / x)%float = 0%float.
Proof.
  rewrite FloatAxioms.ltb_spec. intros H. apply FloatAxioms.Prim2SF_inj.
  rewrite FloatAxioms.div_spec.
  destruct (Prim2SF x) as [[]|[]| |[] m e]; try discriminate; reflexivity.
Qed.

(** X9. A journey that ends where it began and has covered some distance
    scores 0 and gets the advice to take more direct routes: geopy gives 0
    for a point and itself, and 0 over a positive total is 0. *)
Theorem round_trip_scores_zero (df : Df.t) (lat lon : float) :
  Py.index (Df.latitude df) 0 = Py.Ok lat -> iloc_last (Df.latitude df) = Py.Ok lat ->
  Py.index (Df.longitude df) 0 = Py.Ok lon -> iloc_last (Df.longitude df) = Py.Ok lon ->
  geodesic_km (lat, lon) (lat, lon) = Py.Ok 0%float ->
  (0 <? Pd.max (Df.cumulative_distance df))%float = true ->
  route_efficiency_analysis df = Py.Ok (0%float, true).
Proof.
  intros Hlat0 Hlat1 Hlon0 Hlon1 Hgeo Hpos. unfold route_efficiency_analysis.
  rewrite Hlat0, Hlon0, Hlat1, Hlon1. cbn [mbind result_bind Py.bind].
  rewrite Hgeo. cbn [mbind result_bind Py.bind mret result_ret]. cbv beta zeta.
  rewrite (zero_div_pos _ Hpos). reflexivity.
Qed.

End Estimates.

(** ** The shape of the tables *)

Lemma rectangular_spec (df : Df.t) :
  rectangular df = true <->
  length (Df.timestamp df) = Df.len df /\ length (Df.latitude df) = Df.len df
  /\ length (Df.longitude df) = Df.len df /\ length (Df.date df) = Df.len df
  /\ length (Df.time df) = Df.len df /\ length (Df.hour df) = Df.len df
  /\ length (Df.minute df) = Df.len df /\ length (Df.duration_minutes df) = Df.len df
  /\ length (Df.distance_km df) = Df.len df
  /\ length (Df.cumulative_distance df) = Df.len df
  /\ length (Df.speed_kmh df) = Df.len df.
Proof.
  unfold rectangular. cbv zeta. rewrite !andb_true_iff, !Nat.eqb_eq. tauto.
Qed.

Lemma select_same_length {A B} (mask : list bool) (xs : list A) (ys : list B) :
  length xs = length ys -> length (Pd.select mask xs) = length (Pd.select mask ys).
Proof.
  revert xs ys; induction mask as [|b mask IH]; intros [|x xs] [|y ys] H;
    try discriminate; try reflexivity.
  cbn [Pd.select]. injection H as H. destruct b; cbn [length]; auto.
Qed.

Lemma select_le {A} (mask : list bool) (xs : list A) :
  (length (Pd.select mask xs) <= length xs)%nat.
Proof.
  revert xs; induction mask as [|b mask IH]; intros [|x xs]; cbn [Pd.select length]; try lia.
  specialize (IH xs). destruct b; cbn [length]; lia.
Qed.

Lemma rectangular_filter (mask : list bool) (df : Df.t) :
  rectangular df = true -> rectangular (Df.filter mask df) = true.
Proof.
  rewrite !rectangular_spec. unfold Df.len, Df.filter.
  cbn [Df.index Df.timestamp Df.latitude Df.longitude Df.date Df.time Df.hour Df.minute
       Df.duration_minutes Df.distance_km Df.cumulative_distance Df.speed_kmh].
  intros (H1 & H2 & H3 & H4 & H5 & H6 & H7 & H8 & H9 & H10 & H11).
  repeat split; apply select_same_length; assumption.
Qed.

Section Shape.
Context {L : Libraries}.

Lemma load_rectangular (data_text : string) (df : Df.t) :
  load_and_process_data data_text = Py.Ok df -> rectangular df = true.
Proof.
  intros H.
  destruct (load_inv _ _ H) as (rows & dur & dist & Hrows & Hdur & Hdist & ->).
  apply rectangular_spec. unfold Df.len.
  cbn [Df.index Df.timestamp Df.latitude Df.longitude Df.date Df.time Df.hour Df.minute
       Df.duration_minutes Df.distance_km Df.cumulative_distance Df.speed_kmh].
  pose proof (duration_column_length _ _ Hdur) as Hd.
  pose proof (distance_column_length _ _ Hdist) as Hk.
  rewrite List.length_combine, !List.length_map in Hk. rewrite List.length_map in Hd.
  rewrite List.length_seq, !List.length_map, cumsum_length, speed_column_length.
  repeat split; lia.
Qed.

(** X11. Every column of the loaded table has one entry per row, and so has
    every selection [main] takes from it (the high-speed and low-speed
    segments, the morning and evening rush): [df[mask]], for a mask as long
    as the table, keeps the same rows in every column, and never more rows
    than the table has. *)
Theorem tables_are_rectangular (data_text : string) (df : Df.t) :
  load_and_process_data data_text = Py.Ok df ->
  rectangular df = true
  /\ (forall mask : list bool,
        length mask = Df.len df ->
        rectangular (Df.filter mask df) = true
        /\ (Df.len (Df.filter mask df) <= Df.len df)%nat)
  /\ rectangular (high_speed_segments df) = true
  /\ rectangular (low_speed_segments df) = true
  /\ rectangular (morning_rush df) = true
  /\ rectangular (evening_rush df) = true.
Proof.
  intros H. pose proof (load_rectangular _ _ H) as Hr.
  split; [exact Hr|]. split.
  - intros mask _. split; [apply rectangular_filter, Hr|]. apply select_le.
  - repeat split; apply rectangular_filter, Hr.
Qed.

Lemma parse_line_Ok_inv (line : string) (row : Rec.t) :
  parse_line line = Py.Ok row ->
  exists (ts la lo : string) (t : Datetime.datetime) (lat lon : float),
    Py.split Py.TAB line !! 1%nat = Some ts /\ strptime ts = Some t
    /\ Py.split Py.TAB line !! 2%nat = Some la /\ py_float la = Some lat
    /\ Py.split Py.TAB line !! 3%nat = Some lo /\ py_float lo = Some lon
    /\ row = Rec.mk t lat lon (Datetime.date t) (Datetime.strftime_HMS t)
               (Datetime.hour t) (Datetime.minute t).
Proof.
  unfold parse_line, Py.index. intros H.
  destruct (Py.split Py.TAB line !! 1%nat) as [ts|]; [|discriminate].
  cbn [Py.of_option mbind result_bind Py.bind] in H.
  destruct (strptime ts) as [t|] eqn:Ht; [|discriminate].
  cbn [Py.of_option mbind result_bind Py.bind] in H.
  destruct (Py.split Py.TAB line !! 2%nat) as [la|]; [|discriminate].
  cbn [Py.of_option mbind result_bind Py.bind] in H.
  destruct (py_float la) as [lat|] eqn:Hla; [|discriminate].
  cbn [Py.of_option mbind result_bind Py.bind] in H.
  destruct (Py.split Py.TAB line !! 3%nat) as [lo|]; [|discriminate].
  cbn [Py.of_option mbind result_bind Py.bind] in H.
  destruct (py_float lo) as [lon|] eqn:Hlo; [|discriminate].
  cbn [Py.of_option mbind result_bind Py.bind] in H.
  apply Ok_inj in H as <-. exists ts, la, lo, t, lat, lon. repeat split; auto.
Qed.

(** The rows of a loaded table, each made from a stamp [strptime] returned. *)
Lemma loaded_rows (data_text : string) (df : Df.t) :
  load_and_process_data data_text = Py.Ok df ->
  exists rows : list Rec.t,
    Df.index df = seq 0 (length rows)
    /\ Df.timestamp df = map Rec.timestamp rows
    /\ Df.date df = map Rec.date rows /\ Df.time df = map Rec.time rows
    /\ Df.hour df = map Rec.hour rows /\ Df.minute df = map Rec.minute rows
    /\ Forall (fun row =>
         (exists ts, strptime ts = Some (Rec.timestamp row))
         /\ Rec.date row = Datetime.date (Rec.timestamp row)
         /\ Rec.time row = Datetime.strftime_HMS (Rec.timestamp row)
         /\ Rec.hour row = Datetime.hour (Rec.timestamp row)
         /\ Rec.minute row = Datetime.minute (Rec.timestamp row)) rows.
Proof.
  intros H.
  destruct (load_inv _ _ H) as (rows & dur & dist & Hrows & Hdur & Hdist & ->).
  exists rows. cbn [Df.index Df.timestamp Df.date Df.time Df.hour Df.minute].
  repeat split; try reflexivity.
  apply parse_lines_rows in Hrows. apply Forall_lookup. intros i row Hi.
  destruct (Forall2_lookup_r _ _ _ _ _ Hrows Hi) as (line & _ & Hline).
  apply parse_line_Ok_inv in Hline
    as (ts & la & lo & t & lat & lon & _ & Ht & _ & _ & _ & _ & ->).
  cbn [Rec.timestamp Rec.date Rec.time Rec.hour Rec.minute]. eauto 10.
Qed.

Lemma len_filter_positive {A} (f : A -> bool) (xs : list A) :
  (0 <? length (Pd.select (map f xs) (seq 0 (length xs))))%nat = true
  <-> exists i v, xs !! i = Some v /\ f v = true.
Proof.
  rewrite Nat.ltb_lt. split.
  - intros Hlen. destruct (Pd.select _ _) as [|j l] eqn:E; [cbn in Hlen; lia|].
    assert (In j (Pd.select (map f xs) (seq 0 (length xs)))) as Hin
      by (rewrite E; left; reflexivity).
    apply select_labels in Hin as (_ & v & Hv & Hf). eauto.
  - intros (i & v & Hv & Hf).
    assert (In i (Pd.select (map f xs) (seq 0 (length xs)))) as Hin.
    { apply select_labels. split; [lia|]. exists v. rewrite Nat.sub_0_r. auto. }
    destruct (Pd.select _ _); [destruct Hin|cbn; lia].
Qed.

(** X8. The rush-hour notices look at the hour of the stamp alone: the morning
    notice is shown exactly when some record was stamped at 7, 8 or 9
    o'clock (any minute), the evening notice exactly when some record was
    stamped at 16, 17 or 18 o'clock, and no record is in both selections. *)
Theorem rush_hours_read_the_hour (data_text : string) (df : Df.t) :
  load_and_process_data data_text = Py.Ok df ->
  (fst (time_efficiency_analysis df) = true
   <-> exists (i : nat) (t : Datetime.datetime),
         Df.timestamp df !! i = Some t /\ 7 <= Datetime.hour t <= 9)
  /\ (snd (time_efficiency_analysis df) = true
      <-> exists (i : nat) (t : Datetime.datetime),
            Df.timestamp df !! i = Some t /\ 16 <= Datetime.hour t <= 18)
  /\ (forall i : nat,
        In i (Df.index (morning_rush df)) -> In i (Df.index (evening_rush df)) -> False).
Proof.
  intros H.
  destruct (loaded_rows _ _ H) as (rows & Hidx & Hts & _ & _ & Hhour & _ & Hrows).
  assert (forall i h, Df.hour df !! i = Some h <->
            exists t, Df.timestamp df !! i = Some t /\ h = Datetime.hour t) as Hh.
  { intros i h. rewrite Hhour, Hts, !list_lookup_fmap. rewrite Forall_lookup in Hrows.
    destruct (rows !! i) as [row|] eqn:Hi; cbn.
    - destruct (Hrows _ _ Hi) as (_ & _ & _ & Hr & _). rewrite Hr. split.
      + intros [= <-]. eauto.
      + intros (t & [= <-] & ->). reflexivity.
    - split; [discriminate|intros (t & Ht & _); discriminate]. }
  assert (Df.index df = seq 0 (length (Df.hour df))) as Hidx'.
  { rewrite Hidx, Hhour, List.length_map. reflexivity. }
  unfold time_efficiency_analysis, morning_rush, evening_rush, Df.len, Df.filter.
  cbn [fst snd Df.index]. rewrite Hidx'. split; [|split].
  - rewrite len_filter_positive. split.
    + intros (i & h & Hi & Hf). apply Hh in Hi as (t & Ht & ->).
      apply andb_prop in Hf as [?%Z.leb_le ?%Z.leb_le]. eauto.
    + intros (i & t & Ht & Hr). exists i, (Datetime.hour t). split.
      * apply Hh. eauto.
      * apply andb_true_intro. split; apply Z.leb_le; lia.
  - rewrite len_filter_positive. split.
    + intros (i & h & Hi & Hf). apply Hh in Hi as (t & Ht & ->).
      apply andb_prop in Hf as [?%Z.leb_le ?%Z.leb_le]. eauto.
    + intros (i & t & Ht & Hr). exists i, (Datetime.hour t). split.
      * apply Hh. eauto.
      * apply andb_true_intro. split; apply Z.leb_le; lia.
  - intros i (_ & h & Hi & Hf)%select_labels (_ & h' & Hi' & Hf')%select_labels.
    rewrite Hi in Hi'. injection Hi' as <-.
    apply andb_prop in Hf as [?%Z.leb_le ?%Z.leb_le].
    apply andb_prop in Hf' as [?%Z.leb_le ?%Z.leb_le]. lia.
Qed.

End Shape.

(** ** The clock columns *)

Lemma app_String (c : ascii) (b s : string) :
  (String c b ++ s)%string = String c (b ++ s)%string.
Proof. reflexivity. Qed.

Lemma app_Empty (s : string) : (EmptyString ++ s)%string = s.
Proof. reflexivity. Qed.

Lemma digit_char (k : Z) :
  0 <= k <= 9 -> Datetime.is_digit (ascii_of_nat (48 + Z.to_nat k)) = true.
Proof.
  intros Hk.
  assert (k = 0 \/ k = 1 \/ k = 2 \/ k = 3 \/ k = 4 \/ k = 5 \/ k = 6 \/ k = 7 \/ k = 8 \/ k = 9)
    as Hc by lia.
  repeat (destruct Hc as [->|Hc]; [reflexivity|]). subst k. reflexivity.
Qed.

Lemma two_layout (n : Z) (rest : string) :
  0 <= n <= 99 -> has_layout "dd" (Datetime.two n) = true.
Proof.
  intros Hn. unfold Datetime.two. cbn [has_layout].
  change (Ascii.eqb "d" "d") with true. cbv iota.
  rewrite !digit_char; [reflexivity| |].
  - pose proof (Z.mod_pos_bound n 10 ltac:(lia)). lia.
  - pose proof (Z.div_lt_upper_bound n 10 10 ltac:(lia) ltac:(lia)).
    pose proof (Z.div_pos n 10 ltac:(lia) ltac:(lia)). lia.
Qed.

Lemma has_layout_app (l1 l2 s1 s2 : string) :
  has_layout l1 s1 = true -> has_layout l2 s2 = true ->
  has_layout (l1 ++ l2) (s1 ++ s2) = true.
Proof.
  revert s1; induction l1 as [|c l1 IH]; intros [|c1 s1] H1 H2; try discriminate; [exact H2|].
  rewrite !app_String. cbn [has_layout] in *. apply andb_prop in H1 as [Hc H1].
  apply andb_true_intro. split; [exact Hc|apply IH; assumption].
Qed.

Lemma valid_clock (t : Datetime.datetime) :
  Datetime.valid t = true ->
  0 <= Datetime.hour t <= 23 /\ 0 <= Datetime.minute t <= 59
  /\ 0 <= Datetime.second t <= 59.
Proof.
  unfold Datetime.valid. rewrite !andb_true_iff, !Z.leb_le. lia.
Qed.

Lemma strftime_layout (t : Datetime.datetime) :
  Datetime.valid t = true -> has_layout "dd:dd:dd" (Datetime.strftime_HMS t) = true.
Proof.
  intros (Hh & Hm & Hs)%valid_clock. unfold Datetime.strftime_HMS.
  apply (has_layout_app "dd" ":dd:dd"); [apply (two_layout _ ""); lia|].
  apply (has_layout_app ":" "dd:dd" ":"); [reflexivity|].
  apply (has_layout_app "dd" ":dd"); [apply (two_layout _ ""); lia|].
  apply (has_layout_app ":" "dd" ":"); [reflexivity|]. apply (two_layout _ ""); lia.
Qed.

Section Clock.
Context {L : Libraries}.

(** X12. The date, time, hour and minute of a row are read off its stamp. When
    [strptime] returns dates that exist only, as CPython's does, the hour is
    between 0 and 23, the minute between 0 and 59, and the time is the text
    [HH:MM:SS] with two digits in each place. *)
Theorem clock_columns_follow_the_stamp (data_text : string) (df : Df.t) :
  (forall s t, strptime s = Some t -> Datetime.valid t = true) ->
  load_and_process_data data_text = Py.Ok df ->
  forall (i : nat) (t : Datetime.datetime),
    Df.timestamp df !! i = Some t ->
    Df.date df !! i = Some (Datetime.year t, Datetime.month t, Datetime.day t)
    /\ Df.hour df !! i = Some (Datetime.hour t) /\ 0 <= Datetime.hour t <= 23
    /\ Df.minute df !! i = Some (Datetime.minute t) /\ 0 <= Datetime.minute t <= 59
    /\ exists clock : string,
         Df.time df !! i = Some clock
         /\ clock = Datetime.strftime_HMS t
         /\ has_layout "dd:dd:dd" clock = true.
Proof.
  intros Hvalid H i t Hi.
  destruct (loaded_rows _ _ H) as (rows & _ & Hts & Hdate & Htime & Hhour & Hmin & Hrows).
  rewrite Hts, list_lookup_fmap in Hi. rewrite Hdate, Htime, Hhour, Hmin, !list_lookup_fmap.
  destruct (rows !! i) as [row|] eqn:Hrow; [|discriminate]. cbn in Hi |- *.
  injection Hi as <-. rewrite Forall_lookup in Hrows.
  destruct (Hrows _ _ Hrow) as ((ts & Hparse) & -> & -> & -> & ->).
  pose proof (Hvalid _ _ Hparse) as Hv.
  destruct (valid_clock _ Hv) as (Hh & Hm & _).
  repeat split; try lia. eexists. split; [reflexivity|]. split; [reflexivity|].
  apply strftime_layout, Hv.
Qed.

End Clock.

(** ** What the parser does not look at *)

Lemma lstrip_blank (b : string) : blank b = true -> Py.lstrip b = EmptyString.
Proof.
  induction b as [|c b IH]; [reflexivity|]. cbn [blank Py.lstrip].
  intros [-> Hb]%andb_prop. auto.
Qed.

Lemma rstrip_blank (b : string) : blank b = true -> Py.rstrip b = EmptyString.
Proof.
  induction b as [|c b IH]; [reflexivity|]. cbn [blank Py.rstrip].
  intros [Hc Hb]%andb_prop. rewrite (IH Hb), Hc. reflexivity.
Qed.

Lemma lstrip_app_blank (b s : string) : blank b = true -> Py.lstrip (b ++ s) = Py.lstrip s.
Proof.
  induction b as [|c b IH]; [reflexivity|]. rewrite app_String. cbn [blank Py.lstrip].
  intros [-> Hb]%andb_prop. auto.
Qed.

Lemma rstrip_app_blank (s a : string) : blank a = true -> Py.rstrip (s ++ a) = Py.rstrip s.
Proof.
  intros Ha. induction s as [|c s IH]; [exact (rstrip_blank a Ha)|].
  rewrite app_String. cbn [Py.rstrip]. rewrite IH. reflexivity.
Qed.

Lemma strip_app_blank (s a : string) : blank a = true -> Py.strip (s ++ a) = Py.strip s.
Proof.
  intros Ha. unfold Py.strip. induction s as [|c s IH].
  - rewrite app_Empty, (lstrip_blank a Ha). reflexivity.
  - rewrite app_String. cbn [Py.lstrip]. destruct (Py.isspace c); [exact IH|].
    rewrite <- app_String. apply (rstrip_app_blank (String c s) a Ha).
Qed.

Lemma strip_padding (before text after : string) :
  blank before = true -> blank after = true ->
  Py.strip (before ++ text ++ after) = Py.strip text.
Proof.
  intros Hb Ha. unfold Py.strip at 1. rewrite (lstrip_app_blank _ _ Hb).
  exact (strip_app_blank text after Ha).
Qed.

Lemma split_tab_free (f : string) : tab_free f = true -> Py.split Py.TAB f = [f].
Proof.
  induction f as [|c f IH]; [reflexivity|]. cbn [tab_free Py.split].
  intros [Hc Hf]%andb_prop. apply negb_true_iff in Hc. rewrite Hc, (IH Hf). reflexivity.
Qed.

Lemma split_tab_cons (f rest : string) :
  tab_free f = true ->
  Py.split Py.TAB (f ++ String Py.TAB rest) = f :: Py.split Py.TAB rest.
Proof.
  induction f as [|c f IH]; intros Hf.
  - rewrite app_Empty. cbn [Py.split]. rewrite Ascii.eqb_refl. reflexivity.
  - cbn [tab_free] in Hf. apply andb_prop in Hf as [Hc Hf]. apply negb_true_iff in Hc.
    rewrite app_String. cbn [Py.split]. rewrite Hc, (IH Hf). reflexivity.
Qed.

(** Splitting undoes joining. *)
Lemma split_tab_join (fields : list string) :
  fields <> [] -> Forall (fun f => tab_free f = true) fields ->
  Py.split Py.TAB (tab_join fields) = fields.
Proof.
  intros Hne Hall. induction Hall as [|f fields Hf Hall IH]; [congruence|].
  destruct fields as [|g fields].
  - cbn [tab_join]. apply split_tab_free, Hf.
  - change (tab_join (f :: g :: fields))
      with (f ++ String Py.TAB (tab_join (g :: fields)))%string.
    rewrite (split_tab_cons _ _ Hf), IH by discriminate. reflexivity.
Qed.

Section Ignored.
Context {L : Libraries}.

(** X13. Whitespace before the first record and after the last one (spaces,
    tabs, empty lines) changes nothing: the text is stripped before it is
    split, so the padded text gives the same table or the same exception. *)
Theorem surrounding_whitespace_is_ignored (before text after : string) :
  blank before = true -> blank after = true ->
  load_and_process_data (before ++ text ++ after) = load_and_process_data text.
Proof.
  intros Hb Ha. unfold load_and_process_data, parse_lines.
  rewrite (strip_padding _ _ _ Hb Ha). reflexivity.
Qed.

(** X14. Of a line, only the second, third and fourth field are read: the label
    in front and any field after the fourth do not change the record, or the
    exception, the line gives. *)
Theorem label_and_extra_fields_are_ignored
    (label label' stamp lat lon : string) (extra extra' : list string) :
  Forall (fun f => tab_free f = true) (label :: label' :: stamp :: lat :: lon :: extra ++ extra') ->
  parse_line (tab_join (label :: stamp :: lat :: lon :: extra))
  = parse_line (tab_join (label' :: stamp :: lat :: lon :: extra')).
Proof.
  intros Hall. rewrite !Forall_cons, Forall_app in Hall.
  destruct Hall as (H0 & H0' & H1 & H2 & H3 & He & He').
  unfold parse_line.
  rewrite (split_tab_join (label :: stamp :: lat :: lon :: extra))
    by (discriminate || (repeat (constructor; [assumption|])); assumption).
  rewrite (split_tab_join (label' :: stamp :: lat :: lon :: extra'))
    by (discriminate || (repeat (constructor; [assumption|])); assumption).
  reflexivity.
Qed.

End Ignored.

(** ** The map *)

Lemma last_combine {A B} (xs : list A) (ys : list B) (x : A) (y : B) :
  length xs = length ys -> last xs = Some x -> last ys = Some y ->
  last (combine xs ys) = Some (x, y).
Proof.
  revert ys; induction xs as [|a [|a' xs] IH]; intros [|b [|b' ys]] Hlen Hx Hy;
    try discriminate.
  - cbn in *. congruence.
  - change (last (combine (a' :: xs) (b' :: ys)) = Some (x, y)).
    apply IH; [cbn in *; lia|exact Hx|exact Hy].
Qed.

Section MapFacts.
Context {L : Libraries} {F : Folium.Library}.

(** What [create_map] does once the four subscripts have found their rows:
    it returns the map folium made with the three layers added, or it raises
    what one of the four constructors raised. *)
Lemma create_map_run (df : Df.t) (lat0 lon0 lat1 lon1 : float) :
  Py.index (Df.latitude df) 0 = Py.Ok lat0 -> Py.index (Df.longitude df) 0 = Py.Ok lon0 ->
  iloc_last (Df.latitude df) = Py.Ok lat1 -> iloc_last (Df.longitude df) = Py.Ok lon1 ->
  let centre := (Pd.mean (Df.latitude df), Pd.mean (Df.longitude df)) in
  let route := combine (Df.latitude df) (Df.longitude df) in
  (exists m0, Folium.new_Map centre 6 = Py.Ok m0
     /\ create_map df
        = Py.Ok (Folium.add_to (Folium.Marker (lat1, lon1) "End" "red")
                   (Folium.add_to (Folium.Marker (lat0, lon0) "Start" "green")
                      (Folium.add_to (Folium.PolyLine route 2 "blue" 0.8) m0))))
  \/ (exists e, create_map df = Py.Raise e
        /\ (Folium.new_Map centre 6 = Py.Raise e
            \/ Folium.check_PolyLine route 2 "blue" 0.8 = Py.Raise e
            \/ Folium.check_Marker (lat0, lon0) "Start" "green" = Py.Raise e
            \/ Folium.check_Marker (lat1, lon1) "End" "red" = Py.Raise e)).
Proof.
  intros H1 H2 H3 H4. cbv zeta. unfold create_map. cbv zeta. rewrite H1, H2, H3, H4.
  destruct (Folium.new_Map _ _) as [m0|e1]; cbn [mbind result_bind Py.bind];
    [|right; exists e1; auto].
  destruct (Folium.check_PolyLine _ _ _ _) as [[]|e2]; cbn [mbind result_bind Py.bind];
    [|right; exists e2; auto].
  destruct (Folium.check_Marker (lat0, lon0) _ _) as [[]|e3]; cbn [mbind result_bind Py.bind];
    [|right; exists e3; auto].
  destruct (Folium.check_Marker (lat1, lon1) _ _) as [[]|e4]; cbn [mbind result_bind Py.bind];
    [|right; exists e4; auto 6].
  left. exists m0. auto.
Qed.

(** The first point of the route and its last point, on a loaded table. *)
Lemma route_ends (data_text : string) (df : Df.t) (lat0 lon0 lat1 lon1 : float) :
  load_and_process_data data_text = Py.Ok df ->
  Py.index (Df.latitude df) 0 = Py.Ok lat0 -> Py.index (Df.longitude df) 0 = Py.Ok lon0 ->
  iloc_last (Df.latitude df) = Py.Ok lat1 -> iloc_last (Df.longitude df) = Py.Ok lon1 ->
  let route := combine (Df.latitude df) (Df.longitude df) in
  length route = Df.len df
  /\ route !! 0%nat = Some (lat0, lon0) /\ last route = Some (lat1, lon1).
Proof.
  intros H H1 H2 H3 H4.
  pose proof (proj1 (rectangular_spec df) (load_rectangular _ _ H))
    as (_ & Hlat & Hlon & _).
  cbv zeta. split; [rewrite List.length_combine; lia|]. split.
  - apply index_Ok in H1, H2.
    destruct (Df.latitude df) as [|a ?], (Df.longitude df) as [|b ?]; try discriminate.
    cbn in *. congruence.
  - apply last_combine; [lia|apply iloc_last_Ok, H3|apply iloc_last_Ok, H4].
Qed.

(** X15. The route line goes through every record once, in the order of the
    input, and the two markers are on its first and on its last point (on
    the same point when there is one record). The map [create_map] returns
    is the one [folium.Map] made for the mean point at zoom 6, which already
    carries folium's own children, with the line, the Start marker and the
    End marker added after them in this order. On a loaded table
    [create_map] fails only when folium refuses the map, the line or a
    marker: the rows it asks for are there. *)
Theorem create_map_draws_the_route (data_text : string) (df : Df.t) :
  load_and_process_data data_text = Py.Ok df ->
  exists (route : list coords) (start stop : coords),
    let centre := (Pd.mean (Df.latitude df), Pd.mean (Df.longitude df)) in
    route = combine (Df.latitude df) (Df.longitude df)
    /\ length route = Df.len df
    /\ route !! 0%nat = Some start /\ last route = Some stop
    /\ (forall m, create_map df = Py.Ok m ->
          exists m0, Folium.new_Map centre 6 = Py.Ok m0
            /\ Folium.location m = Folium.location m0
            /\ Folium.zoom_start m = Folium.zoom_start m0
            /\ Folium.children m
               = Folium.children m0 ++ [Folium.PolyLine route 2 "blue" 0.8;
                                        Folium.Marker start "Start" "green";
                                        Folium.Marker stop "End" "red"])
    /\ (forall e, create_map df = Py.Raise e ->
          Folium.new_Map centre 6 = Py.Raise e
          \/ Folium.check_PolyLine route 2 "blue" 0.8 = Py.Raise e
          \/ Folium.check_Marker start "Start" "green" = Py.Raise e
          \/ Folium.check_Marker stop "End" "red" = Py.Raise e).
Proof.
  intros H. destruct (loaded_ends _ _ H) as (lat0 & lon0 & lat1 & lon1 & H1 & H2 & H3 & H4).
  destruct (route_ends _ _ _ _ _ _ H H1 H2 H3 H4) as (Hlen & Hfirst & Hlast).
  exists (combine (Df.latitude df) (Df.longitude df)), (lat0, lon0), (lat1, lon1).
  cbv zeta. split; [reflexivity|]. split; [exact Hlen|].
  split; [exact Hfirst|]. split; [exact Hlast|].
  destruct (create_map_run df _ _ _ _ H1 H2 H3 H4) as [(m0 & Hm0 & Hrun)|(e & Hrun & He)];
    rewrite Hrun; (split; [intros m Hm|intros e' He']); try discriminate.
  - apply Ok_inj in Hm as <-. exists m0. split; [exact Hm0|].
    cbn [Folium.add_to Folium.location Folium.zoom_start Folium.children].
    rewrite <- !List.app_assoc. auto.
  - assert (e' = e) as -> by congruence. exact He.
Qed.

(** X10. Once the table is loaded, what [main] computes from it can fail in
    two places only: inside folium, while [create_map] builds the map (line
    96), and in the geopy call on the first and the last record (line 135). The
    subscripts [iloc[0]] and [iloc[-1]] find their rows. When [create_map]
    raises, [main] raises the same exception; when it returns, [main]
    succeeds exactly when the geopy call does, and raises what that call
    raises. *)
Theorem main_fails_only_in_folium_or_geopy (data_text : string) (df : Df.t) :
  load_and_process_data data_text = Py.Ok df ->
  exists p q : coords,
    let centre := (Pd.mean (Df.latitude df), Pd.mean (Df.longitude df)) in
    let route := combine (Df.latitude df) (Df.longitude df) in
    Df.latitude df !! 0%nat = Some (fst p) /\ Df.longitude df !! 0%nat = Some (snd p)
    /\ last (Df.latitude df) = Some (fst q) /\ last (Df.longitude df) = Some (snd q)
    /\ (forall e, create_map df = Py.Raise e -> main data_text = Py.Raise e)
    /\ (forall m, create_map df = Py.Ok m ->
          Py.is_ok (main data_text) = Py.is_ok (geodesic_km p q)
          /\ (forall e, main data_text = Py.Raise e -> geodesic_km p q = Py.Raise e))
    /\ (forall e, main data_text = Py.Raise e ->
          Folium.new_Map centre 6 = Py.Raise e
          \/ Folium.check_PolyLine route 2 "blue" 0.8 = Py.Raise e
          \/ Folium.check_Marker p "Start" "green" = Py.Raise e
          \/ Folium.check_Marker q "End" "red" = Py.Raise e
          \/ geodesic_km p q = Py.Raise e).
Proof.
  intros H. destruct (loaded_ends _ _ H) as (lat0 & lon0 & lat1 & lon1 & H1 & H2 & H3 & H4).
  exists (lat0, lon0), (lat1, lon1). cbv zeta. cbn [fst snd].
  split; [apply index_Ok, H1|]. split; [apply index_Ok, H2|].
  split; [apply iloc_last_Ok, H3|]. split; [apply iloc_last_Ok, H4|].
  unfold main. rewrite H. cbn [mbind result_bind Py.bind]. unfold summarize.
  destruct (create_map_run df _ _ _ _ H1 H2 H3 H4) as [(m0 & Hm0 & Hrun)|(e & Hrun & He)];
    rewrite Hrun; cbn [mbind result_bind Py.bind].
  - unfold route_efficiency_analysis. rewrite H1, H2, H3, H4.
    cbn [mbind result_bind Py.bind].
    split; [discriminate|].
    destruct (geodesic_km _ _) as [d|e];
      cbn [mbind result_bind Py.bind Py.is_ok]; unfold mret, result_ret.
    + split; [intros m _; split; [reflexivity|discriminate]|discriminate].
    + split; [intros m _; split; [reflexivity|intros e' He'; congruence]|].
      intros e' He'. do 4 right. congruence.
  - split; [intros e' He'; congruence|]. split; [discriminate|].
    intros e' He'. assert (e' = e) as -> by congruence.
    destruct He as [He|[He|[He|He]]]; auto 6.
Qed.

End MapFacts.

(** ** No segment is longer than the total *)

Lemma add_le_r (x y : spec_float) :
  Rnd.good x -> Rnd.good y -> SFleb y (SFadd prec emax x y) = true.
Proof.
  intros Hx Hy.
  destruct (RndFacts.good_cases x Hx) as [[s ->]|[->|(m & e & -> & B)]];
    destruct (RndFacts.good_cases y Hy) as [[s' ->]|[->|(m' & e' & -> & B')]];
    try reflexivity.
  - destruct s, s'; reflexivity.
  - cbn [SFadd].
    eapply RndFacts.Rep_le; [constructor; eassumption|constructor; eassumption|lia].
  - pose proof (RndFacts.Rep_add m m' e e' B B') as HR.
    eapply RndFacts.Rep_le; [constructor; eassumption|exact HR|].
    pose proof (RndFacts.bounded_range _ _ B) as (He & _ & _).
    pose proof (RndFacts.bounded_range _ _ B') as (He' & _ & _).
    pose proof (RndFacts.pow2_pos (e + 1074) ltac:(lia)).
    pose proof (RndFacts.pow2_pos (e' + 1074) ltac:(lia)).
    rewrite <- (RndFacts.RQ_canonical (Zpos m') e') at 1
      by (try lia; apply RndFacts.bounded_iff; assumption).
    apply RndFacts.RQ_mono_num; nia.
Qed.

Lemma add_nonneg_le_r (x y : float) :
  (0 <=? x)%float = true -> (0 <=? y)%float = true -> (y <=? x + y)%float = true.
Proof.
  intros Hx%RndFacts.le0_good Hy%RndFacts.le0_good.
  rewrite FloatAxioms.leb_spec, FloatAxioms.add_spec. apply add_le_r; assumption.
Qed.

(** The order of floats is transitive from a non-negative number on. *)
Lemma leb_trans_nonneg (a b c : float) :
  (0 <=? a)%float = true -> (a <=? b)%float = true -> (b <=? c)%float = true ->
  (a <=? c)%float = true.
Proof.
  intros [Va Na]%RndFacts.le0_good. rewrite !FloatAxioms.leb_spec. intros Hab Hbc.
  pose proof (FloatAxioms.Prim2SF_valid b) as Vb.
  pose proof (FloatAxioms.Prim2SF_valid c) as Vc.
  destruct (Prim2SF a) as [sa|sa| |sa ma ea] eqn:Ea, (Prim2SF b) as [sb|sb| |sb mb eb] eqn:Eb;
    try (destruct sa); try (destruct sb); try contradiction; try discriminate;
    destruct (Prim2SF c) as [sc|sc| |sc mc ec] eqn:Ec;
    try (destruct sc); try discriminate; try reflexivity.
  all: try (destruct sa; reflexivity || discriminate).
  - destruct (RndFacts.leb_val _ _ Va Vb I ltac:(discriminate) Hab) as (_ & _ & H1).
    destruct (RndFacts.leb_val _ _ Vb Vc I ltac:(discriminate) Hbc) as (_ & _ & H2).
    eapply RndFacts.Rep_le;
      [apply RndFacts.Rep_val; [exact Va|exact I|discriminate]
      |apply RndFacts.Rep_val; [exact Vc|exact I|discriminate]|lia].
Qed.

Lemma sorted_le_last (xs : list float) (i : nat) (x l : float) :
  Forall (fun x => (0 <=? x)%float = true) xs -> nondecreasing xs = true ->
  xs !! i = Some x -> last xs = Some l -> (x <=? l)%float = true.
Proof.
  intros Hall. revert i x; induction Hall as [|a xs Ha Hall IH]; intros i x Hs Hi Hl;
    [discriminate|].
  destruct xs as [|b xs].
  - destruct i; [|discriminate]. cbn in Hi, Hl. injection Hi as <-. injection Hl as <-.
    apply leb_refl_not_nan, (leb_not_nan _ _ Ha).
  - unfold nondecreasing in *. rewrite sorted_by_cons in Hs.
    apply andb_prop in Hs as [Hab Hs].
    change (last (a :: b :: xs)) with (last (b :: xs)) in Hl.
    destruct i as [|i].
    + cbn in Hi. injection Hi as <-.
      apply (leb_trans_nonneg a b l Ha Hab). apply (IH 0%nat b Hs eq_refl Hl).
    + apply (IH i x Hs Hi Hl).
Qed.

Lemma cumsum_from_dominates (acc : float) (xs : list float) (i : nat) (d c : float) :
  is_plus acc = true ->
  Forall (fun x => (0 <=? x)%float = true) xs ->
  xs !! i = Some d -> Pd.cumsum_from acc xs !! i = Some c -> (d <=? c)%float = true.
Proof.
  intros Hacc Hxs; revert acc i Hacc; induction Hxs as [|x xs Hx _ IH]; intros acc i Hacc Hd Hc;
    [discriminate|].
  cbn [Pd.cumsum_from] in Hc. rewrite (proj2 (leb_not_nan _ _ Hx)) in Hc.
  destruct i as [|i].
  - cbn in Hd, Hc. injection Hd as <-. injection Hc as <-.
    apply add_nonneg_le_r; [apply is_plus_le0, Hacc|exact Hx].
  - cbn in Hd, Hc. apply (IH (acc + x)%float i); auto using is_plus_add.
Qed.

Section Totals.
Context {L : Libraries}.

(** X4. Geopy's distances being non-negative, every segment distance is at most
    the cumulative distance of its record, and that is at most the total
    distance [main] shows: no segment is longer than the whole journey. *)
Theorem segments_are_within_the_total (data_text : string) (df : Df.t) :
  (forall p q d, geodesic_km p q = Py.Ok d -> (0 <=? d)%float = true) ->
  load_and_process_data data_text = Py.Ok df ->
  forall (i : nat) (d c : float),
    Df.distance_km df !! i = Some d -> Df.cumulative_distance df !! i = Some c ->
    (d <=? c)%float = true
    /\ (c <=? Pd.max (Df.cumulative_distance df))%float = true
    /\ (d <=? Pd.max (Df.cumulative_distance df))%float = true.
Proof.
  intros Hgeo H i d c Hd Hc.
  destruct (cumulative_sorted _ _ Hgeo H) as (Hall & Hs & Hne).
  destruct (last_is_Some _ Hne) as [total Hl].
  rewrite (max_nondecreasing _ _ Hall Hs Hl).
  assert (Forall (fun x => (0 <=? x)%float = true) (Df.cumulative_distance df)) as Hall0
    by (eapply Forall_impl; [exact Hall|intros x; apply is_plus_le0]).
  pose proof (sorted_le_last _ _ _ _ Hall0 Hs Hc Hl) as Hct.
  assert ((d <=? c)%float = true) as Hdc.
  { pose proof (distances_nonneg _ _ Hgeo H) as Hdist.
    destruct (load_inv _ _ H) as (rows & dur & dist & Hrows & Hdur & Hdist' & ->).
    cbn [Df.distance_km Df.cumulative_distance] in *.
    destruct dist as [|d0 ds]; [discriminate|].
    assert (d0 = 0%float) as ->.
    { unfold distance_column in Hdist'. destruct (combine _ _); [discriminate|].
      apply bind_Ok_inv in Hdist' as (ds' & _ & Hd'). apply Ok_inj in Hd'. congruence. }
    destruct i as [|i].
    - cbn in Hd, Hc. injection Hd as <-. injection Hc as <-. reflexivity.
    - cbn in Hd, Hc. apply (cumsum_from_dominates 0 ds i d c eq_refl); auto.
      exact (Forall_inv_tail Hdist). }
  repeat split; auto.
  apply (leb_trans_nonneg d c total); auto.
  pose proof (distances_nonneg _ _ Hgeo H) as Hdist. rewrite Forall_lookup in Hdist. eauto.
Qed.

End Totals.

(** ** The theorems at work on sample inputs *)

Lemma speeds_keep_the_order_of_distances_witness :
  exists df, @load_and_process_data python three_samples = Py.Ok df
             /\ Forall (fun v => (0 <=? v)%float = true) (Df.speed_kmh df).
Proof.
  eexists. split; [vm_compute; reflexivity|].
  eapply (@speeds_keep_the_order_of_distances python three_samples).
  - exact flat_geodesic_nonneg.
  - vm_compute; reflexivity.
Defined.

Lemma estimates_grow_with_distance_witness :
  exists df1 df2,
    @load_and_process_data python austin = Py.Ok df1
    /\ @load_and_process_data python three_samples = Py.Ok df2
    /\ (fst (environmental_impact df1) <=? fst (environmental_impact df2))%float = true
    /\ (snd (environmental_impact df1) <=? snd (environmental_impact df2))%float = true.
Proof.
  eexists. eexists. split; [vm_compute; reflexivity|]. split; [vm_compute; reflexivity|].
  eapply (@estimates_grow_with_distance python austin three_samples).
  - exact flat_geodesic_nonneg.
  - vm_compute; reflexivity.
  - vm_compute; reflexivity.
  - vm_compute; reflexivity.
Defined.

Lemma round_trip_scores_zero_witness :
  exists df, @load_and_process_data python there_and_back = Py.Ok df
             /\ @route_efficiency_analysis python df = Py.Ok (0%float, true).
Proof.
  eexists. split; [vm_compute; reflexivity|].
  eapply (@round_trip_scores_zero python _ 30%float (-97)%float); vm_compute; reflexivity.
Defined.

Lemma main_fails_only_in_folium_or_geopy_witness :
  exists df p q,
    @load_and_process_data python three_samples = Py.Ok df
    /\ Df.latitude df !! 0%nat = Some (fst p) /\ last (Df.latitude df) = Some (fst q)
    /\ Py.is_ok (@main python refuse_nan three_samples) = Py.is_ok (@geodesic_km python p q).
Proof.
  eassert (@load_and_process_data python three_samples = Py.Ok _) as Hl
    by (vm_compute; reflexivity).
  eexists.
  destruct (@main_fails_only_in_folium_or_geopy python refuse_nan three_samples _ Hl)
    as (p & q & H1 & _ & H3 & _ & _ & H6 & _).
  exists p, q. split; [exact Hl|]. split; [exact H1|]. split; [exact H3|].
  match type of Hl with
  | _ = Py.Ok ?d =>
      eassert (@create_map python refuse_nan d = Py.Ok _) as Hm by (vm_compute; reflexivity)
  end.
  exact (proj1 (H6 _ Hm)).
Defined.

Lemma tables_are_rectangular_witness :
  exists df, @load_and_process_data python three_samples = Py.Ok df
             /\ rectangular df = true
             /\ rectangular (@low_speed_segments python df) = true.
Proof.
  eexists. split; [vm_compute; reflexivity|].
  edestruct (@tables_are_rectangular python three_samples) as (H1 & _ & _ & H2 & _);
    [vm_compute; reflexivity|].
  split; [exact H1|exact H2].
Defined.

Lemma rush_hours_read_the_hour_witness :
  exists df, @load_and_process_data python there_and_back = Py.Ok df
             /\ fst (time_efficiency_analysis df) = true.
Proof.
  eexists. split; [vm_compute; reflexivity|].
  edestruct (@rush_hours_read_the_hour python there_and_back) as (Hm & _ & _);
    [vm_compute; reflexivity|].
  apply Hm. exists 0%nat. eexists. split; [vm_compute; reflexivity|]. cbn. lia.
Defined.

Lemma strptime_valid (s : string) (t : Datetime.datetime) :
  Datetime.strptime s = Some t -> Datetime.valid t = true.
Proof.
  unfold Datetime.strptime. destruct (Datetime.re_format s) as [|[t' [|c r]] l]; try discriminate.
  destruct (Datetime.valid t') eqn:Hv; [|discriminate]. intros [= <-]. exact Hv.
Qed.

Lemma clock_columns_follow_the_stamp_witness :
  exists df t,
    @load_and_process_data python austin = Py.Ok df
    /\ Df.timestamp df !! 0%nat = Some t
    /\ Df.hour df !! 0%nat = Some (Datetime.hour t)
    /\ 0 <= Datetime.hour t <= 23.
Proof.
  eassert (@load_and_process_data python austin = Py.Ok _) as Hl by (vm_compute; reflexivity).
  pose proof (@clock_columns_follow_the_stamp python austin _ strptime_valid Hl 0%nat _ eq_refl)
    as (_ & H1 & H2 & _).
  eexists. eexists. split; [exact Hl|]. split; [reflexivity|]. split; [exact H1|exact H2].
Defined.

Lemma surrounding_whitespace_is_ignored_witness :
  @load_and_process_data python (String Py.LF " " ++ austin ++ String Py.LF (String Py.LF ""))
  = @load_and_process_data python austin.
Proof.
  apply (@surrounding_whitespace_is_ignored python); reflexivity.
Defined.

Lemma label_and_extra_fields_are_ignored_witness :
  @parse_line python
    (tab_join ["0_Austin_Los Angeles"; "2024-07-09 04:27:31.270921"; "30.267115"; "-97.743072"])
  = @parse_line python
      (tab_join ["j"; "2024-07-09 04:27:31.270921"; "30.267115"; "-97.743072"; "more"]).
Proof.
  apply (@label_and_extra_fields_are_ignored python _ _ _ _ _ [] ["more"]).
  repeat constructor.
Defined.

Lemma create_map_draws_the_route_witness :
  exists df route start stop,
    @load_and_process_data python three_samples = Py.Ok df
    /\ length route = Df.len df
    /\ route !! 0%nat = Some start /\ last route = Some stop
    /\ exists m, @create_map python refuse_nan df = Py.Ok m
         /\ Folium.children m = [Folium.TileLayer "OpenStreetMap";
                                 Folium.PolyLine route 2 "blue" 0.8;
                                 Folium.Marker start "Start" "green";
                                 Folium.Marker stop "End" "red"].
Proof.
  eassert (@load_and_process_data python three_samples = Py.Ok _) as Hl
    by (vm_compute; reflexivity).
  eexists.
  destruct (@create_map_draws_the_route python refuse_nan three_samples _ Hl)
    as (route & start & stop & _ & H2 & H3 & H4 & H5 & _).
  exists route, start, stop. split; [exact Hl|].
  split; [exact H2|]. split; [exact H3|]. split; [exact H4|].
  match type of Hl with
  | _ = Py.Ok ?d =>
      eassert (@create_map python refuse_nan d = Py.Ok _) as Hm by (vm_compute; reflexivity)
  end.
  eexists. split; [exact Hm|].
  destruct (H5 _ Hm) as (m0 & Hm0 & _ & _ & Hc). rewrite Hc.
  vm_compute in Hm0. apply Ok_inj in Hm0 as <-. reflexivity.
Defined.

Lemma segments_are_within_the_total_witness :
  exists df d c,
    @load_and_process_data python three_samples = Py.Ok df
    /\ Df.distance_km df !! 1%nat = Some d /\ Df.cumulative_distance df !! 1%nat = Some c
    /\ (d <=? Pd.max (Df.cumulative_distance df))%float = true.
Proof.
  eassert (@load_and_process_data python three_samples = Py.Ok _) as Hl
    by (vm_compute; reflexivity).
  pose proof (@segments_are_within_the_total python three_samples _ flat_geodesic_nonneg Hl
                1%nat _ _ eq_refl eq_refl) as (_ & _ & H3).
  eexists. eexists. eexists. split; [exact Hl|].
  split; [reflexivity|]. split; [reflexivity|exact H3].
Defined.

(** ** High and low speeds exclude each other *)

Lemma top_pos : 0 < top.
Proof. apply RndFacts.pow2_pos. lia. Qed.

Lemma val_range (m : positive) (e : Z) :
  bounded prec emax m e = true -> 0 < Zpos m * 2 ^ (e + 1074) < top.
Proof.
  intros B. pose proof (RndFacts.bounded_lt_top _ _ B).
  pose proof (RndFacts.bounded_range _ _ B) as (He & _ & _).
  pose proof (RndFacts.pow2_pos (e + 1074) ltac:(lia)). unfold top. nia.
Qed.

(** The order of floats is the order of their values. *)
Lemma ltb_sval (x y : spec_float) :
  valid_binary x = true -> valid_binary y = true -> SFltb x y = true -> sval x < sval y.
Proof.
  pose proof top_pos as Ht.
  destruct x as [sx|sx| |sx mx ex], y as [sy|sy| |sy my ey];
    unfold SFltb, SFcompare; cbn [sval valid_binary]; intros Vx Vy H;
    try destruct sx; try destruct sy; try discriminate; cbn [cond_Zopp];
    try (pose proof (val_range _ _ Vx)); try (pose proof (val_range _ _ Vy)); try lia.
  - destruct (Z.compare_spec ex ey) as [->|Hl|Hg]; try discriminate.
    + change (Pos.compare_cont Eq mx my) with (Pos.compare mx my) in H.
      destruct (Pos.compare_spec mx my) as [->|Hl|Hg]; try discriminate.
      pose proof (RndFacts.bounded_range _ _ Vy) as (He & _ & _).
      pose proof (RndFacts.pow2_pos (ey + 1074) ltac:(lia)). nia.
    + pose proof (RndFacts.bounded_compare _ _ _ _ Vy Vx Hg). lia.
  - destruct (Z.compare_spec ex ey) as [->|Hl|Hg]; try discriminate.
    + change (Pos.compare_cont Eq mx my) with (Pos.compare mx my) in H.
      destruct (Pos.compare_spec mx my) as [->|Hl|Hg]; try discriminate.
      pose proof (RndFacts.bounded_range _ _ Vy) as (He & _ & _).
      pose proof (RndFacts.pow2_pos (ey + 1074) ltac:(lia)). nia.
    + pose proof (RndFacts.bounded_compare _ _ _ _ Vx Vy Hl). lia.
Qed.

Lemma round_aux_opp (m e : Z) (l : location) :
  binary_round_aux prec emax true m e l = SFopp (binary_round_aux prec emax false m e l).
Proof.
  unfold binary_round_aux.
  destruct (shr_fexp _ _ _ _ _) as [mrs' e'].
  destruct (shr_fexp _ _ _ _ _) as [mrs'' e''].
  destruct (shr_m mrs''); [reflexivity| |reflexivity].
  destruct (_ <=? _); reflexivity.
Qed.

Lemma round_aux_cases (s : bool) (m e : Z) (l : location) :
  let r := binary_round_aux prec emax s m e l in
  r = S754_nan \/ r = S754_zero s \/ r = S754_infinity s \/ exists m' e', r = S754_finite s m' e'.
Proof.
  unfold binary_round_aux.
  destruct (shr_fexp _ _ _ _ _) as [mrs' e'].
  destruct (shr_fexp _ _ _ _ _) as [mrs'' e''].
  destruct (shr_m mrs''); cbv zeta; auto.
  destruct (_ <=? _); eauto 6.
Qed.

Lemma sval_opp (x : spec_float) : sval (SFopp x) = - sval x.
Proof. destruct x as [[]|[]| |[] m e]; cbn [SFopp sval negb cond_Zopp]; lia. Qed.

Lemma sval_Rep (r : spec_float) (v : Z) : Rnd.Rep r v -> sval r = Z.min v top.
Proof.
  pose proof top_pos. intros [s|m e B|w Hw]; cbn [sval cond_Zopp].
  - lia.
  - pose proof (val_range _ _ B). lia.
  - unfold top in *. lia.
Qed.

Lemma sval_normalize (z e : Z) :
  -1074 <= e -> sval (binary_normalize prec emax z e false) = nval z e.
Proof.
  intros He. destruct z as [|p|p]; cbn [binary_normalize nval].
  - reflexivity.
  - apply sval_Rep, RndFacts.Rep_round, He.
  - unfold binary_round. destruct (shl_align _ _ _) as [mz ez] eqn:E.
    rewrite round_aux_opp, sval_opp. f_equal.
    pose proof (RndFacts.Rep_round p e He) as HR. unfold binary_round in HR.
    rewrite E in HR. apply sval_Rep, HR.
Qed.

Lemma nval_mono (z z' e : Z) : -1074 <= e -> z <= z' -> nval z e <= nval z' e.
Proof.
  intros He Hz. pose proof top_pos. pose proof (RndFacts.pow2_pos (e + 1074) ltac:(lia)) as Hp.
  assert (forall p, 0 <= Rnd.RQ (Zpos p * 2 ^ (e + 1074)) 1) as Hnn
    by (intros p; apply RndFacts.RQ_nonneg; nia).
  assert (forall p q, Zpos p <= Zpos q ->
            Rnd.RQ (Zpos p * 2 ^ (e + 1074)) 1 <= Rnd.RQ (Zpos q * 2 ^ (e + 1074)) 1) as Hm.
  { intros p q Hpq. apply RndFacts.RQ_mono_num; [split; [nia|]|lia].
    apply Z.mul_le_mono_nonneg_r; lia. }
  destruct z as [|p|p], z' as [|q|q]; cbn [nval]; try lia;
    try (pose proof (Hnn p)); try (pose proof (Hnn q)); try lia.
  - pose proof (Hm p q ltac:(lia)). lia.
  - pose proof (Hm q p ltac:(lia)). lia.
Qed.

(** With a deviation that is not negative, [m - s] is at most [m + s]. *)
Lemma sub_le_add (x y : spec_float) :
  valid_binary x = true -> valid_binary y = true -> Rnd.nonneg y ->
  sval (SFsub prec emax x y) <= sval (SFadd prec emax x y).
Proof.
  pose proof top_pos as Ht. intros Vx Vy Ny.
  destruct y as [sy|[]| |[] my ey]; cbn [Rnd.nonneg] in Ny; try contradiction.
  - destruct x as [[]|[]| |sx mx ex], sy; cbn [SFsub SFadd sval cond_Zopp]; lia.
  - destruct x as [[]|[]| |sx mx ex]; cbn [SFsub SFadd sval cond_Zopp negb]; lia.
  - cbn [valid_binary] in Vy. pose proof (val_range _ _ Vy).
    destruct x as [sx|[]| |sx mx ex]; cbn [SFsub SFadd sval cond_Zopp negb]; try lia.
    cbn [valid_binary] in Vx.
    pose proof (RndFacts.bounded_range _ _ Vx) as (Hex & _ & _).
    pose proof (RndFacts.bounded_range _ _ Vy) as (Hey & _ & _).
    rewrite !sval_normalize by lia. apply nval_mono; lia.
Qed.

Lemma sqrt_nonneg_or_nan (w : float) :
  Prim2SF (PrimFloat.sqrt w) = S754_nan \/ Rnd.nonneg (Prim2SF (PrimFloat.sqrt w)).
Proof.
  rewrite FloatAxioms.sqrt_spec. unfold SF64sqrt, SFsqrt.
  destruct (Prim2SF w) as [s|[]| |[] m e]; cbn [Rnd.nonneg]; auto.
  destruct (SFsqrt_core_binary _ _ _ _) as [[mz ez] lz].
  destruct (round_aux_cases false mz ez lz) as [->|[->|[->|(m' & e' & ->)]]];
    cbn [Rnd.nonneg]; auto.
Qed.

Lemma nothing_between (m w v : float) :
  (m + PrimFloat.sqrt w <? v)%float = true -> (v <? m - PrimFloat.sqrt w)%float = true -> False.
Proof.
  rewrite !FloatAxioms.ltb_spec. intros Hhi Hlo.
  pose proof (FloatAxioms.Prim2SF_valid (m + PrimFloat.sqrt w)) as Va.
  pose proof (FloatAxioms.Prim2SF_valid (m - PrimFloat.sqrt w)) as Vs.
  pose proof (ltb_sval _ _ Va (FloatAxioms.Prim2SF_valid v) Hhi) as H1.
  pose proof (ltb_sval _ _ (FloatAxioms.Prim2SF_valid v) Vs Hlo) as H2.
  rewrite FloatAxioms.add_spec in H1, Hhi. rewrite FloatAxioms.sub_spec in H2.
  destruct (sqrt_nonneg_or_nan w) as [E|Hn].
  - rewrite E in Hhi. destruct (Prim2SF m) as [[]|[]| |[] ? ?]; discriminate.
  - pose proof (sub_le_add _ _ (FloatAxioms.Prim2SF_valid m)
                  (FloatAxioms.Prim2SF_valid (PrimFloat.sqrt w)) Hn).
    unfold SF64add, SF64sub in *. lia.
Qed.

Lemma filter_exclusive_length {A} (f g : A -> bool) (xs : list A) :
  (forall x, f x = true -> g x = true -> False) ->
  (length (List.filter f xs) + length (List.filter g xs) <= length xs)%nat.
Proof.
  intros Hfg. induction xs as [|x xs IH]; [reflexivity|]. cbn [List.filter].
  specialize (Hfg x). destruct (f x), (g x); cbn [length]; try lia.
Qed.

Section Exclusive.
Context {L : Libraries}.

(** X7. No row is counted both as a high-speed and as a low-speed segment, so
    the two counts together never exceed the number of rows: the standard
    deviation is a square root, never negative, and rounding keeps
    [mean - std] at or below [mean + std]. *)
Theorem high_and_low_exclude_each_other (data_text : string) (df : Df.t) :
  load_and_process_data data_text = Py.Ok df ->
  (forall i : nat,
      In i (Df.index (high_speed_segments df)) ->
      In i (Df.index (low_speed_segments df)) -> False)
  /\ (Df.len (high_speed_segments df) + Df.len (low_speed_segments df) <= Df.len df)%nat.
Proof.
  intros H.
  pose proof (proj1 (rectangular_spec df) (load_rectangular _ _ H)) as Hrect.
  destruct Hrect as (_ & _ & _ & _ & _ & _ & _ & _ & _ & _ & Hlen).
  destruct (load_inv _ _ H) as (rows & dur & dist & Hrows & Hdur & Hdist & ->).
  unfold Df.len in *. cbn [Df.index Df.speed_kmh] in Hlen. rewrite List.length_seq in Hlen.
  unfold high_speed_segments, low_speed_segments, speed_std, Pd.std, Pd.gt, Pd.lt, Df.len.
  cbn [Df.speed_kmh Df.index Df.filter]. rewrite <- Hlen. split.
  - intros i (_ & v & Hv & Hhi)%select_labels (_ & v' & Hv' & Hlo)%select_labels.
    rewrite Hv in Hv'. injection Hv' as <-. exact (nothing_between _ _ _ Hhi Hlo).
  - rewrite !select_length by apply List.length_seq. rewrite List.length_seq.
    apply filter_exclusive_length. intros v. apply nothing_between.
Qed.

End Exclusive.

Lemma high_and_low_exclude_each_other_witness :
  exists df, @load_and_process_data python three_samples = Py.Ok df
             /\ (Df.len (@high_speed_segments python df)
                 + Df.len (@low_speed_segments python df) <= Df.len df)%nat.
Proof.
  eexists. split; [vm_compute; reflexivity|].
  eapply (@high_and_low_exclude_each_other python three_samples). vm_compute; reflexivity.
Defined.

(** ** Where a call fails *)

Section Failures.
Context {L : Libraries}.

Lemma segments_Raise (prev : coords) (rest : list coords) (e : Py.exn) :
  segments prev rest = Py.Raise e ->
  exists (i : nat) (p q : coords),
    (prev :: rest) !! i = Some p /\ (prev :: rest) !! S i = Some q
    /\ geodesic_km p q = Py.Raise e
    /\ (forall (j : nat) (p' q' : coords),
          (j < i)%nat -> (prev :: rest) !! j = Some p' -> (prev :: rest) !! S j = Some q' ->
          Py.is_ok (geodesic_km p' q') = true).
Proof.
  revert prev; induction rest as [|c rest IH]; intros prev H; cbn [segments] in H;
    [discriminate|].
  destruct (geodesic_km prev c) as [d|e'] eqn:Hd; cbn [mbind result_bind Py.bind] in H.
  - destruct (segments c rest) as [ds|e''] eqn:Hs; cbn [mbind result_bind Py.bind] in H;
      [discriminate|].
    assert (e'' = e) as -> by congruence.
    destruct (IH c Hs) as (i & p & q & Hp & Hq & Hpq & Hbefore).
    exists (S i), p, q. repeat split; auto.
    intros [|j] p' q' Hj Hp' Hq'.
    + cbn in Hp', Hq'. injection Hp' as <-. injection Hq' as <-. rewrite Hd. reflexivity.
    + apply (Hbefore j p' q'); [lia|exact Hp'|exact Hq'].
  - assert (e' = e) as -> by congruence.
    exists 0%nat, prev, c. repeat split; auto. intros j p' q' Hj. lia.
Qed.

(** X16. The three stages fail in the order of the source. An exception of the
    call is the one of the parsing loop; or, the lines being parsed, the one
    of the elapsed minutes; or, these being computed, the one geopy raises
    on the first pair of consecutive records it refuses: the pairs before
    it were measured, the pairs after it are never looked at. *)
Theorem failures_come_in_source_order (data_text : string) (e : Py.exn) :
  load_and_process_data data_text = Py.Raise e ->
  parse_lines data_text = Py.Raise e
  \/ (exists rows : list Rec.t,
        parse_lines data_text = Py.Ok rows
        /\ duration_column (map Rec.timestamp rows) = Py.Raise e)
  \/ (exists (rows : list Rec.t) (dur : list float) (i : nat) (p q : coords),
        parse_lines data_text = Py.Ok rows
        /\ duration_column (map Rec.timestamp rows) = Py.Ok dur
        /\ combine (map Rec.latitude rows) (map Rec.longitude rows) !! i = Some p
        /\ combine (map Rec.latitude rows) (map Rec.longitude rows) !! S i = Some q
        /\ geodesic_km p q = Py.Raise e
        /\ (forall (j : nat) (p' q' : coords),
              (j < i)%nat ->
              combine (map Rec.latitude rows) (map Rec.longitude rows) !! j = Some p' ->
              combine (map Rec.latitude rows) (map Rec.longitude rows) !! S j = Some q' ->
              Py.is_ok (geodesic_km p' q') = true)).
Proof.
  unfold load_and_process_data. intros H.
  destruct (parse_lines data_text) as [rows|e1]; cbn [mbind result_bind Py.bind] in H;
    [|left; congruence].
  right. destruct (duration_column _) as [dur|e2] eqn:Hdur;
    cbn [mbind result_bind Py.bind] in H;
    [|left; exists rows; split; [reflexivity|rewrite Hdur; congruence]].
  right. destruct (distance_column _) as [dist|e3] eqn:Hdist;
    cbn [mbind result_bind Py.bind] in H; [discriminate|].
  assert (e3 = e) as -> by congruence.
  unfold distance_column in Hdist.
  destruct (combine _ _) as [|c0 rest] eqn:Hc; [discriminate|].
  destruct (segments c0 rest) as [ds|e4] eqn:Hs; cbn [mbind result_bind Py.bind] in Hdist;
    [discriminate|].
  assert (e4 = e) as -> by congruence.
  destruct (segments_Raise _ _ _ Hs) as (i & p & q & Hp & Hq & Hpq & Hbefore).
  exists rows, dur, i, p, q. rewrite Hc.
  split; [reflexivity|]. split; [exact Hdur|]. split; [exact Hp|]. split; [exact Hq|].
  split; [exact Hpq|exact Hbefore].
Qed.

End Failures.

Lemma for_each_one {A B} (f : A -> Py.result B) (x : A) :
  Py.for_each f [x] = Py.bind (f x) (fun y => Py.Ok [y]).
Proof. cbn [Py.for_each]. destruct (f x); reflexivity. Qed.

Lemma bind_ext {A B} (m : Py.result A) (k1 k2 : A -> Py.result B) :
  (forall a, k1 a = k2 a) -> Py.bind m k1 = Py.bind m k2.
Proof. intros H. destruct m; cbn [Py.bind]; auto. Qed.

Lemma load_stages {L : Libraries} (data_text : string) :
  load_and_process_data data_text
  = Py.bind (parse_lines data_text) (fun rows =>
    Py.bind (duration_column (map Rec.timestamp rows)) (fun dur =>
    Py.bind (distance_column (combine (map Rec.latitude rows) (map Rec.longitude rows)))
      (fun dist =>
         Py.Ok (Df.mk (seq 0 (length rows)) (map Rec.timestamp rows)
                  (map Rec.latitude rows) (map Rec.longitude rows)
                  (map Rec.date rows) (map Rec.time rows)
                  (map Rec.hour rows) (map Rec.minute rows)
                  dur dist (Pd.cumsum dist) (speed_column dist))))).
Proof. reflexivity. Qed.

Lemma distance_column_one {L : Libraries} (row : Rec.t) :
  distance_column (combine (map Rec.latitude [row]) (map Rec.longitude [row]))
  = Py.Ok [0%float].
Proof. reflexivity. Qed.

(** X17. A text of one line never reaches geopy: with the same [strptime] and
    the same [float], the call gives the same table, or the same exception,
    whatever geopy would do with the coordinates (refuse them all,
    say). *)
Theorem single_record_never_reaches_geopy (L1 L2 : Libraries) (data_text : string) :
  @strptime L1 = @strptime L2 -> @py_float L1 = @py_float L2 ->
  length (Py.split Py.LF (Py.strip data_text)) = 1%nat ->
  @load_and_process_data L1 data_text = @load_and_process_data L2 data_text.
Proof.
  intros Hs Hf Hlen. rewrite !load_stages. unfold parse_lines.
  destruct (Py.split Py.LF (Py.strip data_text)) as [|line [|? ?]]; try discriminate.
  assert (@parse_line L1 line = @parse_line L2 line) as Hline.
  { unfold parse_line. rewrite Hs, Hf. reflexivity. }
  rewrite !for_each_one, Hline.
  destruct (@parse_line L2 line) as [row|e]; [|reflexivity].
  cbn [Py.bind]. apply bind_ext. intros dur.
  rewrite (@distance_column_one L1), (@distance_column_one L2). reflexivity.
Qed.

Lemma failures_come_in_source_order_witness :
  @load_and_process_data no_geopy (newline austin austin) = Py.Raise Py.ValueError
  /\ (@parse_lines no_geopy (newline austin austin) = Py.Raise Py.ValueError
      \/ (exists rows : list Rec.t,
            @parse_lines no_geopy (newline austin austin) = Py.Ok rows
            /\ @duration_column (map Rec.timestamp rows) = Py.Raise Py.ValueError)
      \/ (exists (rows : list Rec.t) (dur : list float) (i : nat) (p q : coords),
            @parse_lines no_geopy (newline austin austin) = Py.Ok rows
            /\ @duration_column (map Rec.timestamp rows) = Py.Ok dur
            /\ combine (map Rec.latitude rows) (map Rec.longitude rows) !! i = Some p
            /\ combine (map Rec.latitude rows) (map Rec.longitude rows) !! S i = Some q
            /\ @geodesic_km no_geopy p q = Py.Raise Py.ValueError
            /\ (forall (j : nat) (p' q' : coords),
                  (j < i)%nat ->
                  combine (map Rec.latitude rows) (map Rec.longitude rows) !! j = Some p' ->
                  combine (map Rec.latitude rows) (map Rec.longitude rows) !! S j = Some q' ->
                  Py.is_ok (@geodesic_km no_geopy p' q') = true))).
Proof.
  split; [vm_compute; reflexivity|].
  apply (@failures_come_in_source_order no_geopy (newline austin austin) Py.ValueError).
  vm_compute; reflexivity.
Defined.

Lemma single_record_never_reaches_geopy_witness :
  @load_and_process_data python austin = @load_and_process_data no_geopy austin.
Proof.
  apply (single_record_never_reaches_geopy python no_geopy austin); reflexivity.
Defined.

(** ** Stamps pandas can hold *)

Lemma days_before_month_range (y m : Z) :
  1 <= m <= 12 -> 0 <= Datetime.days_before_month y m <= 335.
Proof.
  intros Hm.
  assert (m = 1 \/ m = 2 \/ m = 3 \/ m = 4 \/ m = 5 \/ m = 6 \/ m = 7 \/ m = 8 \/ m = 9
          \/ m = 10 \/ m = 11 \/ m = 12) as Hc by lia.
  unfold Datetime.days_before_month, Datetime.days_in_month.
  destruct (Datetime.is_leap y);
    repeat (destruct Hc as [->|Hc]; [vm_compute; split; discriminate|]);
    subst m; vm_compute; split; discriminate.
Qed.

Lemma days_in_month_le (y m : Z) : Datetime.days_in_month y m <= 31.
Proof.
  unfold Datetime.days_in_month.
  destruct (m =? 2); [destruct (Datetime.is_leap y); lia|].
  destruct (_ || _); lia.
Qed.

(** A stamp of the years 1970 to 2261 is within the 64-bit nanoseconds. *)
Lemma modern_stamp_range (t : Datetime.datetime) :
  Datetime.valid t = true -> 1970 <= Datetime.year t <= 2261 ->
  0 <= Pd.to_ns t <= Pd.ns_max.
Proof.
  unfold Datetime.valid. rewrite !andb_true_iff, !Z.leb_le. intros Hv Hy.
  pose proof (days_before_month_range (Datetime.year t) (Datetime.month t) ltac:(lia)) as Hb.
  pose proof (days_in_month_le (Datetime.year t) (Datetime.month t)) as Hdm.
  assert (719162 <= Datetime.days_before_year (Datetime.year t) <= 825448) as Hby.
  { unfold Datetime.days_before_year. cbv zeta.
    pose proof (Z.div_mod (Datetime.year t - 1) 4 ltac:(lia)).
    pose proof (Z.mod_pos_bound (Datetime.year t - 1) 4 ltac:(lia)).
    pose proof (Z.div_mod (Datetime.year t - 1) 100 ltac:(lia)).
    pose proof (Z.mod_pos_bound (Datetime.year t - 1) 100 ltac:(lia)).
    pose proof (Z.div_mod (Datetime.year t - 1) 400 ltac:(lia)).
    pose proof (Z.mod_pos_bound (Datetime.year t - 1) 400 ltac:(lia)).
    assert (1969 <= Datetime.year t - 1 <= 2260) as Hp by lia.
    set (p := Datetime.year t - 1) in *. clearbody p.
    assert (p / 100 = 19 \/ 20 <= p / 100) as [E|E] by lia; lia. }
  unfold Pd.to_ns, Pd.ns_max, Pd.epoch_micros, Datetime.to_micros, Datetime.toordinal.
  change (2 ^ 63) with 9223372036854775808.
  set (dby := Datetime.days_before_year (Datetime.year t)) in *. clearbody dby. lia.
Qed.

Lemma for_each_all_Ok {A B} (f : A -> Py.result B) (xs : list A) :
  Forall (fun x => Py.is_ok (f x) = true) xs -> exists ys, Py.for_each f xs = Py.Ok ys.
Proof.
  induction 1 as [|x xs Hx _ [ys IH]]; [exists []; reflexivity|].
  cbn [Py.for_each]. destruct (f x) as [y|e]; [|discriminate]. rewrite IH. eexists; reflexivity.
Qed.

Section Modern.
Context {L : Libraries}.

(** X18. With stamps of the years 1970 to 2261 the elapsed minutes are always
    computed: every stamp and every difference of two stamps fits the 64-bit
    nanoseconds of pandas. What the call raises after the lines are parsed
    is then an exception of geopy. *)
Theorem modern_stamps_never_fail (data_text : string) (rows : list Rec.t) :
  parse_lines data_text = Py.Ok rows ->
  Forall (fun row => Datetime.valid (Rec.timestamp row) = true
                     /\ 1970 <= Datetime.year (Rec.timestamp row) <= 2261) rows ->
  (exists dur, duration_column (map Rec.timestamp rows) = Py.Ok dur)
  /\ (forall e, load_and_process_data data_text = Py.Raise e ->
        exists p q : coords, geodesic_km p q = Py.Raise e).
Proof.
  intros Hrows Hall.
  assert (exists dur, duration_column (map Rec.timestamp rows) = Py.Ok dur) as [dur Hdur].
  { pose proof (parse_lines_not_nil _ _ Hrows) as Hne.
    assert (Forall (fun t => 0 <= Pd.to_ns t <= Pd.ns_max) (map Rec.timestamp rows)) as Hr.
    { apply Forall_fmap. eapply Forall_impl; [exact Hall|].
      intros row [Hv Hy]. cbn. apply modern_stamp_range; assumption. }
    destruct rows as [|r rows]; [congruence|]. cbn [map] in *.
    unfold duration_column. change (Py.index (Rec.timestamp r :: map Rec.timestamp rows) 0)
      with (Py.Ok (Rec.timestamp r)).
    cbn [mbind result_bind Py.bind].
    assert (forallb (fun t => Pd.in_ns_bounds (Pd.to_ns t))
              (Rec.timestamp r :: map Rec.timestamp rows) = true) as ->.
    { apply forallb_forall. intros t Ht.
      apply (proj1 (List.Forall_forall _ _) Hr) in Ht. cbn beta in Ht.
      unfold Pd.in_ns_bounds. apply andb_true_intro. split; apply Z.leb_le; lia. }
    apply for_each_all_Ok. pose proof (Forall_inv Hr) as H0. cbn beta in H0.
    eapply Forall_impl; [exact Hr|]. intros t Ht. cbn beta in Ht |- *. unfold duration_of.
    assert (Pd.in_ns_bounds (Pd.to_ns t - Pd.to_ns (Rec.timestamp r)) = true) as ->;
      [|reflexivity].
    unfold Pd.in_ns_bounds. apply andb_true_intro. split; apply Z.leb_le; lia. }
  split; [eauto|]. intros e He.
  unfold load_and_process_data in He. rewrite Hrows in He.
  cbn [mbind result_bind Py.bind] in He. rewrite Hdur in He.
  cbn [mbind result_bind Py.bind] in He.
  destruct (distance_column _) as [dist|e3] eqn:Hdist;
    cbn [mbind result_bind Py.bind] in He; [discriminate|].
  assert (e3 = e) as -> by congruence.
  unfold distance_column in Hdist.
  destruct (combine _ _) as [|c0 rest]; [discriminate|].
  destruct (segments c0 rest) as [ds|e4] eqn:Hs; cbn [mbind result_bind Py.bind] in Hdist;
    [discriminate|].
  assert (e4 = e) as -> by congruence.
  destruct (segments_Raise _ _ _ Hs) as (i & p & q & _ & _ & Hpq & _). eauto.
Qed.

End Modern.

Lemma modern_stamps_never_fail_witness :
  exists rows dur,
    @parse_lines python austin = Py.Ok rows
    /\ duration_column (map Rec.timestamp rows) = Py.Ok dur.
Proof.
  eassert (@parse_lines python austin = Py.Ok _) as Hp by (vm_compute; reflexivity).
  destruct (@modern_stamps_never_fail python austin _ Hp) as [[dur Hd] _];
    [repeat constructor; cbn; lia|].
  eexists. exists dur. split; [exact Hp|exact Hd].
Defined.

(** ** Readings on whole minutes *)

Lemma Rep_below_top (r : spec_float) (v : Z) :
  Rnd.Rep r v -> v < top -> Rnd.val r = v /\ r <> S754_infinity false.
Proof.
  intros [s|m e B|w Hw] Hv; cbn [Rnd.val]; try (split; [reflexivity|discriminate]).
  unfold top in Hv. lia.
Qed.

Lemma Rep_inj (r r' : spec_float) (v : Z) :
  Rnd.Rep r v -> Rnd.Rep r' v -> plusSF r = true -> plusSF r' = true -> v < top -> r = r'.
Proof.
  intros H H' Hp Hp' Hv.
  destruct H as [[]|m e B|w Hw]; try discriminate; try (unfold top in Hv; lia).
  - inversion H' as [s' E|m' e' B' E|w' Hw' E]; subst.
    + destruct s'; [discriminate|reflexivity].
    + pose proof (val_range _ _ B'). lia.
    + unfold top in Hv. lia.
  - pose proof (val_range _ _ B) as Hr.
    inversion H' as [s' E E0|m' e' B' E E0|w' Hw' E]; subst.
    + lia.
    + destruct (Z.lt_trichotomy e e') as [Hl|[->|Hg]].
      * pose proof (RndFacts.bounded_compare _ _ _ _ B B' Hl). lia.
      * pose proof (RndFacts.bounded_range _ _ B') as (He & _ & _).
        pose proof (RndFacts.pow2_pos (e' + 1074) ltac:(lia)).
        assert (Zpos m = Zpos m') by nia. congruence.
      * pose proof (RndFacts.bounded_compare _ _ _ _ B' B Hg). lia.
    + unfold top in Hv. lia.
Qed.

Lemma pow53_top (z : Z) : 0 <= z < 2 ^ 53 -> z * 2 ^ 1074 < top.
Proof.
  intros Hz. unfold top. change 2098 with (1024 + 1074).
  rewrite Z.pow_add_r by lia. pose proof (RndFacts.pow2_pos 1074 ltac:(lia)).
  assert (2 ^ 53 <= 2 ^ 1024) by (apply Z.pow_le_mono_r; lia). nia.
Qed.

(** A float is settled by the integer it is. *)
Lemma is_int_inj (a b : float) (z : Z) :
  0 <= z < 2 ^ 53 -> is_int a z -> is_int b z -> a = b.
Proof.
  intros Hz [Pa Ra] [Pb Rb]. apply FloatAxioms.Prim2SF_inj.
  exact (Rep_inj _ _ _ Ra Rb Pa Pb (pow53_top z Hz)).
Qed.

Lemma RQ_exact_int (z : Z) : 0 <= z < 2 ^ 53 -> Rnd.RQ (z * 2 ^ 1074) 1 = z * 2 ^ 1074.
Proof.
  intros [H0 Hz]. destruct (Z.eq_dec z 0) as [->|Hne]; [apply (RndFacts.RQ_0 1); lia|].
  assert (0 < z) as Hpos by lia.
  destruct (RndFacts.dg_bounds z Hpos) as (Hd1 & Hlo & Hhi).
  assert (Rnd.dg z <= 53) as Hd by (apply RndFacts.dg_lt_pow; lia).
  set (k := 53 - Rnd.dg z). assert (0 <= k) as Hk by (unfold k; lia).
  pose proof (RndFacts.pow2_pos k Hk) as Hp.
  assert (z * 2 ^ 1074 = (z * 2 ^ k) * 2 ^ ((- k) + 1074)) as E.
  { rewrite <- Z.mul_assoc, RndFacts.pow2_add by lia. do 2 f_equal. lia. }
  rewrite E. apply RndFacts.RQ_canonical; [nia|].
  unfold Rnd.cexp. rewrite RndFacts.dg_mul_pow by lia. unfold k. lia.
Qed.

Lemma of_Z_int (z : Z) : 0 <= z < 2 ^ 53 -> is_int (F64.of_Z z) z.
Proof.
  intros Hz. split; [apply is_plus_of_Z; lia|].
  pose proof (RndFacts.Rep_normalize z false ltac:(lia)) as HR.
  unfold F64.of_Z. rewrite FloatAxioms.Prim2SF_SF2Prim by (apply (RndFacts.Rep_good _ _ HR)).
  rewrite RQ_exact_int in HR by assumption. exact HR.
Qed.

Lemma is_int_finite (c : float) (d : Z) :
  is_int c d -> 0 < d < 2 ^ 53 ->
  exists mc ec, Prim2SF c = S754_finite false mc ec
                /\ bounded prec emax mc ec = true
                /\ Zpos mc * 2 ^ (ec + 1074) = d * 2 ^ 1074.
Proof.
  intros [_ R] Hd. pose proof (pow53_top d ltac:(lia)) as Ht.
  pose proof (RndFacts.pow2_pos 1074 ltac:(lia)).
  inversion R as [s E E0|m e B E E0|w Hw E].
  - nia.
  - exists m, e. auto.
  - unfold top in Ht. lia.
Qed.

Lemma is_int_val (x : float) (z : Z) :
  is_int x z -> 0 <= z < 2 ^ 53 ->
  Rnd.val (Prim2SF x) = z * 2 ^ 1074 /\ Prim2SF x <> S754_infinity false.
Proof. intros [_ R] Hz. apply Rep_below_top; [exact R|apply pow53_top, Hz]. Qed.

(** Dividing by a divisor, multiplying and rounding to an integer are exact
    on integers below [2^53]. *)
Lemma div_int (x c : float) (z d w : Z) :
  is_int x z -> is_int c d -> 0 <= z < 2 ^ 53 -> 0 < d < 2 ^ 53 -> z = d * w ->
  is_int (x / c) w.
Proof.
  intros Hx Hc Hz Hd ->.
  destruct (is_int_finite c d Hc Hd) as (mc & ec & Ec & Bc & Vc).
  destruct (is_int_val x _ Hx Hz) as [Vx Ix].
  pose proof (RndFacts.pow2_pos 1074 ltac:(lia)) as Hp.
  assert (0 <= w < 2 ^ 53) as Hw by nia.
  split; [eapply is_plus_div; [exact Ec|apply Hx]|].
  rewrite FloatAxioms.div_spec, Ec.
  pose proof (RndFacts.div_Rep mc ec _ Bc (is_plus_good x (proj1 Hx)) Ix) as HR.
  rewrite Vx, Vc in HR.
  rewrite (RndFacts.RQ_ext _ _ (w * 2 ^ 1074) 1) in HR by (nia || lia).
  rewrite RQ_exact_int in HR by assumption. exact HR.
Qed.

Lemma mul_int (x c : float) (z d : Z) :
  is_int x z -> is_int c d -> 0 <= z -> 0 < d < 2 ^ 53 -> z * d < 2 ^ 53 ->
  is_int (x * c) (z * d).
Proof.
  intros Hx Hc Hz Hd Hzd.
  destruct (is_int_finite c d Hc Hd) as (mc & ec & Ec & Bc & Vc).
  assert (0 <= z < 2 ^ 53) as Hz' by nia.
  destruct (is_int_val x _ Hx Hz') as [Vx Ix].
  pose proof (RndFacts.pow2_pos 1074 ltac:(lia)) as Hp.
  split; [eapply is_plus_mul; [exact Ec|apply Hx]|].
  rewrite FloatAxioms.mul_spec, Ec.
  pose proof (RndFacts.mul_Rep mc ec _ Bc (is_plus_good x (proj1 Hx)) Ix) as HR.
  rewrite Vx, Vc in HR.
  rewrite (RndFacts.RQ_ext _ _ (z * d * 2 ^ 1074) 1) in HR by (nia || lia).
  rewrite RQ_exact_int in HR by nia. exact HR.
Qed.

Lemma rint_int (x : float) (z : Z) :
  is_int x z -> 0 <= z < 2 ^ 53 -> is_int (F64.rint x) z.
Proof.
  intros Hx Hz. destruct (is_int_val x _ Hx Hz) as [Vx Ix].
  pose proof (RndFacts.pow2_pos 1074 ltac:(lia)) as Hp.
  split; [apply is_plus_rint, Hx|].
  rewrite RndFacts.rint_spec by (apply is_plus_good, Hx).
  pose proof (RndFacts.rint_Rep _ (is_plus_good x (proj1 Hx)) Ix) as HR.
  rewrite Vx in HR.
  assert (Rnd.rintZ (z * 2 ^ 1074) = z) as E.
  { unfold Rnd.rintZ. rewrite (RndFacts.T_ext _ _ z 1) by lia.
    rewrite RndFacts.T_exact, RndFacts.rne_exact. reflexivity. }
  rewrite E, RQ_exact_int in HR by assumption. exact HR.
Qed.

(** Elapsed minutes of a whole number of minutes are that number. *)
Lemma minutes_exact (k : Z) :
  0 <= k < 150000 ->
  F64.round2 (Pd.total_seconds (k * 60000000000) / 60) = F64.of_Z k.
Proof.
  intros Hk.
  assert (2 ^ 53 = 9007199254740992) as E53 by reflexivity.
  assert (is_int 1e9 1000000000) as H1 by (apply (of_Z_int 1000000000); lia).
  assert (is_int 60 60) as H2 by (apply (of_Z_int 60); lia).
  assert (is_int 100 100) as H3 by (apply (of_Z_int 100); lia).
  apply (is_int_inj _ _ k); [lia| |apply of_Z_int; lia].
  unfold F64.round2, Pd.total_seconds.
  apply (div_int _ _ (k * 100) 100 k); [|exact H3|lia|lia|lia].
  apply rint_int; [|lia].
  apply (mul_int _ _ k 100); [|exact H3|lia|lia|lia].
  apply (div_int _ _ (k * 60) 60 k); [|exact H2|lia|lia|lia].
  apply (div_int _ _ (k * 60000000000) 1000000000 (k * 60)); [|exact H1|lia|lia|lia].
  apply of_Z_int. lia.
Qed.

Section WholeMinutes.
Context {L : Libraries}.

(** X19. A record stamped a whole number of minutes after the first one (fewer
    than 150000, some hundred days) has exactly that number as its elapsed
    minutes: readings ten minutes apart get 0.0, 10.0, 20.0 and so on, and
    neither the floating-point divisions nor the rounding to two decimals
    disturbs them. *)
Theorem whole_minutes_are_exact (data_text : string) (df : Df.t) :
  load_and_process_data data_text = Py.Ok df ->
  forall (i : nat) (t0 t : Datetime.datetime) (k : Z),
    Df.timestamp df !! 0%nat = Some t0 -> Df.timestamp df !! i = Some t ->
    Datetime.to_micros t - Datetime.to_micros t0 = k * 60000000 ->
    0 <= k < 150000 ->
    Df.duration_minutes df !! i = Some (F64.of_Z k).
Proof.
  intros H i t0 t k H0 Hi Hdelta Hk.
  destruct (load_inv _ _ H) as (rows & dur & dist & Hrows & Hdur & Hdist & ->).
  cbn [Df.timestamp Df.duration_minutes] in *.
  apply duration_column_Ok in Hdur as (t0' & Ht0 & Hdur).
  assert (t0' = t0) as -> by congruence.
  apply for_each_Ok in Hdur.
  destruct (Forall2_lookup_l _ _ _ _ _ Hdur Hi) as (d & Hd & Hof).
  rewrite Hd. f_equal. apply duration_of_Ok in Hof as ->.
  rewrite <- (minutes_exact k Hk). do 3 f_equal. unfold Pd.to_ns. lia.
Qed.

End WholeMinutes.

Lemma whole_minutes_are_exact_witness :
  exists df, @load_and_process_data python three_samples = Py.Ok df
             /\ Df.duration_minutes df !! 2%nat = Some 20%float.
Proof.
  eassert (@load_and_process_data python three_samples = Py.Ok _) as Hl
    by (vm_compute; reflexivity).
  eexists. split; [exact Hl|].
  refine (@whole_minutes_are_exact python three_samples _ Hl 2%nat _ _ 20 eq_refl eq_refl _ _).
  - vm_compute; reflexivity.
  - lia.
Defined.

(** ** The sample standard deviation *)

(** Dividing a number by a positive constant never gives NaN. *)
Lemma div_pos_not_nan (c x : float) (mc : positive) (ec : Z) :
  Prim2SF c = S754_finite false mc ec ->
  PrimFloat.is_nan x = false -> PrimFloat.is_nan (x / c) = false.
Proof.
  intros Hc Hx. pose proof (FloatAxioms.Prim2SF_valid c) as Bc. rewrite Hc in Bc.
  cbn [valid_binary] in Bc.
  pose proof (FloatAxioms.Prim2SF_valid x) as Bx.
  destruct (PrimFloat.is_nan (x / c)) eqn:E; [|reflexivity].
  apply is_nan_Prim2SF in E. rewrite FloatAxioms.div_spec, Hc in E. unfold SF64div in E.
  destruct (Prim2SF x) as [s|s| |s m e] eqn:Ex; try discriminate E.
  - apply is_nan_Prim2SF in Ex. congruence.
  - cbn [valid_binary] in Bx. pose proof (RndFacts.Rep_div m mc e ec Bx Bc) as HR.
    destruct s.
    + cbn [SFdiv xorb] in E, HR.
      destruct (SFdiv_core_binary _ _ _ _ _ _) as [[mz ez] lz].
      rewrite round_aux_opp in E.
      destruct (binary_round_aux prec emax false mz ez lz); try discriminate E.
      inversion HR.
    + rewrite E in HR. inversion HR.
Qed.

(** From two on, a count is above 1 and above 0 as a float too. *)
Lemma of_Z_two_up (z : Z) :
  2 <= z -> (F64.of_Z z <=? 1)%float = false /\ (0 <? F64.of_Z z)%float = true.
Proof.
  intros Hz. pose proof (RndFacts.pow2_pos 1074 ltac:(lia)) as Hp.
  pose proof (RndFacts.Rep_normalize z false ltac:(lia)) as HR.
  assert (2 * 2 ^ 1074 <= Rnd.RQ (z * 2 ^ 1074) 1) as Hv.
  { rewrite <- (RQ_exact_int 2) by (split; [lia|reflexivity]).
    apply RndFacts.RQ_mono_num; nia. }
  rewrite FloatAxioms.leb_spec, FloatAxioms.ltb_spec. unfold F64.of_Z.
  rewrite FloatAxioms.Prim2SF_SF2Prim by (apply (RndFacts.Rep_good _ _ HR)).
  set (r := binary_normalize prec emax z 0 false) in *.
  set (v := Rnd.RQ (z * 2 ^ 1074) 1) in *. clearbody r v.
  change (Prim2SF 1) with (S754_finite false 4503599627370496 (-52)).
  change (Prim2SF 0) with (S754_zero false).
  split.
  - destruct (SFleb r _) eqn:E; [|reflexivity]. exfalso.
    pose proof (RndFacts.Rep_good _ _ HR) as [Vr Nr].
    apply RndFacts.leb_val in E as (Ir & _ & Hle); [|exact Vr|reflexivity|exact Nr|discriminate].
    cbn [Rnd.val] in Hle. change (-52 + 1074) with 1022 in Hle.
    assert (4503599627370496 * 2 ^ 1022 = 2 ^ 1074) as E2 by reflexivity.
    destruct HR as [s|m e B|w Hw]; cbn [Rnd.val] in Hle; try lia. congruence.
  - destruct HR as [s|m e B|w Hw]; try reflexivity. lia.
Qed.

Lemma map_ext_Forall {A B} (f g : A -> B) (xs : list A) :
  Forall (fun x => f x = g x) xs -> map f xs = map g xs.
Proof. induction 1 as [|x xs Hx _ IH]; cbn; [|rewrite Hx, IH]; reflexivity. Qed.

Section SampleStd.
Context {L : Libraries}.

(** Geopy returning no NaN, no speed of a loaded table is NaN. *)
Lemma speeds_not_nan (data_text : string) (df : Df.t) :
  (forall p q d, geodesic_km p q = Py.Ok d -> PrimFloat.is_nan d = false) ->
  load_and_process_data data_text = Py.Ok df ->
  Forall (fun v => PrimFloat.is_nan v = false) (Df.speed_kmh df).
Proof.
  intros Hgeo H.
  destruct (load_inv _ _ H) as (rows & dur & dist & Hrows & Hdur & Hdist & ->).
  cbn [Df.speed_kmh]. unfold speed_column. apply Forall_fmap.
  assert (Forall (fun d => PrimFloat.is_nan d = false) dist) as Hd.
  { unfold distance_column in Hdist.
    destruct (combine _ _) as [|c0 rest]; [apply Ok_inj in Hdist as <-; constructor|].
    apply bind_Ok_inv in Hdist as (ds & Hds & Hdist). apply Ok_inj in Hdist as <-.
    constructor; [reflexivity|]. eapply segments_Forall; eauto. }
  eapply Forall_impl; [exact Hd|]. intros d Hn. cbn beta.
  eapply div_pos_not_nan; [|exact Hn]. reflexivity.
Qed.

(** C10. [std()] is pandas' sample standard deviation. For a table of [n]
    records, [n] at least two (and geopy returning no NaN, so that no speed
    is missing), the mean is the sum of the speeds over [n], and the
    deviation is the square root of the sum of the squared differences from
    the mean over [n - 1], not over [n]. With one record that divisor is
    undefined, the deviation is NaN, and no row is counted as high-speed or
    low-speed. *)
Theorem speed_std_is_sample_std (data_text : string) (df : Df.t) :
  load_and_process_data data_text = Py.Ok df ->
  let speeds := Df.speed_kmh df in
  let n := F64.of_Z (Z.of_nat (Df.len df)) in
  let avg := (np_sum speeds / n)%float in
  let squares := map (fun x => ((avg - x) * (avg - x))%float) speeds in
  ((forall p q d, geodesic_km p q = Py.Ok d -> PrimFloat.is_nan d = false) ->
   (2 <= Df.len df)%nat ->
     length speeds = Df.len df
     /\ Pd.mean speeds = avg
     /\ speed_std df = PrimFloat.sqrt (np_sum squares / (n - 1))%float)
  /\ (Df.len df = 1%nat ->
      speed_std df = PrimFloat.nan
      /\ speed_pattern_analysis df = (PrimFloat.nan, 0%nat, 0%nat)).
Proof.
  intros H. cbv zeta.
  pose proof (proj1 (rectangular_spec df) (load_rectangular _ _ H)) as Hrect.
  destruct Hrect as (_ & _ & _ & _ & _ & _ & _ & _ & Hdl & _ & Hlen).
  split.
  - intros Hgeo Hn. pose proof (speeds_not_nan _ _ Hgeo H) as Hnan.
    assert (Pd.count (Df.speed_kmh df) = F64.of_Z (Z.of_nat (Df.len df))) as Hcount.
    { unfold Pd.count. rewrite filter_all, Hlen; [reflexivity|].
      eapply Forall_impl; [exact Hnan|]. intros v Hv. unfold Pd.notna. rewrite Hv. reflexivity. }
    assert (Pd.fillna 0 (Df.speed_kmh df) = Df.speed_kmh df) as Hfill.
    { unfold Pd.fillna. rewrite <- (map_id (Df.speed_kmh df)) at 2.
      apply map_ext_Forall. eapply Forall_impl; [exact Hnan|].
      intros v Hv. cbn beta. rewrite Hv. reflexivity. }
    destruct (of_Z_two_up (Z.of_nat (Df.len df)) ltac:(lia)) as [Hle H0].
    split; [exact Hlen|]. split.
    + unfold Pd.mean. rewrite Hcount, Hfill, H0. reflexivity.
    + unfold speed_std, Pd.std, Pd.var. rewrite Hcount, Hfill.
      change (F64.of_Z 1) with 1%float. rewrite Hle. do 3 f_equal.
      apply map_ext_Forall. eapply Forall_impl; [exact Hnan|].
      intros v Hv. cbn beta. rewrite Hv. reflexivity.
  - intros Hone.
    destruct (load_inv _ _ H) as (rows & dur & dist & Hrows & Hdur & Hdist & ->).
    unfold Df.len in Hone. cbn [Df.index] in Hone. rewrite List.length_seq in Hone.
    destruct rows as [|r [|? ?]]; try discriminate Hone.
    cbn in Hdist. apply Ok_inj in Hdist as <-.
    assert (speed_column [0%float] = [0%float]) as Hs by reflexivity.
    assert (Pd.std [0%float] = PrimFloat.nan) as Hstd.
    { unfold Pd.std, Pd.var.
      change (Pd.count [0%float]) with 1%float. change (F64.of_Z 1) with 1%float.
      change (1 <=? 1)%float with true. cbn iota.
      rewrite !div_nan_r. reflexivity. }
    unfold speed_pattern_analysis, high_speed_segments, low_speed_segments, speed_std.
    cbn [Df.speed_kmh]. rewrite Hs, Hstd. split; [reflexivity|].
    rewrite add_nan_r, sub_nan_r. unfold Pd.gt, Pd.lt, Df.len, Df.filter.
    cbn [Df.index Df.speed_kmh length seq map Pd.select].
    rewrite ltb_nan_l, ltb_nan_r. reflexivity.
Qed.

End SampleStd.

Lemma speed_std_is_sample_std_witness :
  (exists df, @load_and_process_data python three_samples = Py.Ok df
              /\ length (Df.speed_kmh df) = 3%nat
              /\ @speed_std python df
                 = (let avg := (seq_sum (Df.speed_kmh df) / 3)%float in
                    PrimFloat.sqrt
                      (seq_sum (map (fun x => ((avg - x) * (avg - x))%float) (Df.speed_kmh df))
                       / 2))%float)
  /\ (exists df, @load_and_process_data python austin = Py.Ok df
                 /\ @speed_pattern_analysis python df = (PrimFloat.nan, 0%nat, 0%nat)).
Proof.
  eassert (@load_and_process_data python three_samples = Py.Ok _) as H3
    by (vm_compute; reflexivity).
  eassert (@load_and_process_data python austin = Py.Ok _) as H1
    by (vm_compute; reflexivity).
  split.
  - eexists. split; [exact H3|].
    destruct (proj1 (@speed_std_is_sample_std python three_samples _ H3))
      as (Hlen & _ & Hstd).
    + exact flat_geodesic_not_nan.
    + vm_compute. lia.
    + split; [exact Hlen|]. exact Hstd.
  - eexists. split; [exact H1|].
    apply (proj2 (@speed_std_is_sample_std python austin _ H1)). reflexivity.
Defined.
